(** * Alex's Personal Hub installer: a model of [installer.py]

    The installer is one Python class, [AppInstaller], whose methods run in
    a fixed order and talk to three outside parties: GitHub over HTTP, the
    local file system, and a few child processes.  The model below keeps
    the control flow of each method as it is written and makes the outside
    parties explicit:

    - everything the program cannot decide by itself (what a request
      returns, whether a system call fails, what an archive contains, what
      the user types) is read from an environment record [env];
    - everything the program changes (the two directories it owns, the
      manifest attribute, the console) lives in a [state] record;
    - a method is a function from a state to a [result] and a new state, so
      that a raised exception keeps the effects that happened before it,
      as in Python. *)

From Stdlib Require Import List String Ascii ZArith Lia Bool Arith.
From Stdlib.Strings Require Import Byte.
Import ListNotations.
Local Open Scope string_scope.
Local Open Scope Z_scope.

Set Implicit Arguments.
Set Warnings "-register-all".

(** ** Exceptions and results *)

(** Python separates [Exception] (what [except Exception] catches) from
    the other descendants of [BaseException].  The only one of the latter
    the installer names is [KeyboardInterrupt]; a bare [except:] catches
    both.  An [Exception] carries the text printed for it. *)
Inductive exc : Type :=
| Exception (name : string)
| KeyboardInterrupt.

Inductive result (A : Type) : Type :=
| Ok (a : A)
| Raise (e : exc).
Arguments Ok {A} a.
Arguments Raise {A} e.

Definition is_exception (e : exc) : bool :=
  match e with Exception _ => true | KeyboardInterrupt => false end.

(** ** JSON values with Python's dynamic operations *)

(** What [response.json()] and [json.loads] return.  Numbers are the
    integers; a [dict] is the list of its items in insertion order (a
    parser never produces the same key twice). *)
Inductive json : Type :=
| JNull
| JBool (b : bool)
| JNum (n : Z)
| JStr (s : string)
| JArr (l : list json)
| JObj (items : list (string * json)).

Fixpoint assoc {A : Type} (k : string) (l : list (string * A)) : option A :=
  match l with
  | [] => None
  | (k', v) :: l' => if String.eqb k k' then Some v else assoc k l'
  end.

Definition has_key {A : Type} (k : string) (l : list (string * A)) : bool :=
  match assoc k l with Some _ => true | None => false end.

Definition is_str (k : string) (v : json) : bool :=
  match v with JStr s => String.eqb s k | _ => false end.

Definition is_substring (k s : string) : bool :=
  match String.index 0 k s with Some _ => true | None => false end.

(** [k in v] for a string [k]. *)
Definition py_contains (k : string) (v : json) : result bool :=
  match v with
  | JObj items => Ok (has_key k items)
  | JArr l => Ok (existsb (is_str k) l)
  | JStr s => Ok (is_substring k s)
  | _ => Raise (Exception "TypeError")
  end.

(** [v[k]] for a string [k]. *)
Definition py_getitem (v : json) (k : string) : result json :=
  match v with
  | JObj items =>
      match assoc k items with
      | Some x => Ok x
      | None => Raise (Exception "KeyError")
      end
  | _ => Raise (Exception "TypeError")
  end.

(** [v.get(k, default)]: only a [dict] has the method. *)
Definition py_get (v : json) (k : string) (default : json) : result json :=
  match v with
  | JObj items =>
      match assoc k items with
      | Some x => Ok x
      | None => Ok default
      end
  | _ => Raise (Exception "AttributeError")
  end.

(** [len(v)]. *)
Definition py_len (v : json) : result nat :=
  match v with
  | JObj items => Ok (List.length items)
  | JArr l => Ok (List.length l)
  | JStr s => Ok (String.length s)
  | _ => Raise (Exception "TypeError")
  end.

(** [v.items()]. *)
Definition py_items (v : json) : result (list (string * json)) :=
  match v with
  | JObj items => Ok items
  | _ => Raise (Exception "AttributeError")
  end.

(** [n == v] for an [int] [n]: [True] and [False] compare as 1 and 0. *)
Definition py_eq_int (n : Z) (v : json) : bool :=
  match v with
  | JNum m => Z.eqb n m
  | JBool b => Z.eqb n (if b then 1 else 0)
  | _ => false
  end.

(** [self.manifest] as [__init__] sets it. *)
Definition default_manifest : json :=
  JObj [ ("files",
          JObj [ ("main_app.py", JObj [("size", JNum 0); ("hash", JStr "")]);
                 ("requirements.txt", JObj [("size", JNum 0); ("hash", JStr "")]);
                 ("media_config.json", JObj [("size", JNum 0); ("hash", JStr "")]) ]);
         ("version", JStr "1.0.0");
         ("total_size", JNum 0) ].

(** ** The file system *)

(** A file has its bytes and its metadata (time stamps and mode bits, kept
    as one opaque number); a directory lists its entries by name. *)
Inductive node : Type :=
| File (data : list byte) (meta : Z)
| Dir (entries : list (string * node)).

Definition path := list string.

(** Put [v] under [k]: in place when [k] is there, at the end otherwise. *)
Fixpoint set_entry {A : Type} (k : string) (v : A) (l : list (string * A))
  : list (string * A) :=
  match l with
  | [] => [(k, v)]
  | (k', v') :: l' =>
      if String.eqb k k' then (k, v) :: l' else (k', v') :: set_entry k v l'
  end.

Fixpoint del_entry {A : Type} (k : string) (l : list (string * A))
  : list (string * A) :=
  match l with
  | [] => []
  | (k', v') :: l' =>
      if String.eqb k k' then del_entry k l' else (k', v') :: del_entry k l'
  end.

Fixpoint lookup (n : node) (p : path) : option node :=
  match p with
  | [] => Some n
  | x :: p' =>
      match n with
      | Dir es =>
          match assoc x es with
          | Some c => lookup c p'
          | None => None
          end
      | File _ _ => None
      end
  end.

Definition lookup_opt (o : option node) (p : path) : option node :=
  match o with Some n => lookup n p | None => None end.

(** Write [v] at [p] below [o].  With [parents] the missing directories on
    the way are created ([os.makedirs]); without it the parent has to be
    there.  [None] when a component of the way is missing or is a file. *)
Fixpoint store (parents : bool) (o : option node) (p : path) (v : node)
  : option node :=
  match p with
  | [] => Some v
  | x :: p' =>
      match o with
      | Some (Dir es) =>
          match p', assoc x es with
          | _ :: _, None =>
              if parents then
                match store parents None p' v with
                | Some c => Some (Dir (set_entry x c es))
                | None => None
                end
              else None
          | _, c =>
              match store parents c p' v with
              | Some c' => Some (Dir (set_entry x c' es))
              | None => None
              end
          end
      | Some (File _ _) => None
      | None =>
          if parents then
            match store parents None p' v with
            | Some c => Some (Dir [(x, c)])
            | None => None
            end
          else None
      end
  end.

(** Remove what is at [p] below [o]; [None] when nothing is there. *)
Fixpoint remove (o : option node) (p : path) : option (option node) :=
  match p with
  | [] => match o with Some _ => Some None | None => None end
  | x :: p' =>
      match o with
      | Some (Dir es) =>
          match p' with
          | [] =>
              match assoc x es with
              | Some _ => Some (Some (Dir (del_entry x es)))
              | None => None
              end
          | _ :: _ =>
              match remove (assoc x es) p' with
              | Some (Some c') => Some (Some (Dir (set_entry x c' es)))
              | _ => None
              end
          end
      | _ => None
      end
  end.

(** The installer owns two directories: [self.install_dir], below the
    user's home, and [self.temp_dir], below the system's temporary
    directory.  Neither lies inside the other, so the model keeps one tree
    for each.  A path that does not stay below them is kept by its text. *)
Inductive root : Type := InstallDir | TempDir.

Inductive loc : Type :=
| At (r : root) (p : path)
| Elsewhere (raw : string).

Definition root_eqb (a b : root) : bool :=
  match a, b with
  | InstallDir, InstallDir | TempDir, TempDir => true
  | _, _ => false
  end.

Fixpoint path_eqb (p q : path) : bool :=
  match p, q with
  | [], [] => true
  | x :: p', y :: q' => String.eqb x y && path_eqb p' q'
  | _, _ => false
  end.

Definition loc_eqb (a b : loc) : bool :=
  match a, b with
  | At r p, At r' p' => root_eqb r r' && path_eqb p p'
  | Elsewhere x, Elsewhere y => String.eqb x y
  | _, _ => false
  end.

(** [l / name] *)
Definition loc_child (l : loc) (name : string) : loc :=
  match l with
  | At r p => At r (p ++ [name])%list
  | Elsewhere raw => Elsewhere (raw ++ "/" ++ name)
  end.

(** [os.path.basename] *)
Definition basename (l : loc) : string :=
  match l with
  | At _ p => last p ""
  | Elsewhere raw => raw
  end.

(** [s.split("/")] *)
Fixpoint split_slash (s : string) : list string :=
  match s with
  | EmptyString => [""]
  | String c s' =>
      if Ascii.eqb c "/" then "" :: split_slash s'
      else match split_slash s' with
           | x :: xs => String c x :: xs
           | [] => [String c ""]
           end
  end.

Definition is_absolute (s : string) : bool :=
  match s with String c _ => Ascii.eqb c "/" | EmptyString => false end.

Definition plain_component (x : string) : bool :=
  negb (String.eqb x "") && negb (String.eqb x ".").

(** [self.temp_dir / filename], by the rules of [PurePosixPath]: [/]
    alone separates, empty and ["."] components are dropped; an absolute
    [filename] replaces the left operand, and [".."] is kept for the
    system to resolve: both leave the staging tree as far as the model
    can tell.  (On Windows a backslash separates too and a drive name
    anchors a path.) *)
Definition temp_child (filename : string) : loc :=
  let comps := filter plain_component (split_slash filename) in
  if is_absolute filename || existsb (String.eqb "..") comps
  then Elsewhere filename
  else At TempDir comps.

(** ** Console output *)

(** One constructor for each [print] of the program, in the order of the
    source.  The text of a caught exception is the argument [e]. *)
Inductive msg : Type :=
| Banner
| Step1 | InternetOk | NoInternet | PleaseConnect
| Step2 | InstallDirReady | MkdirFailed (e : string)
| DownloadFailed (filename e : string)
| Step3 | FoundFiles (n : nat) | ManifestWarning (e : string) | UsingDefaultList
| Step4Files | NoFilesToDownload | DownloadingFiles (n : nat)
| SizeMismatch (filename : string) | DownloadedFiles (successful total : nat)
| Step4Zip | Step5 | FilesExtracted | ExtractFailed (e : string)
| Step6 | InstallingRequirements | DependenciesInstalled
| DependenciesFailed (e : string) | InstallManually | PyQtInstalled
| SkippingDependencies
| Step7 | FilesInstalled | CopyFailed (e : string)
| Step8 | ShortcutsCreated | ShortcutsFailed (e : string)
| TryingIndividual
| CompleteRule | CompleteTitle | InstalledTo | InstalledPath | ToStart
| HintShortcut | HintCommand | LaunchPrompt | Launching
| Cancelled | InstallationFailed (e : string) | Traceback.



(** ** State *)

Record state : Type := mkState {
  fs_install : option node;                 (* what is at self.install_dir *)
  fs_temp : option node;                    (* what is at self.temp_dir *)
  fs_elsewhere : list (string * node);      (* files written outside both *)
  manifest : json;                          (* self.manifest *)
  console : list msg                        (* what was printed, oldest first *)
}.

Definition get (s : state) (l : loc) : option node :=
  match l with
  | At InstallDir p => lookup_opt (fs_install s) p
  | At TempDir p => lookup_opt (fs_temp s) p
  | Elsewhere raw => assoc raw (fs_elsewhere s)
  end.

Definition with_install (s : state) (o : option node) : state :=
  mkState o (fs_temp s) (fs_elsewhere s) (manifest s) (console s).

Definition with_temp (s : state) (o : option node) : state :=
  mkState (fs_install s) o (fs_elsewhere s) (manifest s) (console s).

Definition with_elsewhere (s : state) (l : list (string * node)) : state :=
  mkState (fs_install s) (fs_temp s) l (manifest s) (console s).

Definition with_manifest (s : state) (j : json) : state :=
  mkState (fs_install s) (fs_temp s) (fs_elsewhere s) j (console s).

Definition with_console (s : state) (c : list msg) : state :=
  mkState (fs_install s) (fs_temp s) (fs_elsewhere s) (manifest s) c.

Definition put (parents : bool) (s : state) (l : loc) (v : node)
  : option state :=
  match l with
  | At InstallDir p => option_map (fun n => with_install s (Some n))
                                  (store parents (fs_install s) p v)
  | At TempDir p => option_map (fun n => with_temp s (Some n))
                               (store parents (fs_temp s) p v)
  | Elsewhere raw => Some (with_elsewhere s (set_entry raw v (fs_elsewhere s)))
  end.

Definition del (s : state) (l : loc) : option state :=
  match l with
  | At InstallDir p => option_map (with_install s) (remove (fs_install s) p)
  | At TempDir p => option_map (with_temp s) (remove (fs_temp s) p)
  | Elsewhere raw =>
      match assoc raw (fs_elsewhere s) with
      | Some _ => Some (with_elsewhere s (del_entry raw (fs_elsewhere s)))
      | None => None
      end
  end.

(** ** The environment *)

(** The [content-length] header as [int(...)] sees it. *)
Inductive header : Type := NoHeader | IntHeader (n : Z) | BadHeader.

(** A [requests.Response]: the status, the header, what [.json()] gives,
    and what [iter_content] yields before it stops, cleanly or with an
    error. *)
Record response : Type := mkResponse {
  status_code : Z;
  content_length : header;
  json_body : result json;
  body_chunks : list (list byte);
  body_error : option exc
}.

(** The system calls that can fail for reasons outside the tree (access
    rights, a full disk, a signal).  Such a failure stops the call before
    it changes anything; a [copytree], [rmtree] or [extractall] that
    fails for an outside reason after some of its writes is not among
    the outcomes the model has. *)
Inductive fs_op : Type :=
| OpMkdir (r : root)
| OpOpen (l : loc)
| OpWrite (l : loc)
| OpExtract (archive : loc)
| OpCopy2 (src dst : loc)
| OpCopytree (src dst : loc)
| OpRmtree (l : loc)
| OpChdir (l : loc).

(** The three [subprocess.check_call] command lines. *)
Inductive command : Type :=
| PipUpgradePip
| PipInstallRequirements
| PipInstallPyQt6.

Record env : Type := mkEnv {
  http_get : string -> result response;        (* requests.get(url, ...) *)
  b64decode_text : string -> result string;    (* base64.b64decode(x).decode() *)
  json_loads : string -> result json;          (* json.loads *)
  fs_fault : fs_op -> option exc;              (* a call that fails, and how *)
  unzip : list byte -> result (list (string * node)); (* members of an archive *)
  now : Z;                                     (* metadata of a file written now *)
  dir_size : Z;                                (* st_size of a directory *)
  check_call : command -> result unit;         (* subprocess.check_call *)
  platform_system : string;                    (* platform.system() *)
  win32_shortcut : result unit;                (* pythoncom, Dispatch, CreateShortcut *)
  win32_save : result unit;                    (* shortcut.save() *)
  launcher_text : list byte;                   (* the text of launch.bat *)
  mac_shortcut : result unit;                  (* the .app bundle under ~/Applications *)
  linux_shortcut : result unit;                (* the .desktop entry under ~/.local *)
  stdin_line : result string;                  (* input() *)
  os_system : result unit                      (* os.system(...) *)
}.

(** ** Computations *)

Definition M (A : Type) : Type := state -> result A * state.

Definition ret {A : Type} (a : A) : M A := fun s => (Ok a, s).

Definition bind {A B : Type} (m : M A) (k : A -> M B) : M B :=
  fun s =>
    match m s with
    | (Ok a, s') => k a s'
    | (Raise e, s') => (Raise e, s')
    end.

Definition raise {A : Type} (e : exc) : M A := fun s => (Raise e, s).

Definition lift {A : Type} (r : result A) : M A := fun s => (r, s).

Definition get_state : M state := fun s => (Ok s, s).

Definition set_state (s' : state) : M unit := fun _ => (Ok tt, s').

Declare Scope monad_scope.
Delimit Scope monad_scope with monad.
Notation "x <- m ;; k" := (bind m (fun x => k))
  (at level 61, m at next level, right associativity) : monad_scope.
Notation "m ;; k" := (bind m (fun _ => k))
  (at level 61, right associativity) : monad_scope.
Local Open Scope monad_scope.

(** [try: body  except Exception as e: handler e] *)
Definition try_except {A : Type} (body : M A) (handler : string -> M A) : M A :=
  fun s =>
    match body s with
    | (Raise (Exception e), s') => handler e s'
    | other => other
    end.

(** [try: body  except: handler] *)
Definition try_bare {A : Type} (body : M A) (handler : M A) : M A :=
  fun s =>
    match body s with
    | (Raise _, s') => handler s'
    | other => other
    end.

(** [try: body  except KeyboardInterrupt: on_interrupt
               except Exception as e: handler e] *)
Definition try_interrupt {A : Type} (body : M A) (on_interrupt : M A)
  (handler : string -> M A) : M A :=
  fun s =>
    match body s with
    | (Raise KeyboardInterrupt, s') => on_interrupt s'
    | (Raise (Exception e), s') => handler e s'
    | other => other
    end.

(** [try: body  finally: fin]: the outcome of [body] stands unless [fin]
    raises. *)
Definition finally {A : Type} (body : M A) (fin : M unit) : M A :=
  fun s =>
    let (r, s1) := body s in
    match fin s1 with
    | (Ok _, s2) => (r, s2)
    | (Raise e, s2) => (Raise e, s2)
    end.

(** [for x in l: body x] *)
Fixpoint for_each {A : Type} (l : list A) (body : A -> M unit) : M unit :=
  match l with
  | [] => ret tt
  | x :: l' => body x ;; for_each l' body
  end.

(** [for x in l: acc = body x acc] *)
Fixpoint for_fold {A B : Type} (l : list A) (body : A -> B -> M B) (acc : B)
  : M B :=
  match l with
  | [] => ret acc
  | x :: l' => acc' <- body x acc ;; for_fold l' body acc'
  end.

(** [print(...)]: the state with one more line on the console. *)
Definition say (m : msg) (s : state) : state :=
  with_console s (console s ++ [m]).

Definition print (m : msg) : M unit := fun s => (Ok tt, say m s).

(** ** Library calls on the tree *)

(** [shutil.copy2(src, dst / name)] seen from the directory [ds] that
    holds the destination: onto a directory the file goes inside it under
    its own name, and [copyfile] refuses to write onto a directory. *)
Definition copy2_entry (name : string) (f : node) (ds : list (string * node))
  : list (string * node) * list string :=
  match assoc name ds with
  | Some (Dir sub) =>
      match assoc name sub with
      | Some (Dir _) => (ds, ["IsADirectoryError"])
      | _ => (set_entry name (Dir (set_entry name f sub)) ds, [])
      end
  | _ => (set_entry name f ds, [])
  end.

(** The loop of [shutil._copytree] over the entries of [src], writing into
    a destination directory that lists [ds]: a file is copied with
    [copy2], a directory by a recursive call, whose [os.makedirs] fails on
    a file and, without [dirs_exist_ok], on a directory.  An error is
    noted and the loop goes on; the notes are raised together at the
    end. *)
Fixpoint copytree_node (dirs_exist_ok : bool) (src : node)
  (ds : list (string * node)) {struct src}
  : list (string * node) * list string :=
  match src with
  | File _ _ => (ds, [])
  | Dir es =>
      (fix go (es : list (string * node)) (ds : list (string * node))
         {struct es} : list (string * node) * list string :=
         match es with
         | [] => (ds, [])
         | (name, child) :: es' =>
             let '(ds1, e1) :=
               match child with
               | File _ _ => copy2_entry name child ds
               | Dir _ =>
                   match assoc name ds with
                   | Some (File _ _) => (ds, ["FileExistsError"])
                   | Some (Dir sub) =>
                       if dirs_exist_ok then
                         let '(sub', e) := copytree_node dirs_exist_ok child sub in
                         (set_entry name (Dir sub') ds, e)
                       else (ds, ["FileExistsError"])
                   | None =>
                       let '(sub', e) := copytree_node dirs_exist_ok child [] in
                       (set_entry name (Dir sub') ds, e)
                   end
               end in
             let '(ds2, e2) := go es' ds1 in
             (ds2, (e1 ++ e2)%list)
         end) es ds
  end.

(** [ZipFile.extractall] member by member into a directory that lists
    [ds]: a directory member is created when missing, a file member is
    written over what is there; the first error stops the extraction and
    keeps what was written. *)
Fixpoint extract_node (src : node) (ds : list (string * node)) {struct src}
  : list (string * node) * option string :=
  match src with
  | File _ _ => (ds, None)
  | Dir es =>
      (fix go (es : list (string * node)) (ds : list (string * node))
         {struct es} : list (string * node) * option string :=
         match es with
         | [] => (ds, None)
         | (name, child) :: es' =>
             let '(ds1, e1) :=
               match child with
               | File _ _ =>
                   match assoc name ds with
                   | Some (Dir _) => (ds, Some "IsADirectoryError")
                   | _ => (set_entry name child ds, None)
                   end
               | Dir _ =>
                   match assoc name ds with
                   | Some (File _ _) => (ds, Some "FileExistsError")
                   | Some (Dir sub) =>
                       let '(sub', e) := extract_node child sub in
                       (set_entry name (Dir sub') ds, e)
                   | None =>
                       let '(sub', e) := extract_node child [] in
                       (set_entry name (Dir sub') ds, e)
                   end
               end in
             match e1 with
             | Some e => (ds1, Some e)
             | None => go es' ds1
             end
         end) es ds
  end.

Section Calls.

Variable E : env.

Definition fault (op : fs_op) : M unit :=
  match fs_fault E op with
  | Some e => raise e
  | None => ret tt
  end.

(** [requests.get(url, ...)] *)
Definition requests_get (url : string) : M response := lift (http_get E url).

(** [response.raise_for_status()] *)
Definition raise_for_status (r : response) : M unit :=
  if (400 <=? status_code r) && (status_code r <? 600)
  then raise (Exception "HTTPError")
  else ret tt.

(** [int(response.headers.get('content-length', 0))] *)
Definition int_content_length (r : response) : M Z :=
  match content_length r with
  | NoHeader => ret 0
  | IntHeader n => ret n
  | BadHeader => raise (Exception "ValueError")
  end.

(** [p.exists()], [p.is_file()], [p.is_dir()] *)
Definition exists_ (l : loc) : M bool :=
  fun s => (Ok (match get s l with Some _ => true | None => false end), s).

Definition is_file (l : loc) : M bool :=
  fun s => (Ok (match get s l with Some (File _ _) => true | _ => false end), s).

Definition is_dir (l : loc) : M bool :=
  fun s => (Ok (match get s l with Some (Dir _) => true | _ => false end), s).

(** [p.iterdir()]: the names are listed once, before the loop runs. *)
Definition iterdir (l : loc) : M (list string) :=
  fun s =>
    match get s l with
    | Some (Dir es) => (Ok (map fst es), s)
    | Some (File _ _) => (Raise (Exception "NotADirectoryError"), s)
    | None => (Raise (Exception "FileNotFoundError"), s)
    end.

(** [os.path.getsize(p)] *)
Definition getsize (l : loc) : M Z :=
  fun s =>
    match get s l with
    | Some (File d _) => (Ok (Z.of_nat (List.length d)), s)
    | Some (Dir _) => (Ok (dir_size E), s)
    | None => (Raise (Exception "FileNotFoundError"), s)
    end.

(** [p.mkdir(exist_ok=True)] for one of the two directories. *)
Definition mkdir (r : root) : M unit :=
  fault (OpMkdir r) ;;
  s <- get_state ;;
  match get s (At r []) with
  | None =>
      match put false s (At r []) (Dir []) with
      | Some s' => set_state s'
      | None => raise (Exception "FileNotFoundError")
      end
  | Some (Dir _) => ret tt
  | Some (File _ _) => raise (Exception "FileExistsError")
  end.

(** [open(l, 'wb')]: the file is created or emptied. *)
Definition open_wb (l : loc) : M unit :=
  fault (OpOpen l) ;;
  s <- get_state ;;
  match get s l with
  | Some (Dir _) => raise (Exception "IsADirectoryError")
  | _ =>
      match put false s l (File [] (now E)) with
      | Some s' => set_state s'
      | None => raise (Exception "FileNotFoundError")
      end
  end.

(** [f.write(chunk)] on the file opened at [l]. *)
Definition file_write (l : loc) (chunk : list byte) : M unit :=
  fault (OpWrite l) ;;
  s <- get_state ;;
  match get s l with
  | Some (File d _) =>
      match put false s l (File (d ++ chunk)%list (now E)) with
      | Some s' => set_state s'
      | None => raise (Exception "OSError")
      end
  | _ => raise (Exception "OSError")
  end.

(** [shutil.copy2(src, dst)] *)
Definition copy2 (src dst : loc) : M unit :=
  fault (OpCopy2 src dst) ;;
  s <- get_state ;;
  match get s src with
  | Some (File d m) =>
      let target :=
        match get s dst with
        | Some (Dir _) => loc_child dst (basename src)
        | _ => dst
        end in
      if loc_eqb src target then raise (Exception "SameFileError")
      else
        match get s target with
        | Some (Dir _) => raise (Exception "IsADirectoryError")
        | _ =>
            match put false s target (File d m) with
            | Some s' => set_state s'
            | None => raise (Exception "FileNotFoundError")
            end
        end
  | Some (Dir _) => raise (Exception "IsADirectoryError")
  | None => raise (Exception "FileNotFoundError")
  end.

(** [shutil.copytree(src, dst, dirs_exist_ok=...)].  The tree at [src] is
    read as it is when the call starts (the library reads it while it
    writes, which differs only when one of the two lies inside the
    other). *)
Definition copytree (src dst : loc) (dirs_exist_ok : bool) : M unit :=
  fault (OpCopytree src dst) ;;
  s <- get_state ;;
  match get s src with
  | Some (Dir es) =>
      let merge (ds : list (string * node)) : M unit :=
        let '(ds', errors) := copytree_node dirs_exist_ok (Dir es) ds in
        match put true s dst (Dir ds') with
        | Some s' =>
            set_state s' ;;
            match errors with
            | [] => ret tt
            | _ :: _ => raise (Exception "shutil.Error")
            end
        | None => raise (Exception "NotADirectoryError")
        end in
      match get s dst with
      | Some (File _ _) => raise (Exception "FileExistsError")
      | Some (Dir ds) =>
          if dirs_exist_ok then merge ds
          else raise (Exception "FileExistsError")
      | None => merge []
      end
  | Some (File _ _) => raise (Exception "NotADirectoryError")
  | None => raise (Exception "FileNotFoundError")
  end.

(** [shutil.rmtree(l)] *)
Definition rmtree (l : loc) : M unit :=
  fault (OpRmtree l) ;;
  s <- get_state ;;
  match get s l with
  | Some (Dir _) =>
      match del s l with
      | Some s' => set_state s'
      | None => raise (Exception "FileNotFoundError")
      end
  | Some (File _ _) => raise (Exception "NotADirectoryError")
  | None => raise (Exception "FileNotFoundError")
  end.

(** [with zipfile.ZipFile(archive, 'r') as z: z.extractall(target)] *)
Definition extractall (archive target : loc) : M unit :=
  fault (OpExtract archive) ;;
  s <- get_state ;;
  match get s archive with
  | Some (File data _) =>
      members <- lift (unzip E data) ;;
      let merge (ds : list (string * node)) : M unit :=
        let '(ds', error) := extract_node (Dir members) ds in
        match put true s target (Dir ds') with
        | Some s' =>
            set_state s' ;;
            match error with
            | None => ret tt
            | Some e => raise (Exception e)
            end
        | None => raise (Exception "NotADirectoryError")
        end in
      match get s target with
      | Some (File _ _) => raise (Exception "FileExistsError")
      | Some (Dir ds) => merge ds
      | None => merge []
      end
  | Some (Dir _) => raise (Exception "IsADirectoryError")
  | None => raise (Exception "FileNotFoundError")
  end.

(** [os.chdir(l)] *)
Definition chdir (l : loc) : M unit :=
  fault (OpChdir l) ;;
  s <- get_state ;;
  match get s l with
  | Some (Dir _) => ret tt
  | Some (File _ _) => raise (Exception "NotADirectoryError")
  | None => raise (Exception "FileNotFoundError")
  end.

End Calls.

(** ** The installer *)

Definition repo_owner : string := "yourusername".
Definition repo_name : string := "alex-personal-hub".
Definition github_url : string :=
  "https://api.github.com/repos/" ++ repo_owner ++ "/" ++ repo_name.

Definition install_dir : loc := At InstallDir [].
Definition temp_dir : loc := At TempDir [].

(** [choice.strip().upper()] on ASCII text: the blanks of [str.strip]
    below 128 and the letters [a] to [z].  ([str.strip] also strips the
    white space beyond ASCII, and beyond ASCII [str.upper] changes more
    letters, none of them into [Y].) *)
Definition is_space (c : ascii) : bool :=
  let n := nat_of_ascii c in
  ((9 <=? n) && (n <=? 13) || (28 <=? n) && (n <=? 32))%nat.

Fixpoint drop_spaces (l : list ascii) : list ascii :=
  match l with
  | c :: l' => if is_space c then drop_spaces l' else l
  | [] => []
  end.

Definition py_strip (s : string) : string :=
  string_of_list_ascii
    (rev (drop_spaces (rev (drop_spaces (list_ascii_of_string s))))).

Definition upper_ascii (c : ascii) : ascii :=
  let n := nat_of_ascii c in
  if ((97 <=? n) && (n <=? 122))%nat then ascii_of_nat (n - 32) else c.

Definition py_upper (s : string) : string :=
  string_of_list_ascii (map upper_ascii (list_ascii_of_string s)).

Section Installer.

Variable E : env.

Definition print_banner : M unit := print Banner.

(** Lines 63-77. *)
Definition check_internet : M bool :=
  print Step1 ;;
  returned <-
    try_bare
      (response <- requests_get E "https://api.github.com" ;;
       if status_code response =? 200
       then print InternetOk ;; ret (Some true)
       else ret None)
      (ret None) ;;
  match returned with
  | Some b => ret b
  | None => print NoInternet ;; print PleaseConnect ;; ret false
  end.

(** Lines 79-90. *)
Definition create_install_directory : M bool :=
  print Step2 ;;
  try_except
    (mkdir E InstallDir ;;
     mkdir E TempDir ;;
     print InstallDirReady ;;
     ret true)
    (fun e => print (MkdirFailed e) ;; ret false).

(** [for chunk in response.iter_content(...): if chunk: f.write(chunk)]
    (the progress bar only draws). *)
Definition write_chunks (destination : loc) (r : response) : M unit :=
  for_each (body_chunks r)
    (fun chunk =>
       match chunk with
       | [] => ret tt
       | _ :: _ => file_write E destination chunk
       end) ;;
  match body_error r with
  | Some e => raise e
  | None => ret tt
  end.

(** Lines 95-108, the body of the [try]. *)
Definition download_file_try (url : string) (destination : loc) : M bool :=
  response <- requests_get E url ;;
  raise_for_status response ;;
  total_size <- int_content_length response ;;
  open_wb E destination ;;
  write_chunks destination response ;;
  ret true.

(** Lines 92-111. *)
Definition download_file (url : string) (destination : loc)
  (filename : string) : M bool :=
  try_except
    (download_file_try url destination)
    (fun e => print (DownloadFailed filename e) ;; ret false).

Definition manifest_url : string := github_url ++ "/contents/manifest.json".

(** Lines 113-138.  [Some b] is a [return b] inside the [try]
    statement, [None] leaves it by its end. *)
Definition download_manifest : M bool :=
  print Step3 ;;
  returned <-
    try_except
      (response <- requests_get E manifest_url ;;
       if status_code response =? 200 then
         j <- lift (json_body response) ;;
         s <- get_state ;; set_state (with_manifest s j) ;;
         s <- get_state ;;
         wrapped <- lift (py_contains "content" (manifest s)) ;;
         (if wrapped : bool then
            s <- get_state ;;
            c <- lift (py_getitem (manifest s) "content") ;;
            content <- match c with
                       | JStr text => lift (b64decode_text E text)
                       | _ => raise (Exception "TypeError")
                       end ;;
            j' <- lift (json_loads E content) ;;
            s <- get_state ;; set_state (with_manifest s j')
          else ret tt) ;;
         s <- get_state ;;
         files <- lift (py_get (manifest s) "files" (JObj [])) ;;
         n <- lift (py_len files) ;;
         print (FoundFiles n) ;;
         ret (Some true)
       else ret None)
      (fun e =>
         print (ManifestWarning e) ;;
         print UsingDefaultList ;;
         ret (Some true)) ;;
  match returned with
  | Some b => ret b
  | None => ret false
  end.

Definition raw_url (filename : string) : string :=
  "https://raw.githubusercontent.com/" ++ repo_owner ++ "/" ++ repo_name
    ++ "/main/" ++ filename.

(** Lines 153-163, one turn of the loop. *)
Definition download_app_file (item : string * json) (successful : nat)
  : M nat :=
  let '(filename, file_info) := item in
  let download_url := raw_url filename in
  let destination := temp_child filename in
  ok <- download_file download_url destination filename ;;
  if ok : bool then
    size <- getsize E destination ;;
    declared <- lift (py_get file_info "size" (JNum 0)) ;;
    if py_eq_int size declared then ret (S successful)
    else print (SizeMismatch filename) ;; ret successful
  else ret successful.

(** Lines 140-166. *)
Definition download_app_files : M bool :=
  print Step4Files ;;
  s <- get_state ;;
  files <- lift (py_get (manifest s) "files" (JObj [])) ;;
  total_files <- lift (py_len files) ;;
  if (total_files =? 0)%nat then
    print NoFilesToDownload ;; ret false
  else
    print (DownloadingFiles total_files) ;;
    s <- get_state ;;
    files <- lift (py_get (manifest s) "files" (JObj [])) ;;
    items <- lift (py_items files) ;;
    successful <- for_fold items download_app_file 0%nat ;;
    print (DownloadedFiles successful total_files) ;;
    ret (0 <? successful)%nat.

Definition zip_url : string :=
  "https://github.com/" ++ repo_owner ++ "/" ++ repo_name ++ "/archive/main.zip".
Definition zip_path : loc := loc_child temp_dir "app.zip".
Definition extracted_dir : loc := loc_child temp_dir (repo_name ++ "-main").

(** Lines 188-192, one turn of the loop over [extracted_dir.iterdir()]. *)
Definition flatten_item (name : string) : M unit :=
  let item := loc_child extracted_dir name in
  f <- is_file item ;;
  if f : bool then copy2 E item (loc_child temp_dir name)
  else
    d <- is_dir item ;;
    if d : bool then copytree E item (loc_child temp_dir name) true
    else ret tt.

(** Lines 182-195, the body of the [try]. *)
Definition extract_try : M bool :=
  extractall E zip_path temp_dir ;;
  there <- exists_ extracted_dir ;;
  (if there : bool then
     names <- iterdir extracted_dir ;;
     for_each names flatten_item
   else ret tt) ;;
  print FilesExtracted ;;
  ret true.

(** Lines 168-198. *)
Definition download_zip_alternative : M bool :=
  print Step4Zip ;;
  ok <- download_file zip_url zip_path "Application Package" ;;
  if negb ok then ret false
  else
    print Step5 ;;
    try_except extract_try (fun e => print (ExtractFailed e) ;; ret false).

(** Lines 200-231. *)
Definition install_dependencies : M bool :=
  print Step6 ;;
  let requirements_file := loc_child temp_dir "requirements.txt" in
  there <- exists_ requirements_file ;;
  if there : bool then
    try_except
      (print InstallingRequirements ;;
       lift (check_call E PipUpgradePip) ;;
       lift (check_call E PipInstallRequirements) ;;
       print DependenciesInstalled ;;
       ret true)
      (fun e => print (DependenciesFailed e) ;; print InstallManually ;; ret false)
  else
    try_bare
      (lift (check_call E PipInstallPyQt6) ;;
       print PyQtInstalled ;;
       ret true)
      (print SkippingDependencies ;; ret false).

(** Lines 240-246, one turn of the loop over [self.temp_dir.iterdir()]. *)
Definition copy_item (name : string) : M unit :=
  let item := loc_child temp_dir name in
  f <- is_file item ;;
  if f : bool then copy2 E item (loc_child install_dir name)
  else
    d <- is_dir item ;;
    if (d : bool) && negb (String.eqb name "__pycache__") then
      let dest := loc_child install_dir name in
      there <- exists_ dest ;;
      (if there : bool then rmtree E dest else ret tt) ;;
      copytree E item dest false
    else ret tt.

(** Lines 233-252. *)
Definition copy_files_to_install_dir : M bool :=
  print Step7 ;;
  try_except
    (names <- iterdir temp_dir ;;
     for_each names copy_item ;;
     print FilesInstalled ;;
     ret true)
    (fun e => print (CopyFailed e) ;; ret false).

(** Lines 273-301. *)
Definition create_windows_shortcut : M unit :=
  lift (win32_shortcut E) ;;
  let launcher := loc_child install_dir "launch.bat" in
  open_wb E launcher ;;
  file_write E launcher (launcher_text E) ;;
  lift (win32_save E).

(** Lines 303-330 and 332-345: both write below the home directory,
    outside the two trees. *)
Definition create_mac_shortcut : M unit := lift (mac_shortcut E).
Definition create_linux_shortcut : M unit := lift (linux_shortcut E).

(** Lines 254-271. *)
Definition create_desktop_shortcut : M unit :=
  print Step8 ;;
  let system := platform_system E in
  try_except
    ((if String.eqb system "Windows" then create_windows_shortcut
      else if String.eqb system "Darwin" then create_mac_shortcut
      else if String.eqb system "Linux" then create_linux_shortcut
      else ret tt) ;;
     print ShortcutsCreated)
    (fun e => print (ShortcutsFailed e)).

(** Lines 347-353. *)
Definition cleanup : M unit :=
  try_bare
    (there <- exists_ temp_dir ;;
     if there : bool then rmtree E temp_dir else ret tt)
    (ret tt).

(** Lines 377-405: what follows the download step. *)
Definition run_finish : M bool :=
  install_dependencies ;;
  ok <- copy_files_to_install_dir ;;
  if negb ok then ret false
  else
    create_desktop_shortcut ;;
    print CompleteRule ;;
    print CompleteTitle ;;
    print InstalledTo ;;
    print InstalledPath ;;
    print ToStart ;;
    print HintShortcut ;;
    print HintCommand ;;
    print LaunchPrompt ;;
    line <- lift (stdin_line E) ;;
    let choice := py_upper (py_strip line) in
    (if String.eqb choice "Y" then
       print Launching ;;
       chdir E install_dir ;;
       lift (os_system E)
     else ret tt) ;;
    ret true.

(** Lines 360-405, the body of the [try]. *)
Definition run_try : M bool :=
  ok <- check_internet ;;
  if negb ok then ret false
  else
    ok <- create_install_directory ;;
    if negb ok then ret false
    else
      download_manifest ;;
      ok <- download_zip_alternative ;;
      if negb ok then
        print TryingIndividual ;;
        ok <- download_app_files ;;
        if negb ok then ret false
        else run_finish
      else run_finish.

(** Lines 359-414: the [try] statement without its [finally]. *)
Definition run_guarded : M bool :=
  try_interrupt run_try
    (print Cancelled ;; ret false)
    (fun e => print (InstallationFailed e) ;; print Traceback ;; ret false).

(** Lines 355-416. *)
Definition run : M bool :=
  print_banner ;;
  finally run_guarded cleanup.

(** Lines 360-369 on their own: the steps before the download, [False]
    when one of them makes [run] return. *)
Definition run_preflight : M bool :=
  ok <- check_internet ;;
  if negb ok then ret false
  else
    ok <- create_install_directory ;;
    if negb ok then ret false
    else download_manifest ;; ret true.

End Installer.

(** ** Vocabulary of the properties *)

(** An environment in which no call is cut short by an interrupt. *)
Definition quiet (E : env) : Prop :=
  (forall url, http_get E url <> Raise KeyboardInterrupt) /\
  (forall url r, http_get E url = Ok r ->
                 body_error r <> Some KeyboardInterrupt) /\
  (forall op, fs_fault E op <> Some KeyboardInterrupt).

(** A computation that never ends in [KeyboardInterrupt]. *)
Definition calm {A : Type} (m : M A) : Prop :=
  forall s s', m s <> (Raise KeyboardInterrupt, s').

(** The turn of the fallback loop for [item], started in [s], counts the
    file: [download_file] returns [True] and the size of what it wrote
    equals the size the manifest declares. *)
Definition counted (E : env) (s : state) (item : string * json) : Prop :=
  exists s1 size declared,
    download_file E (raw_url (fst item)) (temp_child (fst item)) (fst item) s
    = (Ok true, s1) /\
    getsize E (temp_child (fst item)) s1 = (Ok size, s1) /\
    py_get (snd item) "size" (JNum 0) = Ok declared /\
    py_eq_int size declared = true.

(** The number of bytes in the body of the answer [r]. *)
Definition served_size (r : response) : Z :=
  Z.of_nat (List.length (List.concat (body_chunks r))).

(** The byte length the manifest declares for a file: the number under
    [size] in the file's metadata, 0 when the metadata has no [size]
    (in Python [True] and [False] are the numbers 1 and 0); a [size]
    that is no number declares no length. *)
Definition declared_size (file_info : json) : option Z :=
  match file_info with
  | JObj kvs =>
      match assoc "size" kvs with
      | Some (JNum n) => Some n
      | Some (JBool b) => Some (if b then 1 else 0)
      | Some _ => None
      | None => Some 0
      end
  | _ => None
  end.

(** The file of [item] is fetched in [s] at its declared size:
    [download_file] returns [True] for it, and the body the server
    answers with has exactly as many bytes as the manifest declares. *)
Definition fetched_at_declared_size (E : env) (s : state)
  (item : string * json) : Prop :=
  exists s1 r,
    download_file E (raw_url (fst item)) (temp_child (fst item)) (fst item) s
    = (Ok true, s1) /\
    http_get E (raw_url (fst item)) = Ok r /\
    declared_size (snd item) = Some (served_size r).

(** The state in which the fallback loop starts when the manifest lists
    [n] files, and the state it has reached after the turns for [before]. *)
Definition loop_start (n : nat) (s : state) : state :=
  say (DownloadingFiles n) (say Step4Files s).

Definition after_turns (E : env) (before : list (string * json)) (s : state)
  : state :=
  snd (for_fold before (download_app_file E) 0%nat s).

(** A property of the state that a computation cannot break, however it
    ends. *)
Definition preserves {A : Type} (P : state -> Prop) (m : M A) : Prop :=
  forall s r s', P s -> m s = (r, s') -> P s'.

(** A property of the state that does not look at the file system. *)
Definition fs_blind (P : state -> Prop) : Prop :=
  forall s s', manifest s' = manifest s -> console s' = console s ->
               P s -> P s'.

(** The staging directory is there. *)
Definition staging_exists (s : state) : bool :=
  match fs_temp s with Some (Dir _) => true | _ => false end.

(** Since the console read [base], only messages satisfying [Q] were
    printed. *)
Definition emitted (base : list msg) (Q : msg -> Prop) (s : state) : Prop :=
  exists out, console s = (base ++ out)%list /\ Forall Q out.

(** Every directory of the tree lists each name once, as directories
    do. *)
Fixpoint unique_names (n : node) : bool :=
  match n with
  | File _ _ => true
  | Dir es =>
      (fix go (es : list (string * node)) : bool :=
         match es with
         | [] => true
         | (k, c) :: es' => negb (has_key k es') && unique_names c && go es'
         end) es
  end.

(** The entry [name] of the install directory. *)
Definition install_entry (s : state) (name : string) : option node :=
  get s (loc_child install_dir name).

(** What the copy step makes of the install entry [name], which was
    [before], when the staging directory holds [n] under that name: a file
    is there with its bytes and metadata (inside the directory of that
    name when there was one); a directory is there exactly as it is in
    staging, except [__pycache__], whose entry is as before. *)
Definition installs (name : string) (n : node) (before after : option node)
  : Prop :=
  match n with
  | File d m =>
      match before with
      | Some (Dir sub) => after = Some (Dir (set_entry name (File d m) sub))
      | _ => after = Some (File d m)
      end
  | Dir es =>
      if String.eqb name "__pycache__" then after = before
      else after = Some (Dir es)
  end.


(** The install entry [before] does not stand in the way of the staging
    entry [n] of the same name: a file is not sent into a directory that
    has a directory of that name, and a directory (other than the skipped
    [__pycache__]) does not meet a file. *)
Definition accepts (name : string) (n : node) (before : option node) : bool :=
  match n with
  | File _ _ =>
      match before with
      | Some (Dir sub) =>
          match assoc name sub with Some (Dir _) => false | _ => true end
      | _ => true
      end
  | Dir _ =>
      if String.eqb name "__pycache__" then true
      else match before with Some (File _ _) => false | _ => true end
  end.

(** ** Scenarios *)

Definition no_body : result json := Raise (Exception "JSONDecodeError").

(** An environment given by its network and its failing system calls;
    archives hold [members]; everything else goes well, on Linux, and the
    user declines the launch. *)
Definition scenario (net : string -> result response)
  (faults : fs_op -> option exc)
  (archive : list byte -> result (list (string * node))) : env :=
  mkEnv net
        (fun _ => Raise (Exception "binascii.Error"))
        (fun _ => Raise (Exception "JSONDecodeError"))
        faults archive 100 4096
        (fun _ => Ok tt) "Linux" (Ok tt) (Ok tt) [] (Ok tt) (Ok tt)
        (Ok "n") (Ok tt).

Definition no_faults : fs_op -> option exc := fun _ => None.
Definition no_archive : list byte -> result (list (string * node)) :=
  fun _ => Raise (Exception "BadZipFile").

(** Nothing answers. *)
Definition offline : env :=
  scenario (fun _ => Raise (Exception "ConnectionError")) no_faults no_archive.

(** The archive arrives but is not a ZIP file. *)
Definition corrupt_archive : env :=
  scenario (fun url =>
              if String.eqb url zip_url
              then Ok (mkResponse 200 (IntHeader 2) no_body [[x50; x4b]] None)
              else Raise (Exception "ConnectionError"))
           no_faults no_archive.

(** A machine on which the installer has never run, and one on which both
    directories are there and empty. *)
Definition fresh : state := mkState None None [] default_manifest [].
Definition prepared : state :=
  mkState (Some (Dir [])) (Some (Dir [])) [] default_manifest [].

(** Only the first file of the built-in manifest is served, empty. *)
Definition one_empty_file : env :=
  scenario (fun url =>
              if String.eqb url (raw_url "main_app.py")
              then Ok (mkResponse 200 (IntHeader 0) no_body [] None)
              else Raise (Exception "ConnectionError"))
           no_faults no_archive.

Definition default_files : list (string * json) :=
  [ ("main_app.py", JObj [("size", JNum 0); ("hash", JStr "")]);
    ("requirements.txt", JObj [("size", JNum 0); ("hash", JStr "")]);
    ("media_config.json", JObj [("size", JNum 0); ("hash", JStr "")]) ].

(** Only the first file of the built-in manifest is served, with two
    bytes where the manifest declares none. *)
Definition one_longer_file : env :=
  scenario (fun url =>
              if String.eqb url (raw_url "main_app.py")
              then Ok (mkResponse 200 (IntHeader 2) no_body [[x68; x69]] None)
              else Raise (Exception "ConnectionError"))
           no_faults no_archive.

(** GitHub answers the connectivity probe and nothing else. *)
Definition probe_only (url : string) : result response :=
  if String.eqb url "https://api.github.com"
  then Ok (mkResponse 200 NoHeader no_body [] None)
  else Raise (Exception "ConnectionError").

(** The same network, on a machine where the staging directory cannot be
    deleted. *)
Definition undeletable_staging : env :=
  scenario probe_only
           (fun op => match op with
                      | OpRmtree (At TempDir []) => Some (Exception "PermissionError")
                      | _ => None
                      end)
           no_archive.

(** GitHub answers the probe only, and nothing else goes wrong. *)
Definition probe_answers : env := scenario probe_only no_faults no_archive.

(** The manifest endpoint answers with an envelope whose [content]
    decodes to the text [nope], which is not JSON; the archive is not
    served; the first file of the built-in manifest is, empty as the
    built-in manifest declares it. *)
Definition envelope : json := JObj [("content", JStr "bm9wZQ==")].

Definition unparsable_content : env :=
  mkEnv (fun url =>
           if String.eqb url "https://api.github.com"
           then Ok (mkResponse 200 NoHeader no_body [] None)
           else if String.eqb url manifest_url
           then Ok (mkResponse 200 NoHeader (Ok envelope) [] None)
           else if String.eqb url (raw_url "main_app.py")
           then Ok (mkResponse 200 (IntHeader 0) no_body [] None)
           else Raise (Exception "ConnectionError"))
        (fun text => if String.eqb text "bm9wZQ==" then Ok "nope"
                     else Raise (Exception "binascii.Error"))
        (fun _ => Raise (Exception "JSONDecodeError"))
        no_faults no_archive 100 4096
        (fun _ => Ok tt) "Linux" (Ok tt) (Ok tt) [] (Ok tt) (Ok tt)
        (Ok "n") (Ok tt).

(** The archive is served and holds the project folder with one file and
    one directory. *)
Definition project_tree : list (string * node) :=
  [ ("main_app.py", File [x61] 7);
    ("ui", Dir [("window.py", File [x62] 8)]) ].

Definition archive_served : env :=
  scenario (fun url =>
              if String.eqb url "https://api.github.com"
              then Ok (mkResponse 200 NoHeader no_body [] None)
              else if String.eqb url zip_url
              then Ok (mkResponse 200 (IntHeader 2) no_body [[x50; x4b]] None)
              else Raise (Exception "ConnectionError"))
           no_faults
           (fun _ => Ok [("alex-personal-hub-main", Dir project_tree)]).

(** A staging directory that already holds a directory [ui]. *)
Definition stale_staging : state :=
  mkState (Some (Dir []))
          (Some (Dir [("ui", Dir [("old.py", File [x6f] 1);
                                 ("window.py", File [x00] 2)])]))
          [] default_manifest [].

(** The staging directory holds a file, a directory and a cache
    directory; the install directory already has a directory [ui] with a
    stale file, and a cache directory of its own. *)
Definition bundle_staged : state :=
  mkState
    (Some (Dir [ ("ui", Dir [("stale.py", File [x73] 1)]);
                 ("__pycache__", Dir [("kept.pyc", File [x6b] 2)]) ]))
    (Some (Dir [ ("main_app.py", File [x61] 7);
                 ("ui", Dir [("window.py", File [x62] 8)]);
                 ("__pycache__", Dir [("new.pyc", File [x6e] 9)]) ]))
    [] default_manifest [].

(** ** Vocabulary of the further properties *)

(** The tree below one of the two directories. *)
Definition tree_of (s : state) (r : root) : option node :=
  match r with InstallDir => fs_install s | TempDir => fs_temp s end.

(** The place [l] lies below the directory [r]. *)
Definition touches (l : loc) (r : root) : bool :=
  match l with
  | At r' _ => root_eqb r' r
  | Elsewhere _ => false
  end.

(** The install directory and the staging directory of [s'] hold what
    they hold in [s]. *)
Definition same_directories (s s' : state) : Prop :=
  fs_install s' = fs_install s /\
  fs_temp s' = fs_temp s.

(** What [mkdir(exist_ok=True)] makes of a path that is not a file. *)
Definition made (o : option node) : option node :=
  match o with
  | None => Some (Dir [])
  | other => other
  end.

Definition is_file_node (o : option node) : bool :=
  match o with Some (File _ _) => true | _ => false end.

(** [response.raise_for_status()] lets the status pass. *)
Definition status_passes (r : response) : bool :=
  negb ((400 <=? status_code r) && (status_code r <? 600)).

(** GitHub answers the probe, and the user interrupts the download of
    the archive. *)
Definition interrupted_download : env :=
  scenario (fun url =>
              if String.eqb url "https://api.github.com"
              then Ok (mkResponse 200 NoHeader no_body [] None)
              else if String.eqb url zip_url
              then Raise KeyboardInterrupt
              else Raise (Exception "ConnectionError"))
           no_faults no_archive.

(** The place [l] can be opened for writing in [s]: neither the open nor
    the writes fail for outside reasons, [l] is not a directory and the
    directory that is to hold it is there. *)
Definition writable (E : env) (s : state) (l : loc) : Prop :=
  fs_fault E (OpOpen l) = None /\
  fs_fault E (OpWrite l) = None /\
  (forall es, get s l <> Some (Dir es)) /\
  exists s0, put false s l (File [] (now E)) = Some s0.

(** The archive arrives in two pieces and the connection breaks. *)
Definition broken_stream : env :=
  scenario (fun url =>
              if String.eqb url zip_url
              then Ok (mkResponse 200 (IntHeader 9) no_body [[x50]; [x4b]]
                         (Some (Exception "ChunkedEncodingError")))
              else Raise (Exception "ConnectionError"))
           no_faults no_archive.

(** The archive endpoint answers 404. *)
Definition archive_missing : env :=
  scenario (fun url =>
              if String.eqb url zip_url
              then Ok (mkResponse 404 NoHeader no_body [[x4e]] None)
              else Raise (Exception "ConnectionError"))
           no_faults no_archive.

(** A staging directory that holds an archive from an earlier run. *)
Definition old_archive : state :=
  mkState (Some (Dir [])) (Some (Dir [("app.zip", File [x6f; x6c; x64] 5)]))
          [] default_manifest [].

(** The user answers the prompt with [line]. *)
Definition answering (line : string) : env :=
  mkEnv probe_only
        (fun _ => Raise (Exception "binascii.Error"))
        (fun _ => Raise (Exception "JSONDecodeError"))
        no_faults no_archive 100 4096
        (fun _ => Ok tt) "Linux" (Ok tt) (Ok tt) [] (Ok tt) (Ok tt)
        (Ok line) (Ok tt).

(** [pip] cannot be run at all. *)
Definition pip_fails : env :=
  mkEnv probe_only
        (fun _ => Raise (Exception "binascii.Error"))
        (fun _ => Raise (Exception "JSONDecodeError"))
        no_faults no_archive 100 4096
        (fun _ => Raise (Exception "CalledProcessError"))
        "Linux" (Ok tt) (Ok tt) [] (Ok tt) (Ok tt) (Ok "n") (Ok tt).

(** The user interrupts [pip]. *)
Definition pip_interrupted : env :=
  mkEnv probe_only
        (fun _ => Raise (Exception "binascii.Error"))
        (fun _ => Raise (Exception "JSONDecodeError"))
        no_faults no_archive 100 4096
        (fun _ => Raise KeyboardInterrupt)
        "Linux" (Ok tt) (Ok tt) [] (Ok tt) (Ok tt) (Ok "n") (Ok tt).

(** A platform the installer has no shortcut for. *)
Definition on_platform (name : string) : env :=
  mkEnv probe_only
        (fun _ => Raise (Exception "binascii.Error"))
        (fun _ => Raise (Exception "JSONDecodeError"))
        no_faults no_archive 100 4096
        (fun _ => Ok tt) name (Ok tt) (Ok tt) [x40] (Ok tt) (Ok tt)
        (Ok "n") (Ok tt).

(** The manifest endpoint answers with an envelope whose content decodes
    and parses to a manifest of one file. *)
Definition one_file_manifest : json :=
  JObj [("files", JObj [("main_app.py", JObj [("size", JNum 2)])]);
        ("version", JStr "1.0.1")].

Definition wrapped_manifest : env :=
  mkEnv (fun url =>
           if String.eqb url manifest_url
           then Ok (mkResponse 200 NoHeader
                      (Ok (JObj [("name", JStr "manifest.json");
                                 ("content", JStr "eyJmaWxlcyI6e319")]))
                      [] None)
           else Raise (Exception "ConnectionError"))
        (fun text => if String.eqb text "eyJmaWxlcyI6e319" then Ok "{...}"
                     else Raise (Exception "binascii.Error"))
        (fun text => if String.eqb text "{...}" then Ok one_file_manifest
                     else Raise (Exception "JSONDecodeError"))
        no_faults no_archive 100 4096
        (fun _ => Ok tt) "Linux" (Ok tt) (Ok tt) [] (Ok tt) (Ok tt)
        (Ok "n") (Ok tt).

(** The manifest endpoint answers with a JSON array. *)
Definition array_manifest : env :=
  scenario (fun url =>
              if String.eqb url manifest_url
              then Ok (mkResponse 200 NoHeader (Ok (JArr [JStr "main_app.py"]))
                         [] None)
              else Raise (Exception "ConnectionError"))
           no_faults no_archive.

(** A machine on which [shutil.copytree] is refused. *)
Definition copytree_refused : env :=
  scenario probe_only
           (fun op => match op with
                      | OpCopytree _ _ => Some (Exception "PermissionError")
                      | _ => None
                      end)
           no_archive.

(** By the rules of POSIX paths [self.temp_dir / filename] lies inside
    the staging directory: the name is relative and has no [".."]
    component. *)
Definition confined (filename : string) : bool :=
  negb (is_absolute filename)
  && negb (existsb (String.eqb "..")
             (filter plain_component (split_slash filename))).

(** Every file name the manifest [j] lists is confined. *)
Definition lists_confined_names (j : json) : Prop :=
  forall files items,
    py_get j "files" (JObj []) = Ok files ->
    py_items files = Ok items ->
    Forall (fun item : string * json => confined (fst item) = true) items.

(** What a state holds apart from the staging directory and the
    console. *)
Definition outside_staging (s : state)
  : option node * list (string * node) * json :=
  (fs_install s, fs_elsewhere s, manifest s).

(** The line is ASCII text: every character is below 128. *)
Definition ascii_text (line : string) : bool :=
  forallb (fun c => (nat_of_ascii c <? 128)%nat) (list_ascii_of_string line).

(** The line has a [y] or a [Y] somewhere. *)
Definition mentions_y (line : string) : bool :=
  existsb (fun c => Ascii.eqb c "y" || Ascii.eqb c "Y")
          (list_ascii_of_string line).

(** * Properties *)

(** ** Association lists and trees *)

Lemma assoc_set_entry_same (A : Type) (k : string) (v : A) l :
  assoc k (set_entry k v l) = Some v.
Proof.
  induction l as [|[k' v'] l IH]; simpl.
  - now rewrite String.eqb_refl.
  - destruct (String.eqb k k') eqn:Hk; simpl.
    + now rewrite String.eqb_refl.
    + now rewrite Hk.
Qed.

Lemma assoc_set_entry_other (A : Type) (k k' : string) (v : A) l :
  k <> k' -> assoc k' (set_entry k v l) = assoc k' l.
Proof.
  intros Hne. induction l as [|[k0 v0] l IH]; simpl.
  - destruct (String.eqb k' k) eqn:Hk; [|reflexivity].
    apply String.eqb_eq in Hk. congruence.
  - destruct (String.eqb k k0) eqn:Hk; simpl.
    + apply String.eqb_eq in Hk. subst k0.
      destruct (String.eqb k' k) eqn:Hk'; [|reflexivity].
      apply String.eqb_eq in Hk'. congruence.
    + now rewrite IH.
Qed.

Lemma assoc_del_entry_same (A : Type) (k : string) (l : list (string * A)) :
  assoc k (del_entry k l) = None.
Proof.
  induction l as [|[k' v'] l IH]; simpl; [reflexivity|].
  destruct (String.eqb k k') eqn:Hk; simpl; [assumption|].
  now rewrite Hk.
Qed.

Lemma assoc_del_entry_other (A : Type) (k k' : string) (l : list (string * A)) :
  k <> k' -> assoc k' (del_entry k l) = assoc k' l.
Proof.
  intros Hne. induction l as [|[k0 v0] l IH]; simpl; [reflexivity|].
  destruct (String.eqb k k0) eqn:Hk; simpl.
  - apply String.eqb_eq in Hk. subst k0.
    destruct (String.eqb k' k) eqn:Hk'; [|assumption].
    apply String.eqb_eq in Hk'. congruence.
  - now rewrite IH.
Qed.

Lemma lookup_store_same parents o p v n :
  store parents o p v = Some n -> lookup n p = Some v.
Proof.
  revert o n. induction p as [|x p IH]; intros o n H; simpl in *.
  - now inversion H.
  - destruct o as [[d m|es]|].
    + discriminate.
    + destruct p as [|y p'].
      * simpl in H. destruct (assoc x es); inversion H; subst; simpl;
          now rewrite assoc_set_entry_same.
      * destruct (assoc x es) as [c|] eqn:Hc.
        -- destruct (store parents (Some c) (y :: p') v) as [c'|] eqn:Hs;
             [|discriminate].
           inversion H; subst. cbn [lookup]. rewrite assoc_set_entry_same.
           exact (IH _ _ Hs).
        -- destruct parents; [|discriminate].
           destruct (store true None (y :: p') v) as [c'|] eqn:Hs;
             [|discriminate].
           inversion H; subst. cbn [lookup]. rewrite assoc_set_entry_same.
           exact (IH _ _ Hs).
    + destruct parents; [|discriminate].
      destruct (store true None p v) as [c|] eqn:Hs; [|discriminate].
      inversion H; subst. cbn [lookup assoc]. rewrite String.eqb_refl.
      exact (IH _ _ Hs).
Qed.

Lemma get_put_same parents s l v s' :
  put parents s l v = Some s' -> get s' l = Some v.
Proof.
  destruct l as [[|] p|raw]; simpl; intros H.
  - destruct (store parents (fs_install s) p v) eqn:Hs; [|discriminate].
    inversion H; subst; simpl. eapply lookup_store_same; eassumption.
  - destruct (store parents (fs_temp s) p v) eqn:Hs; [|discriminate].
    inversion H; subst; simpl. eapply lookup_store_same; eassumption.
  - inversion H; subst; simpl. apply assoc_set_entry_same.
Qed.

(** ** The connectivity check *)

(** C9.  [check_internet] always returns, and it returns [True] exactly
    when the probe request completes with status 200; any other status,
    a time-out, a network error or an interrupt gives [False]. *)
Theorem check_internet_true_iff_status_200 :
  forall (E : env) (s : state),
    exists (b : bool) (s' : state),
      check_internet E s = (Ok b, s') /\
      (b = true <->
       exists r, http_get E "https://api.github.com" = Ok r /\
                 status_code r = 200).
Proof.
  intros E s.
  unfold check_internet, try_bare, requests_get, bind, lift, print, ret.
  destruct (http_get E "https://api.github.com") as [r|e] eqn:Hget.
  - destruct (status_code r =? 200) eqn:Hst.
    + eexists _, _. split; [reflexivity|]. split; [|reflexivity].
      intros _. exists r. split; [reflexivity|]. now apply Z.eqb_eq.
    + eexists _, _. split; [reflexivity|]. split; [discriminate|].
      intros (r' & Hr' & H200). inversion Hr'; subst r'.
      apply Z.eqb_neq in Hst. contradiction.
  - eexists _, _. split; [reflexivity|]. split; [discriminate|].
    intros (r' & Hr' & _). discriminate.
Qed.

(** ** Exceptions in the archive path *)

Lemma try_except_not_exception (A : Type) (body : M A) handler :
  (forall e s s' name, handler e s <> (Raise (Exception name), s')) ->
  forall s s' name, try_except body handler s <> (Raise (Exception name), s').
Proof.
  intros Hh s s' name. unfold try_except.
  destruct (body s) as [[a|[e|]] s1] eqn:Hb; try discriminate.
  apply Hh.
Qed.

Lemma download_file_not_exception E url destination filename s s' name :
  download_file E url destination filename s <> (Raise (Exception name), s').
Proof.
  unfold download_file. apply try_except_not_exception.
  intros e s0 s1 n. unfold bind, print, ret. discriminate.
Qed.

Lemma download_zip_alternative_not_exception E s s' name :
  download_zip_alternative E s <> (Raise (Exception name), s').
Proof.
  unfold download_zip_alternative, bind at 1, print at 1.
  unfold bind at 1.
  destruct (download_file E zip_url zip_path "Application Package" (say Step4Zip s))
    as [[[|]|[e|]] s1] eqn:Hd; cbn [negb].
  - unfold bind at 1, print at 1. apply try_except_not_exception.
    intros e s0 s2 n. unfold bind, print, ret. discriminate.
  - unfold ret. discriminate.
  - exfalso. eapply download_file_not_exception; eassumption.
  - discriminate.
Qed.

(** C7.  An [Exception] raised while the archive is downloaded (anywhere
    in the [try] of [download_file]) or while it is extracted and flattened
    (anywhere in the [try] of [download_zip_alternative]) ends in the
    function returning [False] after printing the failure, and neither
    function ever lets an [Exception] out. *)
Theorem archive_exceptions_become_false :
  forall (E : env),
    (forall url destination filename s e s1,
        download_file_try E url destination s = (Raise (Exception e), s1) ->
        download_file E url destination filename s
        = (Ok false, say (DownloadFailed filename e) s1)) /\
    (forall s s1,
        download_file E zip_url zip_path "Application Package" (say Step4Zip s)
        = (Ok false, s1) ->
        download_zip_alternative E s = (Ok false, s1)) /\
    (forall s e s1 s2,
        download_file E zip_url zip_path "Application Package" (say Step4Zip s)
        = (Ok true, s1) ->
        extract_try E (say Step5 s1) = (Raise (Exception e), s2) ->
        download_zip_alternative E s = (Ok false, say (ExtractFailed e) s2)) /\
    (forall url destination filename s s' name,
        download_file E url destination filename s
        <> (Raise (Exception name), s')) /\
    (forall s s' name,
        download_zip_alternative E s <> (Raise (Exception name), s')).
Proof.
  intros E. repeat split.
  - intros url destination filename s e s1 H.
    unfold download_file, try_except. rewrite H. reflexivity.
  - intros s s1 H.
    unfold download_zip_alternative, bind, print. rewrite H. reflexivity.
  - intros s e s1 s2 Hd Hx.
    unfold download_zip_alternative, bind, print, try_except.
    rewrite Hd. cbn [negb]. rewrite Hx. reflexivity.
  - intros. apply download_file_not_exception.
  - intros. apply download_zip_alternative_not_exception.
Qed.

Lemma archive_exceptions_become_false_witness :
  download_file offline zip_url zip_path "Application Package" prepared
  = (Ok false, say (DownloadFailed "Application Package" "ConnectionError") prepared)
  /\
  fst (download_zip_alternative corrupt_archive prepared) = Ok false.
Proof.
  split.
  - apply (proj1 (archive_exceptions_become_false offline)). reflexivity.
  - erewrite (proj1 (proj2 (proj2 (archive_exceptions_become_false corrupt_archive))))
      with (e := "BadZipFile").
    + reflexivity.
    + vm_compute. reflexivity.
    + vm_compute. reflexivity.
Defined.

(** ** Interrupts *)

Ltac unfold_monad :=
  unfold bind, ret, raise, lift, get_state, set_state, print, fault in *.

Ltac break_match :=
  match goal with
  | |- context [match ?x with _ => _ end] => destruct x eqn:?
  end.

Lemma calm_ret (A : Type) (a : A) : calm (ret a).
Proof. intros s s'. unfold ret. discriminate. Qed.

Lemma calm_print m : calm (print m).
Proof. intros s s'. unfold print. discriminate. Qed.

Lemma calm_raise (A : Type) name : calm (@raise A (Exception name)).
Proof. intros s s'. unfold raise. discriminate. Qed.

Lemma calm_lift (A : Type) (r : result A) :
  r <> Raise KeyboardInterrupt -> calm (lift r).
Proof. intros H s s'. unfold lift. congruence. Qed.

Lemma calm_bind (A B : Type) (m : M A) (k : A -> M B) :
  calm m -> (forall a, calm (k a)) -> calm (bind m k).
Proof.
  intros Hm Hk s s'. unfold bind.
  destruct (m s) as [[a|e] s1] eqn:Hms.
  - apply Hk.
  - intros H. inversion H; subst. eapply Hm; eassumption.
Qed.

Lemma calm_try_except (A : Type) (body : M A) handler :
  calm body -> (forall e, calm (handler e)) -> calm (try_except body handler).
Proof.
  intros Hb Hh s s'. unfold try_except.
  destruct (body s) as [[a|[e|]] s1] eqn:Hbs.
  - discriminate.
  - apply Hh.
  - exfalso. eapply Hb; eassumption.
Qed.

Lemma calm_for_each (A : Type) (l : list A) (body : A -> M unit) :
  (forall x, calm (body x)) -> calm (for_each l body).
Proof.
  intros Hb. induction l as [|x l IH]; simpl.
  - apply calm_ret.
  - apply calm_bind; [apply Hb|]. intros _. exact IH.
Qed.

Lemma calm_fault E op : quiet E -> calm (fault E op).
Proof.
  intros (_ & _ & Hf) s s'. unfold fault.
  destruct (fs_fault E op) as [e|] eqn:He.
  - unfold raise. intros H. inversion H; subst. eapply Hf; eassumption.
  - unfold ret. discriminate.
Qed.

Lemma calm_open_wb E l : quiet E -> calm (open_wb E l).
Proof.
  intros Hq. unfold open_wb.
  apply calm_bind; [now apply calm_fault|]. intros _.
  intros s s'. unfold_monad. repeat break_match; discriminate.
Qed.

Lemma calm_file_write E l chunk : quiet E -> calm (file_write E l chunk).
Proof.
  intros Hq. unfold file_write.
  apply calm_bind; [now apply calm_fault|]. intros _.
  intros s s'. unfold_monad. repeat break_match; discriminate.
Qed.

Lemma calm_download_file_try E url destination :
  quiet E -> calm (download_file_try E url destination).
Proof.
  intros Hq. pose proof Hq as (Hnet & Hbody & _).
  unfold download_file_try.
  intros s s'. unfold bind at 1. unfold requests_get at 1, lift at 1.
  destruct (http_get E url) as [r|e] eqn:Hget.
  2:{ intros H. inversion H; subst. eapply Hnet; eassumption. }
  revert s s'.
  change (calm (raise_for_status r ;;
                total_size <- int_content_length r ;;
                open_wb E destination ;;
                write_chunks E destination r ;;
                ret true)).
  apply calm_bind.
  { unfold raise_for_status. break_match; [apply calm_raise|apply calm_ret]. }
  intros _. apply calm_bind.
  { unfold int_content_length. break_match;
      [apply calm_ret|apply calm_ret|apply calm_raise]. }
  intros _. apply calm_bind; [now apply calm_open_wb|].
  intros _. apply calm_bind; [|intros _; apply calm_ret].
  unfold write_chunks. apply calm_bind.
  { apply calm_for_each. intros [|b chunk];
      [apply calm_ret|now apply calm_file_write]. }
  intros _. destruct (body_error r) as [e|] eqn:He; [|apply calm_ret].
  destruct e; [apply calm_raise|].
  exfalso. eapply Hbody; eassumption.
Qed.

Lemma calm_download_file E url destination filename :
  quiet E -> calm (download_file E url destination filename).
Proof.
  intros Hq. unfold download_file. apply calm_try_except.
  - now apply calm_download_file_try.
  - intros e. apply calm_bind; [apply calm_print|]. intros _. apply calm_ret.
Qed.

(** ** What a successful download leaves *)

Lemma bind_ok_inv (A B : Type) (m : M A) (k : A -> M B) s b s' :
  bind m k s = (Ok b, s') ->
  exists a s1, m s = (Ok a, s1) /\ k a s1 = (Ok b, s').
Proof.
  unfold bind. destruct (m s) as [[a|e] s1]; [|discriminate].
  intros H. now exists a, s1.
Qed.

Lemma fault_ok_inv E op s u s' :
  fault E op s = (Ok u, s') -> s' = s.
Proof.
  unfold fault. destruct (fs_fault E op); unfold raise, ret; congruence.
Qed.

Lemma open_wb_ok E l s s' :
  open_wb E l s = (Ok tt, s') ->
  put false s l (File [] (now E)) = Some s'.
Proof.
  unfold open_wb. intros H.
  apply bind_ok_inv in H as (u & s1 & Hf & H).
  apply fault_ok_inv in Hf. subst s1. unfold_monad.
  destruct (get s l) as [[d m|es]|];
    destruct (put false s l (File [] (now E))); congruence.
Qed.

Lemma file_write_ok E l chunk s s' :
  file_write E l chunk s = (Ok tt, s') ->
  exists d m, get s l = Some (File d m) /\
              put false s l (File (d ++ chunk) (now E)) = Some s'.
Proof.
  unfold file_write. intros H.
  apply bind_ok_inv in H as (u & s1 & Hf & H).
  apply fault_ok_inv in Hf. subst s1. unfold_monad.
  destruct (get s l) as [[d m|es]|]; try discriminate.
  exists d, m. split; [reflexivity|].
  destruct (put false s l (File (d ++ chunk) (now E))); congruence.
Qed.

Lemma write_loop_data E l chunks :
  forall s s' d m,
    get s l = Some (File d m) ->
    for_each chunks
      (fun chunk => match chunk with
                    | [] => ret tt
                    | _ :: _ => file_write E l chunk
                    end) s = (Ok tt, s') ->
    exists m', get s' l = Some (File (d ++ List.concat chunks) m').
Proof.
  induction chunks as [|chunk chunks IH]; intros s s' d m Hget H; simpl in H.
  - unfold ret in H. inversion H; subst. exists m. simpl.
    now rewrite app_nil_r.
  - apply bind_ok_inv in H as ([] & s1 & Hw & H).
    destruct chunk as [|b chunk].
    + unfold ret in Hw. inversion Hw; subst s1.
      simpl. eapply IH; eassumption.
    + apply file_write_ok in Hw as (d0 & m0 & Hget0 & Hput).
      rewrite Hget in Hget0. inversion Hget0; subst d0 m0.
      apply get_put_same in Hput.
      destruct (IH _ _ _ _ Hput H) as (m' & Hm').
      exists m'. rewrite Hm'. simpl. now rewrite <- app_assoc.
Qed.

Lemma download_file_try_true E url destination s s1 :
  download_file_try E url destination s = (Ok true, s1) ->
  exists r m, http_get E url = Ok r /\
              get s1 destination = Some (File (List.concat (body_chunks r)) m).
Proof.
  unfold download_file_try. intros H.
  apply bind_ok_inv in H as (r & s0 & Hget & H).
  unfold requests_get, lift in Hget.
  assert (http_get E url = Ok r /\ s0 = s) as [Hr ->] by (split; congruence).
  apply bind_ok_inv in H as ([] & s2 & Hst & H).
  assert (s2 = s) as ->.
  { unfold raise_for_status in Hst. unfold_monad.
    destruct (_ && _); congruence. }
  apply bind_ok_inv in H as (total & s3 & Hlen & H).
  assert (s3 = s) as ->.
  { unfold int_content_length in Hlen. unfold_monad.
    destruct (content_length r); congruence. }
  apply bind_ok_inv in H as ([] & s4 & Hopen & H).
  apply open_wb_ok, get_put_same in Hopen.
  apply bind_ok_inv in H as ([] & s5 & Hw & H).
  unfold ret in H. inversion H; subst s5.
  unfold write_chunks in Hw.
  apply bind_ok_inv in Hw as ([] & s6 & Hloop & Hend).
  destruct (write_loop_data _ _ _ _ Hopen Hloop) as (m' & Hm'). simpl in Hm'.
  assert (s1 = s6) as ->.
  { destruct (body_error r); unfold_monad; congruence. }
  now exists r, m'.
Qed.

Lemma download_file_true E url destination filename s s1 :
  download_file E url destination filename s = (Ok true, s1) ->
  download_file_try E url destination s = (Ok true, s1).
Proof.
  unfold download_file, try_except.
  destruct (download_file_try E url destination s) as [[b|[e|]] s0];
    unfold_monad; congruence.
Qed.

Lemma download_file_leaves_file E url destination filename s s1 :
  download_file E url destination filename s = (Ok true, s1) ->
  exists r m, http_get E url = Ok r /\
              get s1 destination = Some (File (List.concat (body_chunks r)) m).
Proof.
  intros H. eapply download_file_try_true, download_file_true, H.
Qed.

(** ** The fallback download *)

Lemma getsize_of_file E l s d m :
  get s l = Some (File d m) -> getsize E l s = (Ok (Z.of_nat (List.length d)), s).
Proof. intros H. unfold getsize. now rewrite H. Qed.

Lemma download_app_file_turn E item c s :
  quiet E ->
  (exists kvs, snd item = JObj kvs) ->
  exists c' s',
    download_app_file E item c s = (Ok c', s') /\
    ((c' = S c /\ counted E s item) \/ (c' = c /\ ~ counted E s item)).
Proof.
  intros Hq [kvs Hinfo]. destruct item as [filename file_info].
  simpl in Hinfo. subst file_info.
  unfold download_app_file, counted. cbn [fst snd].
  unfold bind at 1.
  destruct (download_file E (raw_url filename) (temp_child filename) filename s)
    as [[[|]|[e|]] s1] eqn:Hd.
  - destruct (download_file_leaves_file _ _ _ _ _ Hd) as (r & m & _ & Hfile).
    pose proof (getsize_of_file E _ _ Hfile) as Hsize.
    unfold bind at 1. rewrite Hsize.
    unfold bind at 1, lift at 1.
    destruct (py_get (JObj kvs) "size" (JNum 0)) as [declared|e] eqn:Hdecl.
    2:{ simpl in Hdecl. destruct (assoc "size" kvs); discriminate. }
    destruct (py_eq_int (Z.of_nat (List.length (List.concat (body_chunks r)))) declared)
      eqn:Heq.
    + eexists _, _. split; [reflexivity|]. left. split; [reflexivity|].
      eexists s1, _, declared. repeat split; eassumption.
    + eexists _, _. split; [reflexivity|]. right. split; [reflexivity|].
      intros (s1' & size' & declared' & Hd' & Hsize' & Hdecl' & Heq').
      assert (s1' = s1) by congruence. subst s1'.
      assert (size' = Z.of_nat (List.length (List.concat (body_chunks r))))
        by congruence.
      assert (declared' = declared) by congruence.
      subst. congruence.
  - eexists _, _. split; [reflexivity|]. right. split; [reflexivity|].
    intros (s1' & size' & declared' & Hd' & _). congruence.
  - exfalso. eapply download_file_not_exception; eassumption.
  - exfalso. eapply calm_download_file; eassumption.
Qed.

Lemma fallback_loop E items :
  quiet E ->
  Forall (fun item => exists kvs, snd item = JObj kvs) items ->
  forall c s,
    exists c' s',
      for_fold items (download_app_file E) c s = (Ok c', s') /\
      (c <= c')%nat /\
      ((c < c')%nat <->
       exists before item after,
         items = (before ++ item :: after)%list /\
         counted E (snd (for_fold before (download_app_file E) c s)) item).
Proof.
  intros Hq Hall. induction Hall as [|item rest Hitem Hrest IH]; intros c s.
  - exists c, s. split; [reflexivity|]. split; [lia|]. split; [lia|].
    intros (before & item & after & Heq & _).
    destruct before; discriminate.
  - destruct (@download_app_file_turn E item c s Hq Hitem) as (c1 & s1 & Hturn & Hc1).
    destruct (IH c1 s1) as (c' & s' & Hloop & Hle & Hiff).
    exists c', s'. cbn [for_fold]. unfold bind at 1. rewrite Hturn.
    split; [exact Hloop|].
    split; [destruct Hc1 as [[-> _]|[-> _]]; lia|].
    split.
    + intros Hlt. destruct Hc1 as [[-> Hcount]|[-> Hnot]].
      * exists [], item, rest. split; [reflexivity|exact Hcount].
      * apply Hiff in Hlt as (before & it & after & Heq & Hcount).
        exists (item :: before), it, after. split; [now rewrite Heq|].
        cbn [for_fold]. unfold bind at 1. now rewrite Hturn.
    + intros (before & it & after & Heq & Hcount).
      destruct before as [|x before]; simpl in Heq; inversion Heq; subst.
      * simpl in Hcount. destruct Hc1 as [[-> _]|[_ Hnot]]; [lia|contradiction].
      * cbn [for_fold] in Hcount. unfold bind at 1 in Hcount.
        rewrite Hturn in Hcount.
        assert (c1 < c')%nat.
        { apply Hiff. now exists before, it, after. }
        destruct Hc1 as [[-> _]|[-> _]]; lia.
Qed.

Lemma counted_iff_fetched_at_declared_size E s item :
  (exists kvs, snd item = JObj kvs) ->
  counted E s item <-> fetched_at_declared_size E s item.
Proof.
  intros [kvs Hinfo]. destruct item as [filename file_info].
  cbn [snd] in Hinfo. subst file_info.
  unfold counted, fetched_at_declared_size. cbn [fst snd].
  split.
  - intros (s1 & size & declared & Hd & Hsize & Hdecl & Heq).
    destruct (download_file_leaves_file _ _ _ _ _ Hd) as (r & m & Hr & Hfile).
    rewrite (getsize_of_file E _ _ Hfile) in Hsize.
    assert (Hsz : size = served_size r) by (unfold served_size; congruence).
    subst size. exists s1, r. split; [exact Hd|]. split; [exact Hr|].
    unfold py_get in Hdecl. unfold declared_size.
    destruct (assoc "size" kvs) as [v|].
    + assert (declared = v) by congruence. subst declared.
      destruct v as [|b|n|t|l|o]; cbn [py_eq_int] in Heq; try discriminate;
        apply Z.eqb_eq in Heq; now rewrite Heq.
    + assert (declared = JNum 0) by congruence. subst declared.
      cbn [py_eq_int] in Heq. apply Z.eqb_eq in Heq. now rewrite Heq.
  - intros (s1 & r & Hd & Hr & Hdecl).
    destruct (download_file_leaves_file _ _ _ _ _ Hd) as (r' & m & Hr' & Hfile).
    assert (r' = r) by congruence. subst r'.
    exists s1, (served_size r),
      (match assoc "size" kvs with Some x => x | None => JNum 0 end).
    split; [exact Hd|].
    split; [exact (getsize_of_file E _ _ Hfile)|].
    split; [unfold py_get; now destruct (assoc "size" kvs)|].
    unfold declared_size in Hdecl.
    destruct (assoc "size" kvs) as [v|].
    + destruct v as [|b|n|t|l|o]; try discriminate;
        inversion Hdecl as [Hn]; cbn [py_eq_int]; apply Z.eqb_refl.
    + inversion Hdecl as [Hn]. cbn [py_eq_int]. apply Z.eqb_refl.
Qed.

(** C1.  With a well-formed manifest and no interrupt, [download_app_files]
    returns; it returns [False] when the manifest lists no file; and it
    returns [True] exactly when at least one listed file is fetched at
    its declared size: [download_file] returns [True] for it and the body
    the server answers with has exactly as many bytes as the manifest
    declares for the file. *)
Theorem fallback_succeeds_iff_a_file_counts :
  forall (E : env) (s : state) (items : list (string * json)),
    quiet E ->
    py_get (manifest s) "files" (JObj []) = Ok (JObj items) ->
    Forall (fun item => exists kvs, snd item = JObj kvs) items ->
    exists (b : bool) (s' : state),
      download_app_files E s = (Ok b, s') /\
      (items = [] -> b = false) /\
      (b = true <->
       exists before item after,
         items = (before ++ item :: after)%list /\
         fetched_at_declared_size E
           (after_turns E before (loop_start (List.length items) s)) item).
Proof.
  intros E s items Hq Hfiles Hall.
  unfold download_app_files.
  unfold bind at 1, print at 1.
  unfold bind at 1, get_state at 1.
  change (manifest (say Step4Files s)) with (manifest s).
  rewrite Hfiles. unfold bind at 1, lift at 1.
  unfold bind at 1, lift at 1. cbn [py_len].
  destruct items as [|item0 rest] eqn:Hitems.
  - cbn. eexists _, _. split; [reflexivity|]. split; [reflexivity|].
    split; [discriminate|].
    intros (before & item & after & Heq & _). destruct before; discriminate.
  - rewrite <- Hitems in *. replace (List.length items =? 0)%nat with false
      by (subst items; reflexivity).
    unfold bind at 1, print at 1.
    unfold bind at 1, get_state at 1.
    change (manifest (say (DownloadingFiles (List.length items)) (say Step4Files s)))
      with (manifest s).
    rewrite Hfiles. unfold bind at 1, lift at 1.
    unfold bind at 1, lift at 1. cbn [py_items].
    destruct (@fallback_loop E items Hq Hall 0%nat (loop_start (List.length items) s))
      as (c' & s' & Hloop & _ & Hiff).
    unfold loop_start in Hloop. unfold bind at 1. rewrite Hloop.
    unfold bind, print, ret.
    eexists _, _. split; [reflexivity|].
    split; [subst items; discriminate|].
    assert (Hdict : forall before item after,
               items = (before ++ item :: after)%list ->
               exists kvs, snd item = JObj kvs).
    { intros before item after Heq. rewrite Forall_forall in Hall.
      apply Hall. rewrite Heq. apply in_elt. }
    unfold after_turns. rewrite Nat.ltb_lt, Hiff.
    split; intros (before & item & after & Heq & Hc);
      exists before, item, after; (split; [exact Heq|]);
      apply (@counted_iff_fetched_at_declared_size E _ _ (Hdict _ _ _ Heq));
      exact Hc.
Qed.

Lemma quiet_one_empty_file : quiet one_empty_file.
Proof.
  repeat split.
  - intros url. simpl. destruct (String.eqb url (raw_url "main_app.py")); discriminate.
  - intros url r. simpl.
    destruct (String.eqb url (raw_url "main_app.py")); [|discriminate].
    intros H. inversion H; subst. simpl. discriminate.
  - intros op. simpl. discriminate.
Qed.

Lemma quiet_one_longer_file : quiet one_longer_file.
Proof.
  repeat split.
  - intros url. simpl. destruct (String.eqb url (raw_url "main_app.py")); discriminate.
  - intros url r. simpl.
    destruct (String.eqb url (raw_url "main_app.py")); [|discriminate].
    intros H. inversion H; subst. simpl. discriminate.
  - intros op. simpl. discriminate.
Qed.

Lemma fallback_succeeds_iff_a_file_counts_witness :
  (exists s', download_app_files one_empty_file prepared = (Ok true, s')) /\
  (exists s', download_app_files one_longer_file prepared = (Ok false, s')).
Proof.
  split.
  - destruct (@fallback_succeeds_iff_a_file_counts one_empty_file prepared
                default_files)
      as (b & s' & Hrun & _ & Hiff).
    + exact quiet_one_empty_file.
    + reflexivity.
    + repeat constructor; eexists; reflexivity.
    + exists s'. rewrite Hrun. f_equal. f_equal. apply Hiff.
      exists [], ("main_app.py", JObj [("size", JNum 0); ("hash", JStr "")]),
        (tl default_files).
      split; [reflexivity|].
      eexists _, (mkResponse 200 (IntHeader 0) no_body [] None).
      repeat split; vm_compute; reflexivity.
  - destruct (@fallback_succeeds_iff_a_file_counts one_longer_file prepared
                default_files)
      as (b & s' & Hrun & _ & Hiff).
    + exact quiet_one_longer_file.
    + reflexivity.
    + repeat constructor; eexists; reflexivity.
    + exists s'.
      assert (Hb : b = false).
      { clear Hrun. destruct b; [exfalso|reflexivity].
        destruct (proj1 Hiff eq_refl)
          as (before & item & after & Heq & s1 & r & _ & Hr & Hdecl).
        clear Hiff.
        destruct before as [|x0 [|x1 [|x2 before]]]; cbn in Heq;
          inversion Heq; subst;
          cbn [fst snd] in Hr, Hdecl.
        - vm_compute in Hr. inversion Hr; subst r.
          vm_compute in Hdecl. discriminate Hdecl.
        - vm_compute in Hr. discriminate Hr.
        - vm_compute in Hr. discriminate Hr.
        - destruct before; discriminate. }
      rewrite Hb in Hrun. exact Hrun.
Defined.

(** ** Invariants of computations *)

Section Preserves.

Variable P : state -> Prop.

Lemma preserves_ret (A : Type) (a : A) : preserves P (ret a).
Proof. intros s r s' HP H. unfold ret in H. now inversion H; subst. Qed.

Lemma preserves_raise (A : Type) e : preserves P (@raise A e).
Proof. intros s r s' HP H. unfold raise in H. now inversion H; subst. Qed.

Lemma preserves_lift (A : Type) (x : result A) : preserves P (lift x).
Proof. intros s r s' HP H. unfold lift in H. now inversion H; subst. Qed.

Lemma preserves_bind (A B : Type) (m : M A) (k : A -> M B) :
  preserves P m -> (forall a, preserves P (k a)) -> preserves P (bind m k).
Proof.
  intros Hm Hk s r s' HP H. unfold bind in H.
  destruct (m s) as [[a|e] s1] eqn:Hms.
  - eapply Hk; [|eassumption]. eapply Hm; eassumption.
  - inversion H; subst. eapply Hm; eassumption.
Qed.

Lemma preserves_try_except (A : Type) (body : M A) handler :
  preserves P body -> (forall e, preserves P (handler e)) ->
  preserves P (try_except body handler).
Proof.
  intros Hb Hh s r s' HP H. unfold try_except in H.
  destruct (body s) as [[a|[e|]] s1] eqn:Hbs.
  - inversion H; subst. eapply Hb; eassumption.
  - eapply Hh; [|eassumption]. eapply Hb; eassumption.
  - inversion H; subst. eapply Hb; eassumption.
Qed.

Lemma preserves_try_bare (A : Type) (body handler : M A) :
  preserves P body -> preserves P handler ->
  preserves P (try_bare body handler).
Proof.
  intros Hb Hh s r s' HP H. unfold try_bare in H.
  destruct (body s) as [[a|e] s1] eqn:Hbs.
  - inversion H; subst. eapply Hb; eassumption.
  - eapply Hh; [|eassumption]. eapply Hb; eassumption.
Qed.

Lemma preserves_for_each (A : Type) (l : list A) (body : A -> M unit) :
  (forall x, In x l -> preserves P (body x)) -> preserves P (for_each l body).
Proof.
  induction l as [|x l IH]; intros Hb; simpl.
  - apply preserves_ret.
  - apply preserves_bind; [apply Hb; now left|].
    intros _. apply IH. intros y Hy. apply Hb. now right.
Qed.

Lemma preserves_for_fold (A B : Type) (l : list A) (body : A -> B -> M B) :
  (forall x acc, In x l -> preserves P (body x acc)) ->
  forall acc, preserves P (for_fold l body acc).
Proof.
  induction l as [|x l IH]; intros Hb acc; simpl.
  - apply preserves_ret.
  - apply preserves_bind; [apply Hb; now left|].
    intros acc'. apply IH. intros y a Hy. apply Hb. now right.
Qed.

Lemma preserves_fault E op : preserves P (fault E op).
Proof.
  unfold fault. destruct (fs_fault E op);
    [apply preserves_raise|apply preserves_ret].
Qed.

Lemma preserves_reads (A : Type) (f : state -> result A) :
  preserves P (fun s => (f s, s)).
Proof. intros s r s' HP H. now inversion H; subst. Qed.

End Preserves.

Lemma preserves_exists_ P l : preserves P (exists_ l).
Proof. apply (preserves_reads P (fun s => Ok _)). Qed.

Lemma preserves_is_file P l : preserves P (is_file l).
Proof. apply (preserves_reads P (fun s => Ok _)). Qed.

Lemma preserves_is_dir P l : preserves P (is_dir l).
Proof. apply (preserves_reads P (fun s => Ok _)). Qed.

Lemma preserves_iterdir P l : preserves P (iterdir l).
Proof.
  intros s r s' HP H. unfold iterdir in H.
  destruct (get s l) as [[d m|es]|]; now inversion H; subst.
Qed.

Lemma preserves_getsize P E l : preserves P (getsize E l).
Proof.
  intros s r s' HP H. unfold getsize in H.
  destruct (get s l) as [[d m|es]|]; now inversion H; subst.
Qed.

(** ** Writing a file leaves the other files alone *)



Lemma path_eqb_eq p q : path_eqb p q = true <-> p = q.
Proof.
  revert q. induction p as [|x p IH]; intros [|y q]; simpl;
    try (split; [discriminate|congruence]); [tauto|].
  rewrite andb_true_iff, String.eqb_eq, IH. split.
  - now intros [-> ->].
  - intros H. now inversion H.
Qed.




Lemma get_say m s l : get (say m s) l = get s l.
Proof. now destruct l as [[|] p|raw]. Qed.






(** ** Cleaning up *)

Lemma cleanup_returns E s : exists s', cleanup E s = (Ok tt, s').
Proof.
  unfold cleanup, try_bare.
  destruct ((there <- exists_ temp_dir ;;
             if there : bool then rmtree E temp_dir else ret tt) s)
    as [[[]|e] s1]; eexists; reflexivity.
Qed.

Lemma cleanup_when_delete_fails E s e :
  fs_fault E (OpRmtree temp_dir) = Some e -> cleanup E s = (Ok tt, s).
Proof.
  intros Hf. unfold cleanup, try_bare, exists_, rmtree, fault, bind.
  rewrite Hf. destruct (get s temp_dir); reflexivity.
Qed.

Lemma cleanup_when_delete_works E s :
  fs_fault E (OpRmtree temp_dir) = None ->
  staging_exists (snd (cleanup E s)) = false.
Proof.
  intros Hf. unfold cleanup, try_bare, exists_, rmtree, fault, bind.
  rewrite Hf. unfold staging_exists, get_state, set_state, raise, ret.
  destruct s as [i [[d m|es]|] e j c]; reflexivity.
Qed.

Lemma run_unfold E s :
  run E s = (fst (run_guarded E (say Banner s)),
             snd (cleanup E (snd (run_guarded E (say Banner s))))).
Proof.
  unfold run, print_banner, bind at 1, print at 1, finally.
  destruct (run_guarded E (say Banner s)) as [r s1]. simpl.
  destruct (cleanup_returns E s1) as [s2 ->]. reflexivity.
Qed.

(** C10.  [cleanup] always returns normally; [run] returns what its
    [try] statement produced, whatever happens in [cleanup]; and when the
    recursive delete raises, [cleanup] leaves the state as it found it, so
    a staging directory that was there is still there after the run. *)
Theorem cleanup_swallows_errors :
  forall (E : env) (s : state),
    (exists s', cleanup E s = (Ok tt, s')) /\
    fst (run E s) = fst (run_guarded E (say Banner s)) /\
    (forall e,
        fs_fault E (OpRmtree temp_dir) = Some e ->
        cleanup E s = (Ok tt, s) /\
        (staging_exists (snd (run_guarded E (say Banner s))) = true ->
         staging_exists (snd (run E s)) = true)).
Proof.
  intros E s. split; [apply cleanup_returns|].
  split; [now rewrite run_unfold|].
  intros e Hf. split; [now apply cleanup_when_delete_fails with e|].
  intros Hthere. rewrite run_unfold. cbn [snd].
  now rewrite (cleanup_when_delete_fails _ _ Hf).
Qed.

Lemma cleanup_swallows_errors_witness :
  fst (run undeletable_staging fresh) = Ok false /\
  staging_exists (snd (run undeletable_staging fresh)) = true.
Proof.
  split.
  - rewrite (proj1 (proj2 (cleanup_swallows_errors undeletable_staging fresh))).
    vm_compute. reflexivity.
  - apply (proj2 (proj2 (cleanup_swallows_errors undeletable_staging fresh))
             (Exception "PermissionError")).
    + reflexivity.
    + vm_compute. reflexivity.
Defined.

(** C5, as the code has it.  Whatever the run does and however its [try]
    statement ends (a return, an [Exception], an interrupt), the staging
    directory is gone when [run] is over, provided the recursive delete in
    [cleanup] does not fail. *)
Theorem staging_removed_when_delete_works :
  forall (E : env) (s : state),
    fs_fault E (OpRmtree temp_dir) = None ->
    staging_exists (snd (run E s)) = false.
Proof.
  intros E s Hf. rewrite run_unfold. cbn [snd].
  now apply cleanup_when_delete_works.
Qed.

Lemma staging_removed_when_delete_works_witness :
  staging_exists prepared = true /\
  staging_exists (snd (run offline prepared)) = false.
Proof.
  split; [reflexivity|].
  apply staging_removed_when_delete_works. reflexivity.
Defined.

(** C5, as it is stated, fails: GitHub answers the probe only, so both
    download paths fail and the run returns [False]; the delete in
    [cleanup] raises [PermissionError], which is swallowed, and the staging
    directory created by the run is still there. *)
Lemma staging_survives_failed_delete :
  staging_exists fresh = false /\
  run undeletable_staging fresh
  = (Ok false,
     mkState (Some (Dir [])) (Some (Dir [])) [] default_manifest
       [Banner; Step1; InternetOk; Step2; InstallDirReady; Step3;
        ManifestWarning "ConnectionError"; UsingDefaultList; Step4Zip;
        DownloadFailed "Application Package" "ConnectionError";
        TryingIndividual; Step4Files; DownloadingFiles 3;
        DownloadFailed "main_app.py" "ConnectionError";
        DownloadFailed "requirements.txt" "ConnectionError";
        DownloadFailed "media_config.json" "ConnectionError";
        DownloadedFiles 0 3]) /\
  staging_exists (snd (run undeletable_staging fresh)) = true.
Proof. repeat split; vm_compute; reflexivity. Qed.

(** ** File-system calls do not touch the manifest or the console *)

Lemma put_blind parents s l v s' :
  put parents s l v = Some s' ->
  manifest s' = manifest s /\ console s' = console s.
Proof.
  destruct l as [[|] p|raw]; simpl.
  - destruct (store parents (fs_install s) p v); [|discriminate].
    intros H. now inversion H.
  - destruct (store parents (fs_temp s) p v); [|discriminate].
    intros H. now inversion H.
  - intros H. now inversion H.
Qed.

Lemma del_blind s l s' :
  del s l = Some s' -> manifest s' = manifest s /\ console s' = console s.
Proof.
  destruct l as [[|] p|raw]; simpl.
  - destruct (remove (fs_install s) p); [|discriminate].
    intros H. now inversion H.
  - destruct (remove (fs_temp s) p); [|discriminate].
    intros H. now inversion H.
  - destruct (assoc raw (fs_elsewhere s)); [|discriminate].
    intros H. now inversion H.
Qed.

Ltac blind_step HP :=
  let s := fresh "s" in
  let r := fresh "r" in
  let s' := fresh "s'" in
  let Hs := fresh "Hs" in
  let H := fresh "H" in
  intros s r s' Hs H; unfold_monad;
  repeat match type of H with
         | context [match ?x with _ => _ end] => destruct x eqn:?
         end;
  inversion H; subst; try assumption;
  match goal with
  | Hput : put _ _ _ _ = Some ?t |- _ =>
      apply put_blind in Hput; destruct Hput; eapply HP; eassumption
  | Hdel : del _ _ = Some ?t |- _ =>
      apply del_blind in Hdel; destruct Hdel; eapply HP; eassumption
  end.

Section Blind.

Variable P : state -> Prop.
Hypothesis HP : fs_blind P.
Variable E : env.

Lemma blind_mkdir r : preserves P (mkdir E r).
Proof.
  unfold mkdir. apply preserves_bind; [apply preserves_fault|]. intros _.
  blind_step HP.
Qed.

Lemma blind_open_wb l : preserves P (open_wb E l).
Proof.
  unfold open_wb. apply preserves_bind; [apply preserves_fault|]. intros _.
  blind_step HP.
Qed.

Lemma blind_file_write l chunk : preserves P (file_write E l chunk).
Proof.
  unfold file_write. apply preserves_bind; [apply preserves_fault|]. intros _.
  blind_step HP.
Qed.

Lemma blind_copy2 src dst : preserves P (copy2 E src dst).
Proof.
  unfold copy2. apply preserves_bind; [apply preserves_fault|]. intros _.
  blind_step HP.
Qed.

Lemma blind_copytree src dst flag : preserves P (copytree E src dst flag).
Proof.
  unfold copytree. apply preserves_bind; [apply preserves_fault|]. intros _.
  blind_step HP.
Qed.

Lemma blind_rmtree l : preserves P (rmtree E l).
Proof.
  unfold rmtree. apply preserves_bind; [apply preserves_fault|]. intros _.
  blind_step HP.
Qed.

Lemma blind_extractall archive target : preserves P (extractall E archive target).
Proof.
  unfold extractall. apply preserves_bind; [apply preserves_fault|]. intros _.
  blind_step HP.
Qed.

Lemma blind_chdir l : preserves P (chdir E l).
Proof.
  unfold chdir. apply preserves_bind; [apply preserves_fault|]. intros _.
  blind_step HP.
Qed.

End Blind.

(** ** What a method prints *)

Lemma emitted_blind base Q : fs_blind (emitted base Q).
Proof.
  intros s s' _ Hc (out & Hout & HQ). exists out. split; congruence.
Qed.

Lemma emitted_start Q s : emitted (console s) Q s.
Proof. exists []. split; [now rewrite app_nil_r|constructor]. Qed.

Lemma emitted_print base (Q : msg -> Prop) m :
  Q m -> preserves (emitted base Q) (print m).
Proof.
  intros Hm s r s' (out & Hout & HQ) H. unfold print in H.
  inversion H; subst. exists (out ++ [m])%list. split.
  - simpl. rewrite Hout. now rewrite app_assoc.
  - apply Forall_app. split; [assumption|now constructor].
Qed.






(** ** The order of the two download paths *)






(** ** The manifest step *)

Lemma download_manifest_not_exception E s s' name :
  download_manifest E s <> (Raise (Exception name), s').
Proof.
  unfold download_manifest, bind at 1, print at 1. unfold bind at 1.
  match goal with
  | |- context [try_except ?b ?h (say Step3 s)] =>
      destruct (try_except b h (say Step3 s)) as [[[b0|]|[e|]] s1] eqn:Htry
  end; try (unfold ret; discriminate).
  exfalso. revert Htry. apply try_except_not_exception.
  intros e0 s0 s2 n. unfold bind, print, ret. discriminate.
Qed.

(** When the request raises, answers with another status than 200, or its
    body is not JSON, the manifest attribute is not touched. *)
Lemma download_manifest_keeps_manifest_on_fetch_failure E s :
  (exists e, http_get E manifest_url = Raise (Exception e)) \/
  (exists r, http_get E manifest_url = Ok r /\ status_code r <> 200) \/
  (exists r e, http_get E manifest_url = Ok r /\
               json_body r = Raise (Exception e)) ->
  exists b s', download_manifest E s = (Ok b, s') /\ manifest s' = manifest s.
Proof.
  intros H.
  unfold download_manifest, bind at 1, print at 1, try_except.
  unfold bind at 1. unfold bind at 1, requests_get at 1, lift at 1.
  destruct H as [[e He]|[(r & Hr & Hst)|(r & e & Hr & Hbody)]].
  - rewrite He. unfold bind, print, ret. eexists _, _. split; reflexivity.
  - rewrite Hr. apply Z.eqb_neq in Hst. rewrite Hst.
    unfold ret. eexists _, _. split; reflexivity.
  - rewrite Hr. destruct (status_code r =? 200).
    + unfold bind at 1, lift at 1. rewrite Hbody.
      unfold bind, print, ret. eexists _, _. split; reflexivity.
    + unfold ret. eexists _, _. split; reflexivity.
Qed.

(** However [download_manifest] ends, short of an interrupt, the run goes
    on to the download step. *)
Lemma run_reaches_download E s s1 s2 r s3 :
  check_internet E s = (Ok true, s1) ->
  create_install_directory E s1 = (Ok true, s2) ->
  download_manifest E s2 = (r, s3) ->
  r <> Raise KeyboardInterrupt ->
  run_preflight E s = (Ok true, s3).
Proof.
  intros Hprobe Hdirs Hmanifest Hr.
  unfold run_preflight. unfold bind at 1. rewrite Hprobe. cbn [negb].
  unfold bind at 1. rewrite Hdirs. cbn [negb].
  unfold bind at 1. rewrite Hmanifest.
  destruct r as [b|[name|]].
  - reflexivity.
  - exfalso. eapply download_manifest_not_exception. eassumption.
  - congruence.
Qed.

(** C3.  The manifest endpoint answers 200 with an envelope whose
    [content] is not JSON.  [download_manifest] reports the warning, says
    it uses the default file list and returns [True], so the run goes on;
    but [self.manifest] is by then the envelope, not the built-in manifest
    that was set before.  The fallback download that follows finds no file
    to download and fails, where with the built-in manifest it would have
    fetched [main_app.py] and succeeded; the run returns [False]. *)
Theorem failed_decode_replaces_manifest :
  manifest prepared = default_manifest /\
  download_manifest unparsable_content prepared
  = (Ok true,
     mkState (Some (Dir [])) (Some (Dir [])) [] envelope
       [Step3; ManifestWarning "JSONDecodeError"; UsingDefaultList]) /\
  envelope <> default_manifest /\
  download_app_files unparsable_content
    (snd (download_manifest unparsable_content prepared))
  = (Ok false,
     mkState (Some (Dir [])) (Some (Dir [])) [] envelope
       [Step3; ManifestWarning "JSONDecodeError"; UsingDefaultList;
        Step4Files; NoFilesToDownload]) /\
  fst (download_app_files unparsable_content
         (with_manifest (snd (download_manifest unparsable_content prepared))
                        default_manifest))
  = Ok true /\
  fst (run unparsable_content fresh) = Ok false.
Proof.
  split; [reflexivity|]. split; [vm_compute; reflexivity|].
  split; [discriminate|]. repeat split; vm_compute; reflexivity.
Qed.

(** ** Copying a tree to a fresh place *)

Lemma node_ind2 (P : node -> Prop) :
  (forall d m, P (File d m)) ->
  (forall es, Forall (fun kc => P (snd kc)) es -> P (Dir es)) ->
  forall n, P n.
Proof.
  intros Hf Hd.
  fix IH 1. intros [d m|es].
  - apply Hf.
  - apply Hd. induction es as [|[k c] es IHes]; constructor.
    + apply IH.
    + exact IHes.
Qed.

Lemma set_entry_absent (A : Type) (k : string) (v : A) l :
  assoc k l = None -> set_entry k v l = (l ++ [(k, v)])%list.
Proof.
  induction l as [|[k' v'] l IH]; simpl; [reflexivity|].
  destruct (String.eqb k k'); [discriminate|].
  intros H. now rewrite IH.
Qed.

Lemma assoc_app_none (A : Type) (k : string) (l1 l2 : list (string * A)) :
  assoc k l1 = None -> assoc k (l1 ++ l2) = assoc k l2.
Proof.
  induction l1 as [|[k' v'] l1 IH]; simpl; [reflexivity|].
  destruct (String.eqb k k'); [discriminate|assumption].
Qed.

Lemma unique_names_cons k c es :
  unique_names (Dir ((k, c) :: es)) = true ->
  has_key k es = false /\ unique_names c = true /\ unique_names (Dir es) = true.
Proof.
  cbn [unique_names]. rewrite !andb_true_iff, negb_true_iff.
  intros [[H1 H2] H3]. auto.
Qed.

Lemma copytree_node_cons flag name child es ds :
  copytree_node flag (Dir ((name, child) :: es)) ds
  = let '(ds1, e1) :=
      match child with
      | File _ _ => copy2_entry name child ds
      | Dir _ =>
          match assoc name ds with
          | Some (File _ _) => (ds, ["FileExistsError"])
          | Some (Dir sub) =>
              if flag then
                let '(sub', e) := copytree_node flag child sub in
                (set_entry name (Dir sub') ds, e)
              else (ds, ["FileExistsError"])
          | None =>
              let '(sub', e) := copytree_node flag child [] in
              (set_entry name (Dir sub') ds, e)
          end
      end in
    let '(ds2, e2) := copytree_node flag (Dir es) ds1 in
    (ds2, (e1 ++ e2)%list).
Proof. reflexivity. Qed.

Lemma copytree_node_fresh flag :
  forall n,
    unique_names n = true ->
    match n with
    | File _ _ => True
    | Dir es =>
        forall ds,
          (forall k, has_key k es = true -> assoc k ds = None) ->
          copytree_node flag n ds = ((ds ++ es)%list, [])
    end.
Proof.
  induction n as [d m|es IH] using node_ind2; intros Hu; [exact I|].
  induction es as [|[name child] es IHes]; intros ds Hfresh.
  - simpl. now rewrite app_nil_r.
  - apply unique_names_cons in Hu as (Hname & Hchild & Hes).
    inversion IH as [|? ? IHchild IHrest]; subst.
    assert (Hnone : assoc name ds = None).
    { apply Hfresh. unfold has_key. simpl. now rewrite String.eqb_refl. }
    assert (Hstep : forall k, has_key k es = true ->
                              assoc k (ds ++ [(name, child)]) = None).
    { intros k Hk. rewrite assoc_app_none.
      - simpl. destruct (String.eqb_spec k name) as [->|]; [congruence|reflexivity].
      - apply Hfresh. unfold has_key in *. simpl.
        destruct (String.eqb k name); [reflexivity|assumption]. }
    rewrite copytree_node_cons.
    destruct child as [d m|ces].
    + unfold copy2_entry. rewrite Hnone.
      rewrite (set_entry_absent _ _ _ Hnone).
      rewrite (IHes IHrest Hes _ Hstep). simpl.
      now rewrite <- app_assoc.
    + rewrite Hnone. cbn [snd] in IHchild.
      specialize (IHchild Hchild [] (fun _ _ => eq_refl)).
      cbn [app] in IHchild. rewrite IHchild.
      rewrite (set_entry_absent _ _ _ Hnone).
      rewrite (IHes IHrest Hes _ Hstep). simpl.
      now rewrite <- app_assoc.
Qed.

Lemma copytree_node_exact flag es :
  unique_names (Dir es) = true ->
  copytree_node flag (Dir es) [] = (es, []).
Proof.
  intros Hu. apply (copytree_node_fresh flag (Dir es) Hu []).
  reflexivity.
Qed.

(** ** What the library calls do when they succeed *)

Lemma copy2_ok E src dst s s' :
  copy2 E src dst s = (Ok tt, s') ->
  exists d m,
    get s src = Some (File d m) /\
    put false s
        match get s dst with
        | Some (Dir _) => loc_child dst (basename src)
        | _ => dst
        end (File d m) = Some s'.
Proof.
  unfold copy2. intros H.
  apply bind_ok_inv in H as (u & s1 & Hf & H).
  apply fault_ok_inv in Hf. subst s1. unfold_monad.
  destruct (get s src) as [[d m|es]|]; try discriminate.
  exists d, m. split; [reflexivity|].
  repeat match type of H with
         | context [match ?x with _ => _ end] => destruct x eqn:?
         end; congruence.
Qed.

Lemma rmtree_ok E l s s' :
  rmtree E l s = (Ok tt, s') ->
  (exists es, get s l = Some (Dir es)) /\ del s l = Some s'.
Proof.
  unfold rmtree. intros H.
  apply bind_ok_inv in H as (u & s1 & Hf & H).
  apply fault_ok_inv in Hf. subst s1. unfold_monad.
  destruct (get s l) as [[d m|es]|]; try discriminate.
  split; [now exists es|].
  destruct (del s l); congruence.
Qed.

Lemma copytree_fresh_ok E src dst s s' :
  copytree E src dst false s = (Ok tt, s') ->
  exists es,
    get s src = Some (Dir es) /\
    get s dst = None /\
    snd (copytree_node false (Dir es) []) = [] /\
    put true s dst (Dir (fst (copytree_node false (Dir es) []))) = Some s'.
Proof.
  unfold copytree. intros H.
  apply bind_ok_inv in H as (u & s1 & Hf & H).
  apply fault_ok_inv in Hf. subst s1. unfold_monad.
  destruct (get s src) as [[d m|es]|]; try discriminate.
  exists es. split; [reflexivity|].
  destruct (get s dst) as [[d m|ds]|]; try discriminate.
  split; [reflexivity|].
  destruct (copytree_node false (Dir es) []) as [ds' errors].
  cbn [fst snd].
  destruct (put true s dst (Dir ds')) as [s2|]; [|discriminate].
  destruct errors; [|discriminate].
  split; [reflexivity|]. congruence.
Qed.

Lemma store_inv parents o x q v n :
  store parents o (x :: q) v = Some n ->
  exists es c',
    (o = Some (Dir es) \/ (o = None /\ parents = true /\ es = [])) /\
    store parents (assoc x es) q v = Some c' /\
    n = Dir (set_entry x c' es).
Proof.
  cbn [store]. destruct o as [[d m|es]|]; try discriminate.
  - intros H. exists es.
    destruct q as [|y q'].
    + simpl in *. inversion H. destruct (assoc x es); eauto.
    + destruct (assoc x es) as [c|].
      * destruct (store parents (Some c) (y :: q') v) as [c'|]; [|discriminate].
        inversion H. eauto.
      * destruct parents; [|discriminate].
        destruct (store true None (y :: q') v) as [c'|]; [|discriminate].
        inversion H. eauto.
  - destruct parents; [|discriminate].
    destruct (store true None q v) as [c'|] eqn:Hs; [|discriminate].
    intros H. inversion H. exists [], c'. simpl. auto.
Qed.

Lemma store_top_other parents o x q v n x' :
  store parents o (x :: q) v = Some n ->
  x' <> x ->
  lookup n [x'] = lookup_opt o [x'].
Proof.
  intros H Hne. apply store_inv in H as (es & c' & Ho & _ & ->).
  cbn [lookup]. rewrite assoc_set_entry_other by congruence.
  destruct Ho as [->|(-> & _ & ->)]; reflexivity.
Qed.

Lemma store_top_same parents o x q v n :
  store parents o (x :: q) v = Some n ->
  exists es c',
    (o = Some (Dir es) \/ (o = None /\ parents = true /\ es = [])) /\
    store parents (assoc x es) q v = Some c' /\
    lookup n [x] = Some c'.
Proof.
  intros H. apply store_inv in H as (es & c' & Ho & Hs & ->).
  exists es, c'. split; [assumption|]. split; [assumption|].
  cbn [lookup]. now rewrite assoc_set_entry_same.
Qed.

Lemma put_install_inv parents s p v s' :
  put parents s (At InstallDir p) v = Some s' ->
  exists n, store parents (fs_install s) p v = Some n /\
            s' = with_install s (Some n).
Proof.
  simpl. destruct (store parents (fs_install s) p v) as [n|]; [|discriminate].
  intros H. inversion H. now exists n.
Qed.

Lemma install_entry_eq s name :
  install_entry s name = lookup_opt (fs_install s) [name].
Proof. reflexivity. Qed.

(** ** One turn of the copy loop *)

Lemma temp_item s ts name n :
  fs_temp s = Some (Dir ts) ->
  assoc name ts = Some n ->
  get s (loc_child temp_dir name) = Some n.
Proof. intros Ht Ha. simpl. rewrite Ht. simpl. now rewrite Ha. Qed.

Lemma remove_top o x r :
  remove o [x] = Some r ->
  exists es, o = Some (Dir es) /\ r = Some (Dir (del_entry x es)).
Proof.
  simpl. destruct o as [[d m|es]|]; try discriminate.
  destruct (assoc x es); [|discriminate].
  intros H. inversion H. now exists es.
Qed.

Lemma lookup_top_dir es x :
  lookup_opt (Some (Dir es)) [x] = assoc x es.
Proof. simpl. now destruct (assoc x es). Qed.

Lemma copy_item_file E name d m s s' :
  get s (loc_child temp_dir name) = Some (File d m) ->
  copy2 E (loc_child temp_dir name) (loc_child install_dir name) s = (Ok tt, s') ->
  fs_temp s' = fs_temp s /\
  (forall name', name' <> name ->
                 install_entry s' name' = install_entry s name') /\
  installs name (File d m) (install_entry s name) (install_entry s' name).
Proof.
  intros Hitem H.
  apply copy2_ok in H as (d0 & m0 & Hsrc & Hput).
  rewrite Hitem in Hsrc. inversion Hsrc; subst d0 m0. clear Hsrc.
  change (get s (loc_child install_dir name)) with (install_entry s name) in Hput.
  unfold installs.
  destruct (install_entry s name) as [[d1 m1|sub]|] eqn:Hbefore;
    apply put_install_inv in Hput as (n' & Hs & ->);
    cbn [basename loc_child temp_dir app last] in Hs;
    (split; [reflexivity|]);
    (split; [intros name' Hne; rewrite !install_entry_eq;
             cbn [fs_install with_install lookup_opt];
             exact (@store_top_other _ _ _ _ _ _ _ Hs Hne)|]);
    apply store_top_same in Hs as (es & c' & Ho & Hc' & Hlook);
    rewrite install_entry_eq; cbn [fs_install with_install lookup_opt];
    rewrite Hlook.
  - simpl in Hc'. congruence.
  - destruct Ho as [Ho|(_ & Hp & _)]; [|discriminate].
    rewrite install_entry_eq, Ho, lookup_top_dir in Hbefore.
    rewrite Hbefore in Hc'. simpl in Hc'. congruence.
  - simpl in Hc'. congruence.
Qed.

Lemma copy_item_dir E name es s s' :
  get s (loc_child temp_dir name) = Some (Dir es) ->
  unique_names (Dir es) = true ->
  ((there <- exists_ (loc_child install_dir name) ;;
    (if there : bool then rmtree E (loc_child install_dir name) else ret tt) ;;
    copytree E (loc_child temp_dir name) (loc_child install_dir name) false) s
   = (Ok tt, s')) ->
  fs_temp s' = fs_temp s /\
  (forall name', name' <> name ->
                 install_entry s' name' = install_entry s name') /\
  install_entry s' name = Some (Dir es).
Proof.
  intros Hitem Hu H.
  apply bind_ok_inv in H as (there & s0 & Hthere & H).
  unfold exists_ in Hthere. cbv beta in Hthere.
  inversion Hthere; subst s0. clear Hthere.
  apply bind_ok_inv in H as ([] & s1 & Hrm & Hcp).
  assert (Hs1 : fs_temp s1 = fs_temp s /\
                forall name', name' <> name ->
                              install_entry s1 name' = install_entry s name').
  { destruct there.
    - apply rmtree_ok in Hrm as (_ & Hdel).
      unfold del, loc_child, install_dir in Hdel. cbn [app] in Hdel.
      destruct (remove (fs_install s) [name]) as [r|] eqn:Hr; [|discriminate].
      inversion Hdel; subst s1. split; [reflexivity|].
      intros name' Hne. rewrite !install_entry_eq.
      apply remove_top in Hr as (es0 & Ho & ->).
      cbn [fs_install with_install]. rewrite Ho, !lookup_top_dir.
      apply assoc_del_entry_other. congruence.
    - unfold ret in Hrm. inversion Hrm; subst s1. auto. }
  destruct Hs1 as (Htemp1 & Hother1).
  apply copytree_fresh_ok in Hcp as (es' & Hsrc & _ & _ & Hput).
  assert (es' = es) as ->.
  { simpl in Hsrc, Hitem. rewrite Htemp1 in Hsrc. congruence. }
  rewrite (copytree_node_exact false _ Hu) in Hput. cbn [fst] in Hput.
  apply put_install_inv in Hput as (n' & Hs & ->).
  cbn [app] in Hs.
  split; [exact Htemp1|]. split.
  - intros name' Hne. rewrite <- (Hother1 name' Hne).
    rewrite !install_entry_eq. cbn [fs_install with_install lookup_opt].
    exact (@store_top_other _ _ _ _ _ _ _ Hs Hne).
  - apply store_top_same in Hs as (es0 & c' & _ & Hc' & Hlook).
    rewrite install_entry_eq. cbn [fs_install with_install lookup_opt].
    rewrite Hlook. simpl in Hc'. congruence.
Qed.

Lemma copy_item_spec E name n ts s s' :
  fs_temp s = Some (Dir ts) ->
  assoc name ts = Some n ->
  unique_names n = true ->
  copy_item E name s = (Ok tt, s') ->
  fs_temp s' = fs_temp s /\
  (forall name', name' <> name ->
                 install_entry s' name' = install_entry s name') /\
  installs name n (install_entry s name) (install_entry s' name).
Proof.
  intros Ht Ha Hu H.
  pose proof (temp_item _ _ Ht Ha) as Hitem.
  unfold copy_item in H. unfold bind at 1, is_file at 1 in H.
  rewrite Hitem in H.
  destruct n as [d m|es].
  - now apply copy_item_file with E.
  - unfold bind at 1, is_dir at 1 in H. rewrite Hitem in H.
    cbn [andb] in H. unfold installs.
    destruct (String.eqb name "__pycache__") eqn:Hpy; cbn [negb] in H.
    + unfold ret in H. inversion H; subst s'. auto.
    + now apply copy_item_dir with E.
Qed.

(** ** The copy step *)

Lemma has_key_In (A : Type) k (l : list (string * A)) :
  has_key k l = true <-> In k (map fst l).
Proof.
  unfold has_key. induction l as [|[k' v] l IH]; simpl.
  - split; [discriminate|tauto].
  - destruct (String.eqb_spec k k') as [->|Hne].
    + split; auto.
    + rewrite IH. split; [auto|]. intros [H|H]; [congruence|assumption].
Qed.

Lemma unique_names_NoDup es :
  unique_names (Dir es) = true -> NoDup (map fst es).
Proof.
  induction es as [|[k c] es IH]; intros Hu; simpl; [constructor|].
  apply unique_names_cons in Hu as (Hk & _ & Hes).
  constructor; [|now apply IH].
  rewrite <- has_key_In. congruence.
Qed.

Lemma unique_names_assoc es name n :
  unique_names (Dir es) = true ->
  assoc name es = Some n ->
  unique_names n = true.
Proof.
  induction es as [|[k c] es IH]; intros Hu Ha; simpl in Ha; [discriminate|].
  apply unique_names_cons in Hu as (_ & Hc & Hes).
  destruct (String.eqb name k); [congruence|auto].
Qed.

Lemma assoc_In (A : Type) k (l : list (string * A)) v :
  assoc k l = Some v -> In k (map fst l).
Proof.
  intros H. apply has_key_In. unfold has_key. now rewrite H.
Qed.

Lemma In_assoc (A : Type) k (l : list (string * A)) :
  In k (map fst l) -> exists v, assoc k l = Some v.
Proof.
  intros H. apply has_key_In in H. unfold has_key in H.
  destruct (assoc k l) as [v|]; [now exists v|discriminate].
Qed.

Lemma copy_loop_spec E ts :
  unique_names (Dir ts) = true ->
  forall names s s',
    NoDup names ->
    (forall name, In name names -> In name (map fst ts)) ->
    fs_temp s = Some (Dir ts) ->
    for_each names (copy_item E) s = (Ok tt, s') ->
    fs_temp s' = Some (Dir ts) /\
    (forall name, ~ In name names ->
                  install_entry s' name = install_entry s name) /\
    (forall name n, In name names -> assoc name ts = Some n ->
                    installs name n (install_entry s name) (install_entry s' name)).
Proof.
  intros Hu. induction names as [|name rest IH]; intros s s' Hnd Hsub Ht H.
  - simpl in H. unfold ret in H. inversion H; subst s'.
    split; [assumption|]. split; [reflexivity|]. intros name n [].
  - cbn [for_each] in H. apply bind_ok_inv in H as ([] & s1 & Hturn & Hrest).
    inversion Hnd as [|? ? Hfresh Hnd']; subst.
    destruct (In_assoc _ _ (Hsub name (or_introl eq_refl))) as [n0 Hn0].
    destruct (@copy_item_spec E name n0 ts s s1 Ht Hn0
                (unique_names_assoc _ _ Hu Hn0) Hturn)
      as (Ht1 & Hother1 & Hthis1).
    destruct (IH s1 s' Hnd' (fun x Hx => Hsub x (or_intror Hx))
                (eq_trans Ht1 Ht) Hrest)
      as (Ht' & Hother' & Hthese').
    split; [assumption|]. split.
    + intros x Hx. rewrite Hother' by (intros Hin; apply Hx; now right).
      apply Hother1. intros ->. apply Hx. now left.
    + intros x n [<-|Hin] Hn.
      * assert (n = n0) by congruence. subst n.
        now rewrite (Hother' name Hfresh).
      * assert (x <> name) by (intros ->; contradiction).
        rewrite <- (Hother1 x) by assumption.
        now apply Hthese'.
Qed.

Lemma put_install_top parents s entries name v :
  fs_install s = Some (Dir entries) ->
  put parents s (At InstallDir [name]) v
  = Some (with_install s (Some (Dir (set_entry name v entries)))).
Proof.
  intros Hi. unfold put. rewrite Hi. cbn [store].
  destruct (assoc name entries); reflexivity.
Qed.

Lemma put_install_inner s entries name sub v :
  fs_install s = Some (Dir entries) ->
  assoc name entries = Some (Dir sub) ->
  put false s (At InstallDir [name; name]) v
  = Some (with_install s
            (Some (Dir (set_entry name (Dir (set_entry name v sub)) entries)))).
Proof.
  intros Hi Hentry. unfold put. rewrite Hi. cbn [store]. rewrite Hentry.
  cbn [store]. destruct (assoc name sub); reflexivity.
Qed.

Lemma copytree_fresh_succeeds E name es s entries :
  (forall op, fs_fault E op = None) ->
  get s (loc_child temp_dir name) = Some (Dir es) ->
  unique_names (Dir es) = true ->
  fs_install s = Some (Dir entries) ->
  assoc name entries = None ->
  exists s1 entries1,
    copytree E (loc_child temp_dir name) (loc_child install_dir name) false s
    = (Ok tt, s1) /\
    fs_install s1 = Some (Dir entries1).
Proof.
  intros Hf Hsrc Hu Hi Hnone.
  assert (Hdst : get s (loc_child install_dir name) = None).
  { change (get s (loc_child install_dir name)) with (install_entry s name).
    now rewrite install_entry_eq, Hi, lookup_top_dir. }
  unfold copytree, fault. rewrite Hf. unfold bind at 1, ret at 1.
  unfold bind at 1, get_state at 1. rewrite Hsrc, Hdst.
  rewrite (copytree_node_exact false _ Hu).
  change (loc_child install_dir name) with (At InstallDir [name]).
  rewrite (put_install_top true _ _ _ Hi).
  unfold bind, set_state, ret. eexists _, _. split; reflexivity.
Qed.

Lemma copy_item_succeeds E name n ts entries s :
  (forall op, fs_fault E op = None) ->
  fs_temp s = Some (Dir ts) ->
  assoc name ts = Some n ->
  unique_names n = true ->
  fs_install s = Some (Dir entries) ->
  accepts name n (install_entry s name) = true ->
  exists s1 entries1,
    copy_item E name s = (Ok tt, s1) /\ fs_install s1 = Some (Dir entries1).
Proof.
  intros Hf Ht Ha Hu Hi Hacc.
  pose proof (temp_item _ _ Ht Ha) as Hitem.
  rewrite install_entry_eq, Hi, lookup_top_dir in Hacc.
  assert (Hdst : get s (loc_child install_dir name) = assoc name entries).
  { change (get s (loc_child install_dir name)) with (install_entry s name).
    now rewrite install_entry_eq, Hi, lookup_top_dir. }
  unfold copy_item. unfold bind at 1, is_file at 1. rewrite Hitem.
  destruct n as [d m|es].
  - unfold copy2, fault. rewrite Hf. unfold bind at 1, ret at 1.
    unfold bind at 1, get_state at 1. rewrite Hitem, Hdst.
    cbn [accepts] in Hacc.
    destruct (assoc name entries) as [[d1 m1|sub]|] eqn:Hentry.
    + rewrite Hdst.
      change (loc_child install_dir name) with (At InstallDir [name]).
      rewrite (put_install_top false _ _ _ Hi).
      cbn. unfold set_state. eexists _, _. split; reflexivity.
    + change (loc_child (loc_child install_dir name)
                (basename (loc_child temp_dir name)))
        with (At InstallDir [name; name]).
      assert (Htarget : get s (At InstallDir [name; name]) = assoc name sub).
      { unfold get. rewrite Hi. cbn [lookup_opt lookup]. rewrite Hentry.
        cbn [lookup]. now destruct (assoc name sub). }
      rewrite Htarget, (put_install_inner _ _ _ Hi Hentry).
      destruct (assoc name sub) as [[d2 m2|sub2]|]; try discriminate;
        cbn; unfold set_state; eexists _, _; split; reflexivity.
    + rewrite Hdst.
      change (loc_child install_dir name) with (At InstallDir [name]).
      rewrite (put_install_top false _ _ _ Hi).
      cbn. unfold set_state. eexists _, _. split; reflexivity.
  - unfold bind at 1, is_dir at 1. rewrite Hitem. cbn [andb].
    cbn [accepts] in Hacc.
    destruct (String.eqb name "__pycache__") eqn:Hpy; cbn [negb].
    + unfold ret. now exists s, entries.
    + unfold bind at 1, exists_ at 1. rewrite Hdst.
      destruct (assoc name entries) as [[d1 m1|sub]|] eqn:Hentry;
        [discriminate| |].
      * unfold bind at 1. unfold rmtree at 1, fault. rewrite Hf.
        unfold bind at 1, ret at 1. unfold bind at 1, get_state at 1.
        rewrite Hdst.
        unfold del, loc_child at 1, install_dir at 1. cbn [app]. rewrite Hi.
        cbn [remove]. rewrite Hentry. cbn [option_map]. unfold set_state.
        apply (@copytree_fresh_succeeds E name es _ (del_entry name entries) Hf).
        -- simpl. rewrite Ht. simpl. now rewrite Ha.
        -- exact Hu.
        -- reflexivity.
        -- apply assoc_del_entry_same.
      * unfold bind at 1, ret at 1.
        now apply (@copytree_fresh_succeeds E name es s entries Hf).
Qed.

Lemma copy_loop_succeeds E ts :
  (forall op, fs_fault E op = None) ->
  unique_names (Dir ts) = true ->
  forall names s entries,
    NoDup names ->
    (forall name, In name names -> In name (map fst ts)) ->
    fs_temp s = Some (Dir ts) ->
    fs_install s = Some (Dir entries) ->
    (forall name n, In name names -> assoc name ts = Some n ->
                    accepts name n (install_entry s name) = true) ->
    exists s', for_each names (copy_item E) s = (Ok tt, s').
Proof.
  intros Hf Hu. induction names as [|name rest IH];
    intros s entries Hnd Hsub Ht Hi Hacc.
  - exists s. reflexivity.
  - inversion Hnd as [|? ? Hfresh Hnd']; subst.
    destruct (In_assoc _ _ (Hsub name (or_introl eq_refl))) as [n0 Hn0].
    pose proof (unique_names_assoc _ _ Hu Hn0) as Hu0.
    destruct (@copy_item_succeeds E name n0 ts entries s Hf Ht Hn0 Hu0 Hi
                (Hacc name n0 (or_introl eq_refl) Hn0))
      as (s1 & entries1 & Hturn & Hi1).
    destruct (@copy_item_spec E name n0 ts s s1 Ht Hn0 Hu0 Hturn)
      as (Ht1 & Hother1 & _).
    destruct (IH s1 entries1 Hnd' (fun x Hx => Hsub x (or_intror Hx))
                (eq_trans Ht1 Ht) Hi1) as [s' Hrest].
    + intros x n Hx Hn. rewrite Hother1.
      * apply Hacc; [now right|assumption].
      * intros ->. contradiction.
    + exists s'. cbn [for_each]. unfold bind. now rewrite Hturn.
Qed.

(** C6.  On a staging directory that lists each name once:
    when [copy_files_to_install_dir] returns [True], the staging directory
    is as it was and every entry it lists has been dealt with: a file is
    in the install directory with the same bytes and the same metadata; a
    directory is in the install directory exactly as it is in staging,
    whatever directory of that name was there before; for a directory
    named [__pycache__] the install entry is what it was; and the install
    entries of all other names are what they were.  And the step does
    return [True] when no system call fails, the install directory is
    there and no install entry stands in the way of a staging entry. *)
Theorem copy_installs_every_entry :
  forall (E : env) (s : state) (ts : list (string * node)),
    fs_temp s = Some (Dir ts) ->
    unique_names (Dir ts) = true ->
    (forall s',
        copy_files_to_install_dir E s = (Ok true, s') ->
        fs_temp s' = Some (Dir ts) /\
        (forall name n,
            assoc name ts = Some n ->
            installs name n (install_entry s name) (install_entry s' name)) /\
        (forall name,
            assoc name ts = None ->
            install_entry s' name = install_entry s name)) /\
    ((forall op, fs_fault E op = None) ->
     (exists entries, fs_install s = Some (Dir entries)) ->
     (forall name n,
         assoc name ts = Some n ->
         accepts name n (install_entry s name) = true) ->
     exists s', copy_files_to_install_dir E s = (Ok true, s')).
Proof.
  intros E s ts Ht Hu. split.
  - intros s' H.
    unfold copy_files_to_install_dir, bind at 1, print at 1, try_except in H.
    match type of H with
    | match ?body (say Step7 s) with _ => _ end = _ =>
        destruct (body (say Step7 s)) as [[b|[e|]] s1] eqn:Hbody
    end; [|unfold bind, print, ret in H; discriminate|discriminate].
    inversion H; subst b s1. clear H.
    apply bind_ok_inv in Hbody as (names & s0 & Hnames & Hbody).
    unfold iterdir in Hnames. simpl in Hnames. rewrite Ht in Hnames.
    simpl in Hnames. inversion Hnames; subst names s0. clear Hnames.
    apply bind_ok_inv in Hbody as ([] & s2 & Hloop & Hend).
    unfold bind, print, ret in Hend. inversion Hend; subst s'. clear Hend.
    destruct (@copy_loop_spec E ts Hu (map fst ts) (say Step7 s) s2
                (unique_names_NoDup _ Hu) (fun _ Hx => Hx) Ht Hloop)
      as (Ht2 & Hother & Hthese).
    split; [exact Ht2|]. split.
    + intros name n Hn.
      exact (Hthese name n (assoc_In _ _ Hn) Hn).
    + intros name Hnone.
      apply (Hother name). intros Hin.
      apply In_assoc in Hin as [v Hv]. congruence.
  - intros Hf [entries Hi] Hacc.
    destruct (@copy_loop_succeeds E ts Hf Hu (map fst ts) (say Step7 s) entries
                (unique_names_NoDup _ Hu) (fun _ Hx => Hx) Ht Hi
                (fun name n _ Hn => Hacc name n Hn))
      as [s2 Hloop].
    exists (say FilesInstalled s2).
    unfold copy_files_to_install_dir, bind at 1, print at 1, try_except.
    unfold bind at 1, iterdir at 1.
    assert (Hg : get (say Step7 s) temp_dir = Some (Dir ts))
      by (simpl; now rewrite Ht).
    rewrite Hg. unfold bind at 1. rewrite Hloop. reflexivity.
Qed.

Lemma copy_installs_every_entry_witness :
  exists s',
    copy_files_to_install_dir probe_answers bundle_staged = (Ok true, s') /\
    install_entry s' "main_app.py" = Some (File [x61] 7) /\
    install_entry s' "ui" = Some (Dir [("window.py", File [x62] 8)]) /\
    install_entry s' "__pycache__" = Some (Dir [("kept.pyc", File [x6b] 2)]).
Proof.
  destruct (@copy_installs_every_entry probe_answers bundle_staged _
              eq_refl eq_refl) as (Heffect & Hreturns).
  destruct Hreturns as [s' Hrun].
  - intros op. reflexivity.
  - eexists. reflexivity.
  - intros name n Hn. simpl in Hn.
    repeat match type of Hn with
           | (if String.eqb name ?k then _ else _) = Some n =>
               destruct (String.eqb_spec name k);
               [subst name; inversion Hn; subst n; vm_compute; reflexivity|]
           end.
    discriminate.
  - exists s'. split; [exact Hrun|].
    destruct (Heffect s' Hrun) as (_ & Hall & _).
    repeat split.
    + exact (Hall "main_app.py" _ eq_refl).
    + exact (Hall "ui" _ eq_refl).
    + exact (Hall "__pycache__" _ eq_refl).
Defined.

(** ** Flattening the extracted folder *)

Lemma store_other_branch parents o x q v n x' p :
  store parents o (x :: q) v = Some n ->
  x' <> x ->
  lookup n (x' :: p) = lookup_opt o (x' :: p).
Proof.
  intros H Hne. apply store_inv in H as (es & c' & Ho & _ & ->).
  cbn [lookup]. rewrite assoc_set_entry_other by congruence.
  destruct Ho as [->|(-> & _ & ->)]; reflexivity.
Qed.

Lemma put_other_branch parents s x q v s' x' p :
  put parents s (At TempDir (x :: q)) v = Some s' ->
  x' <> x ->
  get s' (At TempDir (x' :: p)) = get s (At TempDir (x' :: p)).
Proof.
  unfold put, get.
  destruct (store parents (fs_temp s) (x :: q) v) as [n|] eqn:Hs;
    [|discriminate].
  intros H Hne. inversion H; subst s'.
  cbn [fs_temp with_temp lookup_opt].
  exact (@store_other_branch _ _ _ _ _ _ _ p Hs Hne).
Qed.

(** A turn of the flattening loop for an entry that is not named like
    the project folder leaves everything inside the project folder as it
    is, the entry it copies included. *)
Lemma flatten_item_keeps_folder E name p n :
  name <> repo_name ++ "-main" ->
  preserves (fun s => get s (At TempDir ((repo_name ++ "-main") :: p)) = Some n)
            (flatten_item E name).
Proof.
  intros Hne.
  assert (Hput : forall parents s q v s',
             put parents s (At TempDir (name :: q)) v = Some s' ->
             get s (At TempDir ((repo_name ++ "-main") :: p)) = Some n ->
             get s' (At TempDir ((repo_name ++ "-main") :: p)) = Some n).
  { intros parents s q v s' H Hs.
    rewrite (put_other_branch _ _ _ _ _ H); [assumption|congruence]. }
  unfold flatten_item.
  apply preserves_bind; [apply preserves_is_file|]. intros [|].
  - unfold copy2. apply preserves_bind; [apply preserves_fault|]. intros _.
    intros s r s' Hs H. unfold_monad.
    change (loc_child temp_dir name) with (At TempDir [name]) in H.
    repeat match type of H with
           | context [match ?x with _ => _ end] => destruct x eqn:?
           end;
      inversion H; subst; try congruence;
      match goal with
      | Hp : put _ _ _ _ = Some _ |- _ =>
          repeat match type of Hp with
                 | context [match ?x with _ => _ end] => destruct x
                 end;
          (eapply Hput; [exact Hp|congruence])
      end.
  - apply preserves_bind; [apply preserves_is_dir|]. intros [|];
      [|apply preserves_ret].
    unfold copytree. apply preserves_bind; [apply preserves_fault|]. intros _.
    intros s r s' Hs H. unfold_monad.
    change (loc_child temp_dir name) with (At TempDir [name]) in H.
    repeat match type of H with
           | context [match ?x with _ => _ end] => destruct x eqn:?
           end;
      inversion H; subst; try congruence;
      match goal with
      | Hp : put _ _ _ _ = Some _ |- _ =>
          repeat match type of Hp with
                 | context [match ?x with _ => _ end] => destruct x
                 end;
          (eapply Hput; [exact Hp|congruence])
      end.
Qed.

(** The whole flattening loop leaves the project folder as the extraction
    made it, as long as the folder has no entry named like itself. *)
Lemma flatten_keeps_folder E names folder s r s' :
  ~ In (repo_name ++ "-main") names ->
  get s extracted_dir = Some folder ->
  for_each names (flatten_item E) s = (r, s') ->
  get s' extracted_dir = Some folder.
Proof.
  intros Hnames Hs H.
  assert (Hp : preserves (fun st => get st extracted_dir = Some folder)
                 (for_each names (flatten_item E))).
  { apply preserves_for_each. intros name Hin.
    apply (@flatten_item_keeps_folder E name [] folder).
    intros ->. contradiction. }
  exact (Hp s r s' Hs H).
Qed.

(** C4.  The archive holds the project folder with [main_app.py] and
    [ui/window.py]; the staging directory already has [ui] with [old.py]
    and an older [window.py].  After [download_zip_alternative] the entries
    are one level up, and [ui] was merged ([old.py] kept, [window.py]
    overwritten); but they were copied, not moved: the project folder
    still holds every entry, so a whole run installs the application
    twice, once at the top of the install directory and once inside
    [alex-personal-hub-main], next to [app.zip]. *)
Theorem flatten_copies_and_leaves_the_folder :
  download_zip_alternative archive_served stale_staging
  = (Ok true,
     mkState (Some (Dir []))
       (Some (Dir [ ("ui", Dir [("old.py", File [x6f] 1);
                                ("window.py", File [x62] 8)]);
                    ("app.zip", File [x50; x4b] 100);
                    ("alex-personal-hub-main", Dir project_tree);
                    ("main_app.py", File [x61] 7) ]))
       [] default_manifest [Step4Zip; Step5; FilesExtracted]) /\
  get (snd (download_zip_alternative archive_served stale_staging))
      (loc_child extracted_dir "main_app.py")
  = Some (File [x61] 7) /\
  get (snd (download_zip_alternative archive_served stale_staging))
      (loc_child extracted_dir "ui")
  = Some (Dir [("window.py", File [x62] 8)]) /\
  fs_install (snd (run archive_served fresh))
  = Some (Dir [ ("app.zip", File [x50; x4b] 100);
                ("alex-personal-hub-main", Dir project_tree);
                ("main_app.py", File [x61] 7);
                ("ui", Dir [("window.py", File [x62] 8)]) ]).
Proof. repeat split; vm_compute; reflexivity. Qed.


(** * Further properties *)

(** ** The run as a whole *)

Lemma cleanup_only_staging E s :
  fs_install (snd (cleanup E s)) = fs_install s /\
  fs_elsewhere (snd (cleanup E s)) = fs_elsewhere s /\
  manifest (snd (cleanup E s)) = manifest s /\
  console (snd (cleanup E s)) = console s /\
  (fs_temp s = None -> fs_temp (snd (cleanup E s)) = None).
Proof.
  unfold cleanup, try_bare, exists_, rmtree, fault, bind, get_state,
    set_state, raise, ret.
  destruct s as [i [[d m|es]|] e j c]; simpl;
    destruct (fs_fault E (OpRmtree temp_dir)); simpl; auto.
Qed.

(** X1.  [run] never lets anything out: it always returns [True] or
    [False].  When its [try] body is interrupted it prints the
    cancellation and returns [False]; when the body raises an [Exception]
    it prints the failure and the traceback and returns [False]; in both
    cases nothing else happens before [cleanup]. *)
Theorem run_always_returns :
  forall (E : env) (s : state),
    (exists b s', run E s = (Ok b, s')) /\
    (forall s1,
        run_try E (say Banner s) = (Raise KeyboardInterrupt, s1) ->
        run E s = (Ok false, snd (cleanup E (say Cancelled s1)))) /\
    (forall e s1,
        run_try E (say Banner s) = (Raise (Exception e), s1) ->
        run E s
        = (Ok false,
           snd (cleanup E (say Traceback (say (InstallationFailed e) s1))))).
Proof.
  intros E s. repeat split.
  - rewrite run_unfold. unfold run_guarded, try_interrupt.
    destruct (run_try E (say Banner s)) as [[b|[e|]] s1];
      unfold bind, print, ret; eexists _, _; reflexivity.
  - intros s1 H. rewrite run_unfold. unfold run_guarded, try_interrupt.
    rewrite H. reflexivity.
  - intros e s1 H. rewrite run_unfold. unfold run_guarded, try_interrupt.
    rewrite H. reflexivity.
Qed.

Lemma run_true_inv E s s' :
  run E s = (Ok true, s') ->
  exists s1, run_try E (say Banner s) = (Ok true, s1).
Proof.
  rewrite run_unfold. unfold run_guarded, try_interrupt.
  destruct (run_try E (say Banner s)) as [[[|]|[e|]] s1];
    unfold bind, print, ret; cbn [fst]; intros H; inversion H.
  now exists s1.
Qed.

(** X2.  [run] returns [True] only when every fatal step returned [True]:
    the connectivity check, the directory step, one of the two download
    paths (the fallback only after the archive path returned [False]) and
    the copy step; the manifest step and the dependency step only have
    to return. *)
Theorem run_true_means_every_fatal_step_passed :
  forall (E : env) (s s' : state),
    run E s = (Ok true, s') ->
    exists s1 s2 b3 s3 s4 b5 s5 s6,
      check_internet E (say Banner s) = (Ok true, s1) /\
      create_install_directory E s1 = (Ok true, s2) /\
      download_manifest E s2 = (Ok b3, s3) /\
      (download_zip_alternative E s3 = (Ok true, s4) \/
       exists s3',
         download_zip_alternative E s3 = (Ok false, s3') /\
         download_app_files E (say TryingIndividual s3') = (Ok true, s4)) /\
      install_dependencies E s4 = (Ok b5, s5) /\
      copy_files_to_install_dir E s5 = (Ok true, s6).
Proof.
  intros E s s' H. apply run_true_inv in H as [s0 H].
  unfold run_try in H.
  apply bind_ok_inv in H as (ok1 & s1 & Hprobe & H).
  destruct ok1; cbn [negb] in H; [|unfold ret in H; discriminate].
  apply bind_ok_inv in H as (ok2 & s2 & Hdirs & H).
  destruct ok2; cbn [negb] in H; [|unfold ret in H; discriminate].
  apply bind_ok_inv in H as (b3 & s3 & Hmanifest & H).
  apply bind_ok_inv in H as (ok4 & s4 & Hzip & H).
  assert (Hfinish : forall st,
             run_finish E st = (Ok true, s0) ->
             exists b5 s5 s6,
               install_dependencies E st = (Ok b5, s5) /\
               copy_files_to_install_dir E s5 = (Ok true, s6)).
  { intros st Hf. unfold run_finish in Hf.
    apply bind_ok_inv in Hf as (b5 & s5 & Hdeps & Hf).
    apply bind_ok_inv in Hf as (ok6 & s6 & Hcopy & Hf).
    destruct ok6; cbn [negb] in Hf; [|unfold ret in Hf; discriminate].
    now exists b5, s5, s6. }
  destruct ok4; cbn [negb] in H.
  - destruct (Hfinish _ H) as (b5 & s5 & s6 & Hdeps & Hcopy).
    exists s1, s2, b3, s3, s4, b5, s5, s6. auto 10.
  - apply bind_ok_inv in H as ([] & s4a & Hsay & H).
    unfold print in Hsay. inversion Hsay; subst s4a. clear Hsay.
    apply bind_ok_inv in H as (ok4' & s4' & Hfiles & H).
    destruct ok4'; cbn [negb] in H; [|unfold ret in H; discriminate].
    destruct (Hfinish _ H) as (b5 & s5 & s6 & Hdeps & Hcopy).
    exists s1, s2, b3, s3, s4', b5, s5, s6.
    repeat split; try assumption. right. now exists s4.
Qed.

Lemma run_true_means_every_fatal_step_passed_witness :
  fst (run archive_served fresh) = Ok true /\
  exists s5 s6,
    copy_files_to_install_dir archive_served s5 = (Ok true, s6).
Proof.
  destruct (run archive_served fresh) as [r s'] eqn:Hrun.
  assert (r = Ok true) by (vm_compute in Hrun; now inversion Hrun).
  subst r. split; [reflexivity|].
  destruct (@run_true_means_every_fatal_step_passed archive_served fresh s' Hrun)
    as (s1 & s2 & b3 & s3 & s4 & b5 & s5 & s6 & _ & _ & _ & _ & _ & Hcopy).
  now exists s5, s6.
Defined.

Lemma run_always_returns_witness :
  fst (run interrupted_download fresh) = Ok false /\
  last (console (snd (run interrupted_download fresh))) Banner = Cancelled.
Proof.
  destruct (run_try interrupted_download (say Banner fresh)) as [r s1] eqn:Htry.
  assert (Hr : r = Raise KeyboardInterrupt)
    by (vm_compute in Htry; now inversion Htry).
  subst r.
  rewrite (proj1 (proj2 (run_always_returns interrupted_download fresh)) s1 Htry).
  vm_compute in Htry. inversion Htry; subst s1.
  split; vm_compute; reflexivity.
Defined.

Lemma check_internet_false E s :
  (forall r, http_get E "https://api.github.com" = Ok r ->
             status_code r <> 200) ->
  check_internet E s
  = (Ok false, say PleaseConnect (say NoInternet (say Step1 s))).
Proof.
  intros H.
  unfold check_internet, try_bare, requests_get, bind, lift, print, ret.
  destruct (http_get E "https://api.github.com") as [r|e] eqn:Hget;
    [|reflexivity].
  specialize (H r eq_refl). apply Z.eqb_neq in H. now rewrite H.
Qed.

(** X3.  When the probe does not complete with status 200, [run] returns
    [False] having printed the banner, the step and the two lines about
    the connection and nothing else; it creates no directory, downloads
    nothing and leaves the install directory and the manifest as they
    were.  (Only [cleanup] acts: a staging directory left by an earlier
    run is deleted.) *)
Theorem no_connection_nothing_done :
  forall (E : env) (s : state),
    (forall r, http_get E "https://api.github.com" = Ok r ->
               status_code r <> 200) ->
    fst (run E s) = Ok false /\
    console (snd (run E s))
    = (console s ++ [Banner; Step1; NoInternet; PleaseConnect])%list /\
    fs_install (snd (run E s)) = fs_install s /\
    fs_elsewhere (snd (run E s)) = fs_elsewhere s /\
    manifest (snd (run E s)) = manifest s /\
    (fs_temp s = None -> fs_temp (snd (run E s)) = None).
Proof.
  intros E s H. rewrite run_unfold.
  assert (Hg : run_guarded E (say Banner s)
               = (Ok false,
                  say PleaseConnect (say NoInternet (say Step1 (say Banner s))))).
  { unfold run_guarded, try_interrupt, run_try. unfold bind at 1.
    now rewrite (check_internet_false _ _ H). }
  rewrite Hg. cbn [fst snd].
  destruct (cleanup_only_staging E
              (say PleaseConnect (say NoInternet (say Step1 (say Banner s)))))
    as (Hi & He & Hm & Hc & Ht).
  split; [reflexivity|].
  split; [rewrite Hc; simpl; now rewrite <- !app_assoc|].
  split; [now rewrite Hi|]. split; [now rewrite He|].
  split; [now rewrite Hm|]. intros Hnone. now apply Ht.
Qed.

Lemma no_connection_nothing_done_witness :
  run offline fresh
  = (Ok false,
     mkState None None [] default_manifest
       [Banner; Step1; NoInternet; PleaseConnect]).
Proof.
  destruct (@no_connection_nothing_done offline fresh) as (Hr & Hc & _).
  - intros r Hget. discriminate.
  - vm_compute. reflexivity.
Defined.

(** ** The directory step *)

(** X4.  When no [mkdir] call fails for outside reasons,
    [create_install_directory] creates each of the two directories that
    is missing, empty, and keeps one that exists with all it holds, then
    returns [True].  When the install path is a file it returns [False]
    having created nothing; when only the staging path is a file it
    returns [False] and the install directory it has just created stays.
    Whatever fails, no [Exception] leaves the function. *)
Theorem directories_are_made_or_kept :
  forall (E : env) (s : state),
    (forall name s', create_install_directory E s
                     <> (Raise (Exception name), s')) /\
    (fs_fault E (OpMkdir InstallDir) = None ->
     fs_fault E (OpMkdir TempDir) = None ->
     (is_file_node (fs_install s) = false ->
      is_file_node (fs_temp s) = false ->
      create_install_directory E s
      = (Ok true,
         say InstallDirReady
           (with_temp (with_install (say Step2 s) (made (fs_install s)))
                      (made (fs_temp s))))) /\
     (is_file_node (fs_install s) = true ->
      create_install_directory E s
      = (Ok false, say (MkdirFailed "FileExistsError") (say Step2 s))) /\
     (is_file_node (fs_install s) = false ->
      is_file_node (fs_temp s) = true ->
      create_install_directory E s
      = (Ok false,
         say (MkdirFailed "FileExistsError")
           (with_install (say Step2 s) (made (fs_install s)))))).
Proof.
  intros E s. split.
  - intros name s'. unfold create_install_directory, bind at 1, print at 1.
    apply try_except_not_exception.
    intros e s0 s1 n. unfold bind, print, ret. discriminate.
  - intros Hi Ht.
    unfold create_install_directory, try_except, mkdir, fault.
    rewrite Hi, Ht.
    unfold bind, print, get_state, set_state, raise, ret.
    destruct s as [i t e j c].
    repeat split; intros H1; try intros H2;
      destruct i as [[di mi|ei]|]; try discriminate;
      destruct t as [[dt mt|et]|]; try discriminate; reflexivity.
Qed.

Lemma directories_are_made_or_kept_witness :
  create_install_directory offline fresh
  = (Ok true,
     mkState (Some (Dir [])) (Some (Dir [])) [] default_manifest
       [Step2; InstallDirReady]) /\
  create_install_directory offline bundle_staged
  = (Ok true, say InstallDirReady (say Step2 bundle_staged)).
Proof.
  split.
  - apply (proj1 (proj2 (directories_are_made_or_kept offline fresh)
                    eq_refl eq_refl)); reflexivity.
  - apply (proj1 (proj2 (directories_are_made_or_kept offline bundle_staged)
                    eq_refl eq_refl)); reflexivity.
Defined.

(** ** Downloading one file *)

(** X5.  A request that raises, an answer with a status from 400 to 599
    and an unreadable [content-length] all make [download_file] print the
    failure and return [False] before the destination is opened: no file
    is created and a file that was there keeps its content. *)
Theorem failed_request_writes_nothing :
  forall (E : env) (url : string) (destination : loc) (filename : string)
         (s : state),
    (forall e,
        http_get E url = Raise (Exception e) ->
        download_file E url destination filename s
        = (Ok false, say (DownloadFailed filename e) s)) /\
    (forall r,
        http_get E url = Ok r ->
        status_passes r = false ->
        download_file E url destination filename s
        = (Ok false, say (DownloadFailed filename "HTTPError") s)) /\
    (forall r,
        http_get E url = Ok r ->
        status_passes r = true ->
        content_length r = BadHeader ->
        download_file E url destination filename s
        = (Ok false, say (DownloadFailed filename "ValueError") s)).
Proof.
  intros E url destination filename s.
  unfold download_file, try_except, download_file_try, requests_get,
    raise_for_status, int_content_length, status_passes.
  repeat split.
  - intros e H. unfold bind at 1, lift at 1. rewrite H. reflexivity.
  - intros r H Hst. apply negb_false_iff in Hst.
    unfold bind at 1, lift at 1. rewrite H.
    unfold bind at 1. rewrite Hst. reflexivity.
  - intros r H Hst Hlen. apply negb_true_iff in Hst.
    unfold bind at 1, lift at 1. rewrite H.
    unfold bind at 1. rewrite Hst.
    unfold ret at 1. unfold bind at 1. rewrite Hlen. reflexivity.
Qed.

Lemma failed_request_writes_nothing_witness :
  download_file archive_missing zip_url zip_path "Application Package" old_archive
  = (Ok false,
     mkState (Some (Dir [])) (Some (Dir [("app.zip", File [x6f; x6c; x64] 5)]))
       [] default_manifest [DownloadFailed "Application Package" "HTTPError"]).
Proof.
  apply (proj1 (proj2 (failed_request_writes_nothing archive_missing zip_url
                         zip_path "Application Package" old_archive))
           (mkResponse 404 NoHeader no_body [[x4e]] None));
    reflexivity.
Defined.

Lemma store_existing p :
  forall o n0 v,
    lookup_opt o p = Some n0 -> exists n, store false o p v = Some n.
Proof.
  induction p as [|x q IH]; intros o n0 v H.
  - now exists v.
  - destruct o as [[d m|es]|]; simpl in H; try discriminate.
    destruct (assoc x es) as [c|] eqn:Hc; [|discriminate].
    destruct (IH (Some c) n0 v H) as [c' Hc'].
    exists (Dir (set_entry x c' es)). cbn [store]. rewrite Hc.
    destruct q; now rewrite Hc'.
Qed.

Lemma put_existing s l n0 v :
  get s l = Some n0 -> exists s', put false s l v = Some s'.
Proof.
  destruct l as [[|] p|raw]; simpl; intros H.
  - destruct (store_existing p _ v H) as [n Hn]. rewrite Hn. simpl. eauto.
  - destruct (store_existing p _ v H) as [n Hn]. rewrite Hn. simpl. eauto.
  - eauto.
Qed.

Lemma write_loop_succeeds E l chunks :
  fs_fault E (OpWrite l) = None ->
  forall s d m,
    get s l = Some (File d m) ->
    exists s' m',
      for_each chunks
        (fun chunk => match chunk with
                      | [] => ret tt
                      | _ :: _ => file_write E l chunk
                      end) s = (Ok tt, s') /\
      get s' l = Some (File (d ++ List.concat chunks) m').
Proof.
  intros Hf. induction chunks as [|chunk chunks IH]; intros s d m Hget.
  - exists s, m. simpl. rewrite app_nil_r. auto.
  - destruct chunk as [|b chunk].
    + destruct (IH s d m Hget) as (s' & m' & Hloop & Hfile).
      exists s', m'. cbn [for_each]. unfold bind at 1, ret at 1. auto.
    + destruct (put_existing s l (File (d ++ b :: chunk) (now E)) Hget)
        as [s1 Hput].
      destruct (IH s1 _ _ (get_put_same _ _ _ _ Hput)) as (s' & m' & Hloop & Hfile).
      assert (Hw : file_write E l (b :: chunk) s = (Ok tt, s1)).
      { unfold file_write, fault. rewrite Hf.
        unfold bind at 1, ret at 1. unfold bind at 1, get_state at 1.
        now rewrite Hget, Hput. }
      exists s', m'. split.
      * cbn [for_each]. unfold bind at 1. now rewrite Hw.
      * rewrite Hfile. simpl. now rewrite <- app_assoc.
Qed.

Lemma download_file_try_writes E url destination s r :
  http_get E url = Ok r ->
  status_passes r = true ->
  content_length r <> BadHeader ->
  writable E s destination ->
  exists s1 m,
    get s1 destination = Some (File (List.concat (body_chunks r)) m) /\
    download_file_try E url destination s
    = (match body_error r with
       | None => Ok true
       | Some e => Raise e
       end, s1).
Proof.
  intros Hget Hst Hlen (Hopen & Hwrite & Hnodir & s0 & Hput).
  apply negb_true_iff in Hst.
  destruct (@write_loop_succeeds E destination (body_chunks r) Hwrite s0 [] _
              (get_put_same _ _ _ _ Hput)) as (s1 & m & Hloop & Hfile).
  exists s1, m. split; [exact Hfile|].
  unfold download_file_try, requests_get. unfold bind at 1, lift at 1.
  rewrite Hget. unfold bind at 1, raise_for_status at 1. rewrite Hst.
  unfold ret at 1. unfold bind at 1.
  assert (Hint : exists n, int_content_length r s = (Ok n, s)).
  { unfold int_content_length. destruct (content_length r);
      unfold ret; eauto. congruence. }
  destruct Hint as [n ->].
  unfold bind at 1. unfold open_wb, fault. rewrite Hopen.
  unfold bind at 1, ret at 1. unfold bind at 1, get_state at 1.
  rewrite Hput.
  assert (Hset : match get s destination with
                 | Some (Dir _) => raise (Exception "IsADirectoryError")
                 | _ => set_state s0
                 end s = (Ok tt, s0)).
  { destruct (get s destination) as [[d0 m0|es]|] eqn:Hd; try reflexivity.
    exfalso. exact (Hnodir es eq_refl). }
  rewrite Hset. unfold write_chunks. unfold bind at 1. unfold bind at 1.
  rewrite Hloop. destruct (body_error r); reflexivity.
Qed.

(** X6.  When the request is answered with a passing status and the
    destination can be written, [download_file] returns [True] if the body
    arrives whole, and the destination then holds exactly the bytes of the
    body, in the order they came, whatever it held before. *)
Theorem download_writes_the_body :
  forall (E : env) (url : string) (destination : loc) (filename : string)
         (s : state) (r : response),
    http_get E url = Ok r ->
    status_passes r = true ->
    content_length r <> BadHeader ->
    writable E s destination ->
    body_error r = None ->
    exists s1 m,
      download_file E url destination filename s = (Ok true, s1) /\
      get s1 destination = Some (File (List.concat (body_chunks r)) m) /\
      console s1 = console s.
Proof.
  intros E url destination filename s r Hget Hst Hlen Hw Hbody.
  destruct (download_file_try_writes _ Hget Hst Hlen Hw)
    as (s1 & m & Hfile & Htry).
  rewrite Hbody in Htry.
  exists s1, m. split; [|split; [exact Hfile|]].
  - unfold download_file, try_except. now rewrite Htry.
  - assert (Hp : preserves (emitted (console s) (fun _ => False))
                   (download_file_try E url destination)).
    { pose proof (@emitted_blind (console s) (fun _ => False)) as HP.
      unfold download_file_try, requests_get.
      apply preserves_bind; [apply preserves_lift|]. intros r0.
      apply preserves_bind.
      { unfold raise_for_status. destruct (_ && _);
          [apply preserves_raise|apply preserves_ret]. }
      intros _. apply preserves_bind.
      { unfold int_content_length. destruct (content_length r0);
          [apply preserves_ret|apply preserves_ret|apply preserves_raise]. }
      intros _. apply preserves_bind; [now apply blind_open_wb|].
      intros _. apply preserves_bind; [|intros _; apply preserves_ret].
      unfold write_chunks. apply preserves_bind.
      + apply preserves_for_each. intros [|b chunk] _;
          [apply preserves_ret|now apply blind_file_write].
      + intros _. destruct (body_error r0);
          [apply preserves_raise|apply preserves_ret]. }
    destruct (Hp _ _ _ (emitted_start _ _) Htry) as (out & Hout & Hnone).
    destruct out as [|x out]; [now rewrite app_nil_r in Hout|].
    inversion Hnone; contradiction.
Qed.

Lemma writable_archive_path E s entries :
  fs_fault E (OpOpen zip_path) = None ->
  fs_fault E (OpWrite zip_path) = None ->
  fs_temp s = Some (Dir entries) ->
  (forall es, assoc "app.zip" entries <> Some (Dir es)) ->
  writable E s zip_path.
Proof.
  intros Ho Hw Ht Hnodir. repeat split; try assumption.
  - intros es H. apply (Hnodir es).
    change (get s zip_path) with (lookup_opt (fs_temp s) ["app.zip"]) in H.
    now rewrite Ht, lookup_top_dir in H.
  - change zip_path with (At TempDir ["app.zip"]). unfold put. rewrite Ht.
    cbn [store]. destruct (assoc "app.zip" entries); simpl; eauto.
Qed.

Lemma download_writes_the_body_witness :
  exists s1,
    download_file archive_served zip_url zip_path "Application Package"
      old_archive = (Ok true, s1) /\
    get s1 zip_path = Some (File [x50; x4b] 100).
Proof.
  destruct (@download_writes_the_body archive_served zip_url zip_path
              "Application Package" old_archive
              (mkResponse 200 (IntHeader 2) no_body [[x50; x4b]] None))
    as (s1 & m & Hrun & Hfile & _); try reflexivity.
  - discriminate.
  - apply writable_archive_path with (entries := [("app.zip", File [x6f; x6c; x64] 5)]);
      try reflexivity.
    intros es H. discriminate.
  - exists s1. split; [exact Hrun|].
    vm_compute in Hrun. inversion Hrun; subst s1. reflexivity.
Defined.

(** X7.  When the stream breaks with an [Exception] after some chunks,
    [download_file] prints the failure and returns [False], and the
    destination is left holding the chunks that had arrived: the partial
    file is not removed. *)
Theorem broken_stream_leaves_partial_file :
  forall (E : env) (url : string) (destination : loc) (filename : string)
         (s : state) (r : response) (e : string),
    http_get E url = Ok r ->
    status_passes r = true ->
    content_length r <> BadHeader ->
    writable E s destination ->
    body_error r = Some (Exception e) ->
    exists s1 m,
      download_file E url destination filename s
      = (Ok false, say (DownloadFailed filename e) s1) /\
      get (say (DownloadFailed filename e) s1) destination
      = Some (File (List.concat (body_chunks r)) m).
Proof.
  intros E url destination filename s r e Hget Hst Hlen Hw Hbody.
  destruct (download_file_try_writes _ Hget Hst Hlen Hw)
    as (s1 & m & Hfile & Htry).
  rewrite Hbody in Htry.
  exists s1, m. split.
  - unfold download_file, try_except. now rewrite Htry.
  - now rewrite get_say.
Qed.

Lemma broken_stream_leaves_partial_file_witness :
  exists s' m,
    download_file broken_stream zip_url zip_path "Application Package" prepared
    = (Ok false, s') /\
    get s' zip_path = Some (File [x50; x4b] m).
Proof.
  destruct (@broken_stream_leaves_partial_file broken_stream zip_url zip_path
              "Application Package" prepared
              (mkResponse 200 (IntHeader 9) no_body [[x50]; [x4b]]
                 (Some (Exception "ChunkedEncodingError")))
              "ChunkedEncodingError")
    as (s1 & m & Hrun & Hfile); try reflexivity.
  - discriminate.
  - apply writable_archive_path with (entries := []); try reflexivity.
    intros es H. discriminate.
  - eexists _, m. split; [exact Hrun|exact Hfile].
Defined.

(** ** What every step leaves alone *)

Lemma preserves_try_interrupt P (A : Type) (body on_interrupt : M A) handler :
  preserves P body -> preserves P on_interrupt ->
  (forall e, preserves P (handler e)) ->
  preserves P (try_interrupt body on_interrupt handler).
Proof.
  intros Hb Hi Hh s r s' HP H. unfold try_interrupt in H.
  destruct (body s) as [[a|[e|]] s1] eqn:Hbs.
  - inversion H; subst. eapply Hb; eassumption.
  - eapply Hh; [|eassumption]. eapply Hb; eassumption.
  - eapply Hi; [|eassumption]. eapply Hb; eassumption.
Qed.

Lemma preserves_finally P (A : Type) (body : M A) (fin : M unit) :
  preserves P body -> preserves P fin -> preserves P (finally body fin).
Proof.
  intros Hb Hf s r s' HP H. unfold finally in H.
  destruct (body s) as [r1 s1] eqn:Hbs.
  destruct (fin s1) as [[u|e] s2] eqn:Hfs; inversion H; subst;
    (eapply Hf; [|eassumption]); eapply Hb; eassumption.
Qed.

Ltac steps HP Hprint :=
  repeat (intros;
          match goal with
          | |- preserves _ (bind _ _) => apply preserves_bind
          | |- preserves _ (ret _) => apply preserves_ret
          | |- preserves _ (raise _) => apply preserves_raise
          | |- preserves _ (lift _) => apply preserves_lift
          | |- preserves _ get_state =>
              apply (preserves_reads _ (fun st => Ok st))
          | |- preserves _ (print _) => apply Hprint; discriminate
          | |- preserves _ (try_except _ _) => apply preserves_try_except
          | |- preserves _ (try_bare _ _) => apply preserves_try_bare
          | |- preserves _ (for_each _ _) => apply preserves_for_each
          | |- preserves _ (for_fold _ _ _) => apply preserves_for_fold
          | |- preserves _ (exists_ _) => apply preserves_exists_
          | |- preserves _ (is_file _) => apply preserves_is_file
          | |- preserves _ (is_dir _) => apply preserves_is_dir
          | |- preserves _ (iterdir _) => apply preserves_iterdir
          | |- preserves _ (getsize _ _) => apply preserves_getsize
          | |- preserves _ (fault _ _) => apply preserves_fault
          | |- preserves _ (mkdir _ _) => apply blind_mkdir; exact HP
          | |- preserves _ (open_wb _ _) => apply blind_open_wb; exact HP
          | |- preserves _ (file_write _ _ _) =>
              apply blind_file_write; exact HP
          | |- preserves _ (copy2 _ _ _) => apply blind_copy2; exact HP
          | |- preserves _ (copytree _ _ _ _) =>
              apply blind_copytree; exact HP
          | |- preserves _ (rmtree _ _) => apply blind_rmtree; exact HP
          | |- preserves _ (extractall _ _ _) =>
              apply blind_extractall; exact HP
          | |- preserves _ (chdir _ _) => apply blind_chdir; exact HP
          | |- preserves _ (if ?b then _ else _) => destruct b
          | |- preserves _ (match ?x with _ => _ end) => destruct x
          end).

Section Steps.

Variable P : state -> Prop.
Hypothesis HP : fs_blind P.
Hypothesis Hprint : forall m, m <> Launching -> preserves P (print m).
Variable E : env.

Lemma step_check_internet : preserves P (check_internet E).
Proof. unfold check_internet, requests_get. steps HP Hprint. Qed.

Lemma step_create_install_directory :
  preserves P (create_install_directory E).
Proof. unfold create_install_directory. steps HP Hprint. Qed.

Lemma step_download_file url destination filename :
  preserves P (download_file E url destination filename).
Proof.
  unfold download_file, download_file_try, requests_get, raise_for_status,
    int_content_length, write_chunks.
  steps HP Hprint.
Qed.

Lemma step_download_app_files : preserves P (download_app_files E).
Proof.
  unfold download_app_files. steps HP Hprint.
  intros [filename file_info] acc _. unfold download_app_file.
  apply preserves_bind; [apply step_download_file|].
  steps HP Hprint.
Qed.

Lemma step_download_zip_alternative :
  preserves P (download_zip_alternative E).
Proof.
  unfold download_zip_alternative.
  apply preserves_bind; [apply Hprint; discriminate|]. intros _.
  apply preserves_bind; [apply step_download_file|]. intros ok.
  unfold extract_try, flatten_item. steps HP Hprint.
Qed.

Lemma step_install_dependencies : preserves P (install_dependencies E).
Proof. unfold install_dependencies. steps HP Hprint. Qed.

Lemma step_copy_files_to_install_dir :
  preserves P (copy_files_to_install_dir E).
Proof. unfold copy_files_to_install_dir, copy_item. steps HP Hprint. Qed.

Lemma step_create_desktop_shortcut :
  preserves P (create_desktop_shortcut E).
Proof.
  unfold create_desktop_shortcut, create_windows_shortcut,
    create_mac_shortcut, create_linux_shortcut.
  steps HP Hprint.
Qed.

Lemma step_cleanup : preserves P (cleanup E).
Proof. unfold cleanup. steps HP Hprint. Qed.

End Steps.

(** X8.  [self.manifest] is assigned by [download_manifest] alone: no
    other step changes it, however the step ends. *)
Theorem manifest_is_set_by_the_manifest_step_alone :
  forall (E : env) (j : json),
    preserves (fun s => manifest s = j) (check_internet E) /\
    preserves (fun s => manifest s = j) (create_install_directory E) /\
    preserves (fun s => manifest s = j) (download_zip_alternative E) /\
    preserves (fun s => manifest s = j) (download_app_files E) /\
    preserves (fun s => manifest s = j) (install_dependencies E) /\
    preserves (fun s => manifest s = j) (copy_files_to_install_dir E) /\
    preserves (fun s => manifest s = j) (create_desktop_shortcut E) /\
    preserves (fun s => manifest s = j) (cleanup E).
Proof.
  intros E j.
  assert (HP : fs_blind (fun s => manifest s = j)).
  { intros s s' Hm _ H. congruence. }
  assert (Hprint : forall m, m <> Launching ->
                             preserves (fun s => manifest s = j) (print m)).
  { intros m _ s r s' H Hrun. unfold print in Hrun. now inversion Hrun. }
  repeat split.
  - now apply step_check_internet.
  - now apply step_create_install_directory.
  - now apply step_download_zip_alternative.
  - now apply step_download_app_files.
  - now apply step_install_dependencies.
  - now apply step_copy_files_to_install_dir.
  - now apply step_create_desktop_shortcut.
  - now apply step_cleanup.
Qed.

Lemma manifest_is_set_by_the_manifest_step_alone_witness :
  manifest (snd (download_app_files one_longer_file prepared))
  = default_manifest.
Proof.
  destruct (download_app_files one_longer_file prepared) as [r s'] eqn:Hrun.
  exact (proj1 (proj2 (proj2 (proj2
           (manifest_is_set_by_the_manifest_step_alone one_longer_file
              default_manifest))))
           prepared r s' eq_refl Hrun).
Defined.

(** ** The launch prompt *)

Lemma upper_ascii_Y c :
  upper_ascii c = "Y"%char -> c = "y"%char \/ c = "Y"%char.
Proof.
  destruct c as [[] [] [] [] [] [] [] []]; vm_compute; intros H;
    try discriminate; auto.
Qed.

Lemma py_upper_Y t :
  py_upper t = "Y" <-> t = "y" \/ t = "Y".
Proof.
  split.
  - destruct t as [|c [|c' t']]; unfold py_upper; simpl; intros H;
      try discriminate.
    inversion H as [Hc]. apply upper_ascii_Y in Hc as [->| ->]; auto.
  - intros [->| ->]; reflexivity.
Qed.

Lemma preserves_bind_ok P (A B : Type) (a : A) (k : A -> M B) :
  preserves P (k a) -> preserves P (bind (lift (Ok a)) k).
Proof. intros Hk s r s' HP H. unfold bind, lift in H. eapply Hk; eassumption. Qed.

Lemma In_drop_spaces c l : In c (drop_spaces l) -> In c l.
Proof.
  induction l as [|c0 l IH]; simpl; [tauto|].
  destruct (is_space c0); [auto|]. simpl. tauto.
Qed.

Lemma In_py_strip c line :
  In c (list_ascii_of_string (py_strip line)) ->
  In c (list_ascii_of_string line).
Proof.
  unfold py_strip. rewrite list_ascii_of_string_of_list_ascii.
  intros H. apply in_rev, In_drop_spaces, in_rev, In_drop_spaces in H.
  exact H.
Qed.

Lemma stripped_yes_mentions_y line :
  py_strip line = "y" \/ py_strip line = "Y" -> mentions_y line = true.
Proof.
  intros H. unfold mentions_y. apply existsb_exists.
  destruct H as [H|H].
  - exists "y"%char. split; [|reflexivity].
    apply In_py_strip. rewrite H. now left.
  - exists "Y"%char. split; [|reflexivity].
    apply In_py_strip. rewrite H. now left.
Qed.

(** X9.  After a successful copy the application is launched only on a
    yes.  When the line read from the standard input is ASCII text that,
    with the blanks at both ends stripped, is neither [y] nor [Y], the
    steps after the download never announce a launch, whatever else
    happens in them; and the same holds for every line that has no [y]
    and no [Y] in it at all. *)
Theorem launch_only_on_yes :
  forall (E : env) (line : string) (s : state) (r : result bool) (s' : state),
    stdin_line E = Ok line ->
    (ascii_text line = true /\ py_strip line <> "y" /\ py_strip line <> "Y")
    \/ mentions_y line = false ->
    run_finish E s = (r, s') ->
    exists out,
      console s' = (console s ++ out)%list /\ ~ In Launching out.
Proof.
  intros E line s r s' Hline Hanswer Hrun.
  assert (Hno : String.eqb (py_upper (py_strip line)) "Y" = false).
  { apply String.eqb_neq. rewrite py_upper_Y. intros Hyes.
    destruct Hanswer as [(_ & Hy & HY)|Hnone]; [tauto|].
    apply stripped_yes_mentions_y in Hyes. congruence. }
  set (Q := fun m : msg => m <> Launching).
  pose proof (@emitted_blind (console s) Q) as HP.
  assert (Hprint : forall m, m <> Launching ->
                             preserves (emitted (console s) Q) (print m)).
  { intros m Hm. now apply emitted_print. }
  assert (Hp : preserves (emitted (console s) Q) (run_finish E)).
  { unfold run_finish. rewrite Hline.
    apply preserves_bind; [now apply step_install_dependencies|]. intros _.
    apply preserves_bind; [now apply step_copy_files_to_install_dir|].
    intros ok. destruct (negb ok); [apply preserves_ret|].
    apply preserves_bind; [now apply step_create_desktop_shortcut|]. intros _.
    do 8 (apply preserves_bind; [apply Hprint; discriminate|]; intros _).
    apply preserves_bind_ok. cbv beta zeta. rewrite Hno.
    apply preserves_bind; [apply preserves_ret|]. intros _.
    apply preserves_ret. }
  destruct (Hp s r s' (emitted_start _ _) Hrun) as (out & Hout & Hall).
  exists out. split; [exact Hout|].
  intros Hin. rewrite Forall_forall in Hall. now apply (Hall _ Hin).
Qed.

Lemma launch_only_on_yes_witness :
  fst (run_finish (answering " yes ") bundle_staged) = Ok true /\
  ~ In Launching (console (snd (run_finish (answering " yes ") bundle_staged))).
Proof.
  split; [vm_compute; reflexivity|].
  destruct (run_finish (answering " yes ") bundle_staged) as [r s'] eqn:Hrun.
  destruct (@launch_only_on_yes (answering " yes ") " yes " bundle_staged r s'
              eq_refl) as (out & Hout & Hnot); try exact Hrun.
  - left. split; [reflexivity|]. split; vm_compute; discriminate.
  - cbn [snd]. rewrite Hout. exact Hnot.
Defined.

(** ** Which tree a step writes to *)

Lemma put_untouched parents s l v s' r :
  touches l r = false ->
  put parents s l v = Some s' ->
  tree_of s' r = tree_of s r.
Proof.
  destruct l as [[|] p|raw]; destruct r; simpl; try discriminate;
    intros _ H; unfold option_map in H;
    repeat match type of H with
           | context [match ?x with _ => _ end] => destruct x
           end;
    try discriminate; now inversion H.
Qed.

Lemma del_untouched s l s' r :
  touches l r = false ->
  del s l = Some s' ->
  tree_of s' r = tree_of s r.
Proof.
  destruct l as [[|] p|raw]; destruct r; simpl; try discriminate;
    intros _ H; unfold option_map in H;
    repeat match type of H with
           | context [match ?x with _ => _ end] => destruct x
           end;
    try discriminate; now inversion H.
Qed.

Lemma touches_child l name r : touches (loc_child l name) r = touches l r.
Proof. now destruct l. Qed.

Lemma touches_temp_child filename : touches (temp_child filename) InstallDir = false.
Proof. unfold temp_child. now destruct (_ || _). Qed.

Ltac tree_step Hl :=
  let s := fresh "s" in
  let r0 := fresh "r0" in
  let s' := fresh "s'" in
  let Hs := fresh "Hs" in
  let H := fresh "H" in
  apply preserves_bind; [apply preserves_fault|]; intros _;
  intros s r0 s' Hs H; unfold_monad;
  repeat match type of H with
         | context [match ?x with _ => _ end] => destruct x eqn:?
         end;
  inversion H; subst; try reflexivity;
  match goal with
  | Hp : put _ _ _ _ = Some _ |- _ =>
      repeat match type of Hp with
             | context [match ?x with _ => _ end] => destruct x
             end;
      (eapply put_untouched;
       [|exact Hp]; rewrite ?touches_child; exact Hl)
  | Hd : del _ _ = Some _ |- _ =>
      eapply del_untouched; [|exact Hd]; exact Hl
  end.

Section Trees.

Variable E : env.
Variable r : root.
Variable t : option node.

Let P : state -> Prop := fun s => tree_of s r = t.

Lemma tree_print m : preserves P (print m).
Proof.
  intros s r0 s' Hs H. unfold print in H. inversion H; subst.
  unfold P in *. now destruct r.
Qed.

Lemma tree_open_wb l : touches l r = false -> preserves P (open_wb E l).
Proof. intros Hl. unfold open_wb, P. tree_step Hl. Qed.

Lemma tree_file_write l chunk :
  touches l r = false -> preserves P (file_write E l chunk).
Proof. intros Hl. unfold file_write, P. tree_step Hl. Qed.

Lemma tree_copy2 src dst :
  touches dst r = false -> preserves P (copy2 E src dst).
Proof. intros Hl. unfold copy2, P. tree_step Hl. Qed.

Lemma tree_copytree src dst flag :
  touches dst r = false -> preserves P (copytree E src dst flag).
Proof. intros Hl. unfold copytree, P. tree_step Hl. Qed.

Lemma tree_rmtree l : touches l r = false -> preserves P (rmtree E l).
Proof. intros Hl. unfold rmtree, P. tree_step Hl. Qed.

Lemma tree_extractall archive target :
  touches target r = false -> preserves P (extractall E archive target).
Proof. intros Hl. unfold extractall, P. tree_step Hl. Qed.

End Trees.

Ltac tsteps :=
  repeat (intros;
          match goal with
          | |- preserves _ (bind _ _) => apply preserves_bind
          | |- preserves _ (ret _) => apply preserves_ret
          | |- preserves _ (raise _) => apply preserves_raise
          | |- preserves _ (lift _) => apply preserves_lift
          | |- preserves _ get_state =>
              apply (preserves_reads _ (fun st => Ok st))
          | |- preserves _ (print _) => apply tree_print
          | |- preserves _ (try_except _ _) => apply preserves_try_except
          | |- preserves _ (try_bare _ _) => apply preserves_try_bare
          | |- preserves _ (for_each _ _) => apply preserves_for_each
          | |- preserves _ (for_fold _ _ _) => apply preserves_for_fold
          | |- preserves _ (exists_ _) => apply preserves_exists_
          | |- preserves _ (is_file _) => apply preserves_is_file
          | |- preserves _ (is_dir _) => apply preserves_is_dir
          | |- preserves _ (iterdir _) => apply preserves_iterdir
          | |- preserves _ (getsize _ _) => apply preserves_getsize
          | |- preserves _ (open_wb _ _) => apply tree_open_wb
          | |- preserves _ (file_write _ _ _) => apply tree_file_write
          | |- preserves _ (copy2 _ _ _) => apply tree_copy2
          | |- preserves _ (copytree _ _ _ _) => apply tree_copytree
          | |- preserves _ (rmtree _ _) => apply tree_rmtree
          | |- preserves _ (extractall _ _ _) => apply tree_extractall
          | |- touches _ _ = false =>
              first [reflexivity
                    |rewrite ?touches_child; first [assumption|reflexivity]]
          | |- preserves _ (if ?b then _ else _) => destruct b
          | |- preserves _ (match ?x with _ => _ end) => destruct x
          end).

Section TreeSteps.

Variable E : env.
Variable r : root.
Variable t : option node.

Lemma tree_check_internet :
  preserves (fun s => tree_of s r = t) (check_internet E).
Proof. unfold check_internet, requests_get. tsteps. Qed.

Lemma tree_download_file url destination filename :
  touches destination r = false ->
  preserves (fun s => tree_of s r = t)
            (download_file E url destination filename).
Proof.
  intros Hl.
  unfold download_file, download_file_try, requests_get, raise_for_status,
    int_content_length, write_chunks.
  tsteps.
Qed.

Lemma tree_install_dependencies :
  preserves (fun s => tree_of s r = t) (install_dependencies E).
Proof. unfold install_dependencies. tsteps. Qed.

Lemma tree_download_manifest :
  preserves (fun s => tree_of s r = t) (download_manifest E).
Proof.
  assert (Hset : forall j,
             preserves (fun s => tree_of s r = t)
               (s <- get_state ;; set_state (with_manifest s j))).
  { intros j s r0 s' Hs H. unfold bind, get_state, set_state in H.
    inversion H; subst. now destruct r. }
  assert (Hset' : forall j (k : M (option bool)),
             preserves (fun s => tree_of s r = t) k ->
             preserves (fun s => tree_of s r = t)
               (s <- get_state ;; set_state (with_manifest s j) ;; k)).
  { intros j k Hk s r0 s' Hs H. unfold bind at 1 2, get_state, set_state in H.
    eapply Hk; [|exact H]. now destruct r. }
  unfold download_manifest, requests_get.
  apply preserves_bind; [apply tree_print|]. intros _.
  apply preserves_bind; [|tsteps].
  apply preserves_try_except; [|tsteps].
  apply preserves_bind; [apply preserves_lift|]. intros response.
  destruct (status_code response =? 200); [|apply preserves_ret].
  apply preserves_bind; [apply preserves_lift|]. intros j.
  apply Hset'.
  apply preserves_bind; [apply (preserves_reads _ (fun st => Ok st))|].
  intros s0. apply preserves_bind; [apply preserves_lift|]. intros wrapped.
  apply preserves_bind; [|tsteps].
  destruct wrapped; [|apply preserves_ret].
  apply preserves_bind; [apply (preserves_reads _ (fun st => Ok st))|].
  intros s1. apply preserves_bind; [apply preserves_lift|]. intros c.
  apply preserves_bind; [destruct c; tsteps|]. intros content.
  apply preserves_bind; [apply preserves_lift|]. intros j'.
  apply Hset.
Qed.

End TreeSteps.

(** X10.  The steps around the download write nothing into the install
    directory: the connectivity check, the manifest step, the archive
    path (download, extraction and flattening) and the dependency step
    leave it exactly as it is, however they end, and so does
    [cleanup]. *)
Theorem install_directory_untouched_before_the_copy :
  forall (E : env) (i : option node),
    preserves (fun s => fs_install s = i) (check_internet E) /\
    preserves (fun s => fs_install s = i) (download_manifest E) /\
    preserves (fun s => fs_install s = i) (download_zip_alternative E) /\
    preserves (fun s => fs_install s = i) (install_dependencies E) /\
    preserves (fun s => fs_install s = i) (cleanup E).
Proof.
  intros E i.
  change (fun s => fs_install s = i) with (fun s => tree_of s InstallDir = i).
  repeat split.
  - apply tree_check_internet.
  - apply tree_download_manifest.
  - unfold download_zip_alternative.
    apply preserves_bind; [apply tree_print|]. intros _.
    apply preserves_bind; [now apply tree_download_file|]. intros ok.
    unfold extract_try, flatten_item. tsteps.
  - apply tree_install_dependencies.
  - unfold cleanup. tsteps.
Qed.

Lemma install_directory_untouched_before_the_copy_witness :
  fs_install (snd (download_zip_alternative archive_served bundle_staged))
  = fs_install bundle_staged.
Proof.
  destruct (download_zip_alternative archive_served bundle_staged)
    as [r s'] eqn:Hrun.
  exact (proj1 (proj2 (proj2
           (install_directory_untouched_before_the_copy archive_served
              (fs_install bundle_staged))))
           bundle_staged r s' eq_refl Hrun).
Defined.

(** X11.  The copy step reads the staging directory and never changes
    it, whether it returns [True] or fails half way; the dependency step
    and the shortcut step do not change it either. *)
Theorem staging_untouched_by_the_copy :
  forall (E : env) (t : option node),
    preserves (fun s => fs_temp s = t) (copy_files_to_install_dir E) /\
    preserves (fun s => fs_temp s = t) (install_dependencies E) /\
    preserves (fun s => fs_temp s = t) (create_desktop_shortcut E).
Proof.
  intros E t.
  change (fun s => fs_temp s = t) with (fun s => tree_of s TempDir = t).
  repeat split.
  - unfold copy_files_to_install_dir, copy_item. tsteps.
  - apply tree_install_dependencies.
  - unfold create_desktop_shortcut, create_windows_shortcut,
      create_mac_shortcut, create_linux_shortcut.
    tsteps.
Qed.

Lemma staging_untouched_by_the_copy_witness :
  fs_temp (snd (copy_files_to_install_dir probe_answers bundle_staged))
  = fs_temp bundle_staged.
Proof.
  destruct (copy_files_to_install_dir probe_answers bundle_staged)
    as [r s'] eqn:Hrun.
  exact (proj1 (staging_untouched_by_the_copy probe_answers
                  (fs_temp bundle_staged))
           bundle_staged r s' eq_refl Hrun).
Defined.

(** ** The dependency step *)

(** X12.  [install_dependencies] writes nothing into the install
    directory or the staging directory and lets no [Exception] out.  Without [requirements.txt] in staging it always
    returns, an interrupt of [pip] included, and returns [True] exactly
    when the one [pip] command succeeds; with it, when it returns it
    returns [True] exactly when both [pip] commands succeed. *)
Theorem dependencies_step_outcomes :
  forall (E : env) (s : state),
    (forall name s', install_dependencies E s
                     <> (Raise (Exception name), s')) /\
    same_directories s (snd (install_dependencies E s)) /\
    (get s (loc_child temp_dir "requirements.txt") = None ->
     exists b s',
       install_dependencies E s = (Ok b, s') /\
       (b = true <-> check_call E PipInstallPyQt6 = Ok tt)) /\
    (get s (loc_child temp_dir "requirements.txt") <> None ->
     forall b s',
       install_dependencies E s = (Ok b, s') ->
       (b = true <->
        check_call E PipUpgradePip = Ok tt /\
        check_call E PipInstallRequirements = Ok tt)).
Proof.
  intros E s.
  unfold install_dependencies, try_except, try_bare, exists_, same_directories.
  unfold bind, print, lift, ret. rewrite !get_say.
  destruct (get s (loc_child temp_dir "requirements.txt")) as [n|];
    destruct (check_call E PipInstallPyQt6) as [[]|[e0|]];
    destruct (check_call E PipUpgradePip) as [[]|[e1|]];
    destruct (check_call E PipInstallRequirements) as [[]|[e2|]];
    cbv beta iota; cbn [fst snd];
    (split; [intros name s'; discriminate|]);
    (split; [repeat split|]);
    split.
  all: try (intros Hnone; discriminate).
  all: try (intros Hsome b s' H; exfalso; apply Hsome; reflexivity).
  all: try (intros Hnone; eexists _, _; split; [reflexivity|];
            split; intros H; solve [reflexivity|discriminate]).
  all: intros Hsome b s' H; try discriminate; inversion H; subst;
    split; [intros Hb; solve [discriminate|auto]
           |intros [H1 H2]; solve [discriminate|reflexivity]].
Qed.

Lemma dependencies_step_outcomes_witness :
  install_dependencies pip_interrupted prepared
  = (Ok false, say SkippingDependencies (say Step6 prepared)) /\
  install_dependencies pip_fails prepared
  = (Ok false, say SkippingDependencies (say Step6 prepared)).
Proof.
  split.
  - destruct (proj1 (proj2 (proj2 (dependencies_step_outcomes
                                     pip_interrupted prepared))) eq_refl)
      as (b & s' & Hrun & _).
    rewrite Hrun. vm_compute in Hrun. now inversion Hrun.
  - destruct (proj1 (proj2 (proj2 (dependencies_step_outcomes
                                     pip_fails prepared))) eq_refl)
      as (b & s' & Hrun & _).
    rewrite Hrun. vm_compute in Hrun. now inversion Hrun.
Defined.

(** ** The shortcut step *)

Lemma put_say parents m s l v s0 :
  put parents s l v = Some s0 ->
  put parents (say m s) l v = Some (say m s0).
Proof.
  destruct l as [[|] p|raw]; simpl; unfold option_map.
  - destruct (store parents (fs_install s) p v); [|discriminate].
    intros H. now inversion H.
  - destruct (store parents (fs_temp s) p v); [|discriminate].
    intros H. now inversion H.
  - intros H. now inversion H.
Qed.

Lemma writable_say E m s l : writable E s l -> writable E (say m s) l.
Proof.
  intros (Ho & Hw & Hnodir & s0 & Hput).
  split; [exact Ho|]. split; [exact Hw|]. split.
  - intros es. rewrite get_say. apply Hnodir.
  - exists (say m s0). now apply put_say.
Qed.

Lemma open_write_succeeds E l data s :
  writable E s l ->
  exists s1 m,
    (open_wb E l ;; file_write E l data) s = (Ok tt, s1) /\
    get s1 l = Some (File data m) /\
    console s1 = console s.
Proof.
  intros (Ho & Hw & Hnodir & s0 & Hput).
  destruct (put_existing s0 l (File data (now E)) (get_put_same _ _ _ _ Hput))
    as [s1 Hput1].
  exists s1, (now E). split; [|split].
  - unfold bind at 1. unfold open_wb, fault. rewrite Ho.
    unfold bind at 1, ret at 1. unfold bind at 1, get_state at 1.
    rewrite Hput.
    assert (Hset : match get s l with
                   | Some (Dir _) => raise (Exception "IsADirectoryError")
                   | _ => set_state s0
                   end s = (Ok tt, s0)).
    { destruct (get s l) as [[d0 m0|es]|] eqn:Hd; try reflexivity.
      exfalso. exact (Hnodir es eq_refl). }
    rewrite Hset. unfold file_write, fault. rewrite Hw.
    unfold bind at 1, ret at 1. unfold bind at 1, get_state at 1.
    rewrite (get_put_same _ _ _ _ Hput). cbn [app]. now rewrite Hput1.
  - exact (get_put_same _ _ _ _ Hput1).
  - apply put_blind in Hput as [_ Hc]. apply put_blind in Hput1 as [_ Hc1].
    congruence.
Qed.

(** X13.  [create_desktop_shortcut] lets no [Exception] out.  It writes
    into the two directories on Windows only.  On a platform that is not
    one of [Windows], [Darwin] and [Linux] it creates nothing and still
    reports that the shortcuts were created.  On Windows the launcher
    file is written before the shortcut is saved, so it is in the install
    directory with its text whether saving succeeds or not. *)
Theorem shortcut_step_outcomes :
  forall (E : env) (s : state),
    (forall name s', create_desktop_shortcut E s
                     <> (Raise (Exception name), s')) /\
    (platform_system E <> "Windows" ->
     same_directories s (snd (create_desktop_shortcut E s))) /\
    (platform_system E <> "Windows" ->
     platform_system E <> "Darwin" ->
     platform_system E <> "Linux" ->
     create_desktop_shortcut E s
     = (Ok tt, say ShortcutsCreated (say Step8 s))) /\
    (platform_system E = "Windows" ->
     win32_shortcut E = Ok tt ->
     writable E s (loc_child install_dir "launch.bat") ->
     exists m,
       get (snd (create_desktop_shortcut E s))
           (loc_child install_dir "launch.bat")
       = Some (File (launcher_text E) m)).
Proof.
  intros E s. repeat split.
  - intros name s'. unfold create_desktop_shortcut, bind at 1, print at 1.
    apply try_except_not_exception.
    intros e s0 s1 n. unfold print. discriminate.
  - apply String.eqb_neq in H.
    unfold create_desktop_shortcut, try_except, create_mac_shortcut,
      create_linux_shortcut. rewrite H.
    unfold bind, print, lift, ret.
    destruct (String.eqb (platform_system E) "Darwin");
      [destruct (mac_shortcut E) as [[]|[e|]]; reflexivity|].
    destruct (String.eqb (platform_system E) "Linux");
      [destruct (linux_shortcut E) as [[]|[e|]]; reflexivity|reflexivity].
  - apply String.eqb_neq in H.
    unfold create_desktop_shortcut, try_except, create_mac_shortcut,
      create_linux_shortcut. rewrite H.
    unfold bind, print, lift, ret.
    destruct (String.eqb (platform_system E) "Darwin");
      [destruct (mac_shortcut E) as [[]|[e|]]; reflexivity|].
    destruct (String.eqb (platform_system E) "Linux");
      [destruct (linux_shortcut E) as [[]|[e|]]; reflexivity|reflexivity].
  - intros H H0 H1. apply String.eqb_neq in H, H0, H1.
    unfold create_desktop_shortcut, try_except. rewrite H, H0, H1.
    reflexivity.
  - intros Hwin Hdispatch Hw.
    destruct (open_write_succeeds (launcher_text E) (writable_say Step8 Hw))
      as (s1 & m & Hrun & Hfile & _).
    exists m.
    unfold create_desktop_shortcut, try_except, create_windows_shortcut.
    rewrite Hwin, String.eqb_refl, Hdispatch.
    unfold bind at 1, print at 1. unfold bind at 1. unfold bind at 1, lift at 1.
    unfold bind in Hrun. unfold bind at 1.
    destruct (open_wb E (loc_child install_dir "launch.bat") (say Step8 s))
      as [[[]|e] s0]; [|discriminate].
    unfold bind at 1. rewrite Hrun.
    unfold lift, print. destruct (win32_save E) as [[]|[e|]]; cbn [snd];
      rewrite ?get_say; exact Hfile.
Qed.

Lemma shortcut_step_outcomes_witness :
  create_desktop_shortcut (on_platform "FreeBSD") bundle_staged
  = (Ok tt, say ShortcutsCreated (say Step8 bundle_staged)) /\
  exists m,
    get (snd (create_desktop_shortcut (on_platform "Windows") bundle_staged))
        (loc_child install_dir "launch.bat")
    = Some (File [x40] m).
Proof.
  split.
  - apply (proj1 (proj2 (proj2 (shortcut_step_outcomes (on_platform "FreeBSD")
                                  bundle_staged)))); discriminate.
  - apply (proj2 (proj2 (proj2 (shortcut_step_outcomes (on_platform "Windows")
                                  bundle_staged)))); try reflexivity.
    repeat split; try reflexivity.
    + intros es H. discriminate.
    + eexists. reflexivity.
Defined.

(** ** The manifest step, further *)

(** X14.  When the manifest endpoint answers 200 with JSON that is not an
    object (an array, a string, a number, [true], [null]),
    [download_manifest] prints a warning and returns [True], and
    [self.manifest] is that value; [download_app_files] then raises
    [AttributeError] right after its banner, without downloading
    anything. *)
Theorem non_object_answer_becomes_the_manifest :
  forall (E : env) (s : state) (r : response) (j : json),
    http_get E manifest_url = Ok r ->
    status_code r = 200 ->
    json_body r = Ok j ->
    (forall items, j <> JObj items) ->
    exists e,
      download_manifest E s
      = (Ok true,
         say UsingDefaultList
           (say (ManifestWarning e) (with_manifest (say Step3 s) j))) /\
      download_app_files E
        (say UsingDefaultList
           (say (ManifestWarning e) (with_manifest (say Step3 s) j)))
      = (Raise (Exception "AttributeError"),
         say Step4Files
           (say UsingDefaultList
              (say (ManifestWarning e) (with_manifest (say Step3 s) j)))).
Proof.
  intros E s r j Hget Hst Hbody Hj.
  apply Z.eqb_eq in Hst.
  unfold download_manifest, download_app_files, try_except, requests_get.
  unfold bind at 1, print at 1. unfold bind at 1. unfold bind at 1, lift at 1.
  rewrite Hget, Hst. unfold bind at 1, lift at 1. rewrite Hbody.
  unfold bind at 1, get_state at 1. unfold bind at 1, set_state at 1.
  unfold bind at 1, get_state at 1.
  cbn [manifest with_manifest].
  destruct j as [|b|n|text|l|items];
    try (exfalso; apply (Hj items); reflexivity).
  - exists "TypeError". split; reflexivity.
  - exists "TypeError". split; reflexivity.
  - exists "TypeError". split; reflexivity.
  - unfold bind at 1, lift at 1. cbn [py_contains].
    destruct (is_substring "content" text).
    + exists "TypeError". split; reflexivity.
    + exists "AttributeError". split; reflexivity.
  - unfold bind at 1, lift at 1. cbn [py_contains].
    destruct (existsb (is_str "content") l).
    + exists "TypeError". split; reflexivity.
    + exists "AttributeError". split; reflexivity.
Qed.

Lemma non_object_answer_becomes_the_manifest_witness :
  manifest (snd (download_manifest array_manifest prepared))
  = JArr [JStr "main_app.py"] /\
  fst (download_app_files array_manifest
         (snd (download_manifest array_manifest prepared)))
  = Raise (Exception "AttributeError").
Proof.
  destruct (@non_object_answer_becomes_the_manifest array_manifest prepared
              (mkResponse 200 NoHeader (Ok (JArr [JStr "main_app.py"])) [] None)
              (JArr [JStr "main_app.py"]))
    as (e & Hm & Hf); try reflexivity.
  - intros items H. discriminate.
  - rewrite Hm. cbn [snd]. rewrite Hf. split; reflexivity.
Defined.

(** X15.  When the manifest endpoint answers 200 with an object,
    [download_manifest] returns [True] with [self.manifest] set from the
    answer: to the object itself when it has no [content] key, and to
    what the decoded content parses to when it has one (the envelope is
    unwrapped); the number of listed files is printed. *)
Theorem manifest_is_taken_from_the_answer :
  forall (E : env) (s : state) (r : response) (items : list (string * json)),
    http_get E manifest_url = Ok r ->
    status_code r = 200 ->
    json_body r = Ok (JObj items) ->
    (forall files n,
        assoc "content" items = None ->
        py_get (JObj items) "files" (JObj []) = Ok files ->
        py_len files = Ok n ->
        download_manifest E s
        = (Ok true,
           say (FoundFiles n) (with_manifest (say Step3 s) (JObj items)))) /\
    (forall text content j files n,
        assoc "content" items = Some (JStr text) ->
        b64decode_text E text = Ok content ->
        json_loads E content = Ok j ->
        py_get j "files" (JObj []) = Ok files ->
        py_len files = Ok n ->
        download_manifest E s
        = (Ok true, say (FoundFiles n) (with_manifest (say Step3 s) j))).
Proof.
  intros E s r items Hget Hst Hbody.
  apply Z.eqb_eq in Hst.
  assert (Hstart :
            download_manifest E s
            = (returned <-
                 try_except
                   (wrapped <- lift (py_contains "content" (JObj items)) ;;
                    (if wrapped : bool then
                       s <- get_state ;;
                       c <- lift (py_getitem (manifest s) "content") ;;
                       content <- match c with
                                  | JStr text => lift (b64decode_text E text)
                                  | _ => raise (Exception "TypeError")
                                  end ;;
                       j' <- lift (json_loads E content) ;;
                       s <- get_state ;; set_state (with_manifest s j')
                     else ret tt) ;;
                    s <- get_state ;;
                    files <- lift (py_get (manifest s) "files" (JObj [])) ;;
                    n <- lift (py_len files) ;;
                    print (FoundFiles n) ;;
                    ret (Some true))
                   (fun e =>
                      print (ManifestWarning e) ;;
                      print UsingDefaultList ;;
                      ret (Some true)) ;;
               match returned with
               | Some b => ret b
               | None => ret false
               end) (with_manifest (say Step3 s) (JObj items))).
  { unfold download_manifest, try_except, requests_get.
    unfold bind at 1, print at 1. unfold bind at 1. unfold bind at 1, lift at 1.
    rewrite Hget, Hst. unfold bind at 1, lift at 1. rewrite Hbody.
    unfold bind at 1, get_state at 1. unfold bind at 1, set_state at 1.
    unfold bind at 1, get_state at 1. reflexivity. }
  split.
  - intros files n Hnone Hfiles Hlen. rewrite Hstart.
    unfold try_except, bind, lift, get_state, print, ret.
    change (manifest (with_manifest (say Step3 s) (JObj items)))
      with (JObj items).
    unfold py_contains, has_key. rewrite Hnone.
    cbv beta iota.
    change (manifest (with_manifest (say Step3 s) (JObj items)))
      with (JObj items).
    rewrite Hfiles, Hlen.
    reflexivity.
  - intros text content j files n Hsome Hdecode Hloads Hfiles Hlen.
    rewrite Hstart.
    unfold try_except, bind, lift, get_state, set_state, print, ret.
    unfold py_contains, has_key. rewrite Hsome. cbv beta iota.
    change (manifest (with_manifest (say Step3 s) (JObj items)))
      with (JObj items).
    unfold py_getitem. rewrite Hsome. cbv beta iota.
    rewrite Hdecode. cbv beta iota.
    rewrite Hloads. cbv beta iota.
    change (manifest (with_manifest (with_manifest (say Step3 s) (JObj items)) j))
      with j.
    rewrite Hfiles, Hlen. reflexivity.
Qed.

Lemma manifest_is_taken_from_the_answer_witness :
  download_manifest wrapped_manifest prepared
  = (Ok true, say (FoundFiles 1) (with_manifest (say Step3 prepared)
                                    one_file_manifest)).
Proof.
  eapply (proj2 (@manifest_is_taken_from_the_answer wrapped_manifest prepared _ _
                   eq_refl eq_refl eq_refl)); reflexivity.
Defined.

(** ** The copy step, when it fails *)

Lemma for_each_raise_inv (A : Type) (body : A -> M unit) l :
  forall s e s',
    for_each l body s = (Raise e, s') ->
    exists done x rest s1,
      l = (done ++ x :: rest)%list /\
      for_each done body s = (Ok tt, s1) /\
      body x s1 = (Raise e, s').
Proof.
  induction l as [|x l IH]; intros s e s' H.
  - discriminate.
  - cbn [for_each] in H. unfold bind in H.
    destruct (body x s) as [[[]|e0] s0] eqn:Hx.
    + apply IH in H as (done & y & rest & s1 & -> & Hdone & Hy).
      exists (x :: done), y, rest, s1. split; [reflexivity|].
      split; [|exact Hy]. cbn [for_each]. unfold bind. now rewrite Hx.
    + inversion H; subst. exists [], x, l, s. now repeat split.
Qed.

Lemma put_entry_other parents s name q v s' x :
  x <> name ->
  put parents s (At InstallDir (name :: q)) v = Some s' ->
  install_entry s' x = install_entry s x.
Proof.
  intros Hne H. apply put_install_inv in H as (n & Hs & ->).
  rewrite !install_entry_eq. cbn [fs_install with_install lookup_opt].
  exact (@store_top_other _ _ _ _ _ _ _ Hs Hne).
Qed.

Lemma del_entry_other s name s' x :
  x <> name ->
  del s (At InstallDir [name]) = Some s' ->
  install_entry s' x = install_entry s x.
Proof.
  intros Hne H. unfold del in H.
  destruct (remove (fs_install s) [name]) as [r|] eqn:Hr; [|discriminate].
  inversion H; subst s'. rewrite !install_entry_eq.
  apply remove_top in Hr as (es & Ho & ->).
  cbn [fs_install with_install]. rewrite Ho, !lookup_top_dir.
  apply assoc_del_entry_other. congruence.
Qed.

Ltac entry_step Hne :=
  let s := fresh "s" in
  let r0 := fresh "r0" in
  let s' := fresh "s'" in
  let Hs := fresh "Hs" in
  let H := fresh "H" in
  apply preserves_bind; [apply preserves_fault|]; intros _;
  intros s r0 s' Hs H; unfold_monad;
  repeat match type of H with
         | context [match ?x with _ => _ end] => destruct x eqn:?
         end;
  inversion H; subst; try reflexivity;
  match goal with
  | Hp : put _ _ _ _ = Some _ |- _ =>
      repeat match type of Hp with
             | context [match ?x with _ => _ end] => destruct x
             end;
      (eapply put_entry_other; [exact Hne|exact Hp])
  | Hd : del _ _ = Some _ |- _ =>
      eapply del_entry_other; [exact Hne|exact Hd]
  end.

Lemma copy_item_other_entries E name x v :
  x <> name ->
  preserves (fun s => install_entry s x = v) (copy_item E name).
Proof.
  intros Hne. unfold copy_item.
  apply preserves_bind; [apply preserves_is_file|]. intros f.
  destruct f.
  - unfold copy2. entry_step Hne.
  - apply preserves_bind; [apply preserves_is_dir|]. intros d.
    destruct (d && negb (name =? "__pycache__")%string); [|apply preserves_ret].
    apply preserves_bind; [apply preserves_exists_|]. intros there.
    apply preserves_bind.
    + destruct there; [|apply preserves_ret]. unfold rmtree. entry_step Hne.
    + intros _. unfold copytree. entry_step Hne.
Qed.

Lemma copy_item_keeps_staging E name t :
  preserves (fun s => tree_of s TempDir = t) (copy_item E name).
Proof. unfold copy_item. tsteps. Qed.

Lemma copy_step_fails_at E s ts s' :
  fs_temp s = Some (Dir ts) ->
  copy_files_to_install_dir E s = (Ok false, s') ->
  exists done name rest e s1 s2,
    map fst ts = (done ++ name :: rest)%list /\
    for_each done (copy_item E) (say Step7 s) = (Ok tt, s1) /\
    copy_item E name s1 = (Raise (Exception e), s2) /\
    s' = say (CopyFailed e) s2.
Proof.
  intros Ht H.
  unfold copy_files_to_install_dir, bind at 1, print at 1, try_except in H.
  assert (Hg : get (say Step7 s) temp_dir = Some (Dir ts))
    by (simpl; now rewrite Ht).
  unfold bind at 1, iterdir at 1 in H. rewrite Hg in H.
  unfold bind at 1 in H.
  destruct (for_each (map fst ts) (copy_item E) (say Step7 s))
    as [[[]|[e|]] s2] eqn:Hloop.
  - unfold bind, print, ret in H. discriminate.
  - unfold bind, print, ret in H. inversion H; subst s'.
    apply for_each_raise_inv in Hloop
      as (done & name & rest & s1 & Hnames & Hdone & Hitem).
    now exists done, name, rest, e, s1, s2.
  - discriminate.
Qed.

(** X16.  A failed copy is not rolled back.  On a staging directory
    that lists each name once, when [copy_files_to_install_dir] returns
    [False] the loop stopped at one staging entry: every entry listed
    before it is in the install directory as the copy makes it (a file
    with its bytes and metadata, a directory exactly as in staging), the
    install entries of every other name but the failing one are what
    they were, and the staging directory is as it was. *)
Theorem failed_copy_is_not_rolled_back :
  forall (E : env) (s s' : state) (ts : list (string * node)),
    fs_temp s = Some (Dir ts) ->
    unique_names (Dir ts) = true ->
    copy_files_to_install_dir E s = (Ok false, s') ->
    exists done name rest,
      map fst ts = (done ++ name :: rest)%list /\
      fs_temp s' = Some (Dir ts) /\
      (forall x n,
          In x done -> assoc x ts = Some n ->
          installs x n (install_entry s x) (install_entry s' x)) /\
      (forall x,
          x <> name -> ~ In x done ->
          install_entry s' x = install_entry s x).
Proof.
  intros E s s' ts Ht Hu H.
  destruct (@copy_step_fails_at E s ts _ Ht H)
    as (done & name & rest & e & s1 & s2 & Hnames & Hdone & Hitem & ->).
  pose proof (unique_names_NoDup _ Hu) as Hnd. rewrite Hnames in Hnd.
  assert (Hnd_done : NoDup done) by (now apply NoDup_app_remove_r in Hnd).
  assert (Hfresh : ~ In name done).
  { apply NoDup_remove_2 in Hnd. intros Hin. apply Hnd.
    apply in_or_app. now left. }
  destruct (@copy_loop_spec E ts Hu done (say Step7 s) s1 Hnd_done)
    as (Ht1 & Hother & Hthese); [| exact Ht | exact Hdone |].
  { intros x Hx. rewrite Hnames. apply in_or_app. now left. }
  exists done, name, rest. split; [exact Hnames|]. split; [|split].
  - change (fs_temp (say (CopyFailed e) s2)) with (tree_of s2 TempDir).
    exact (@copy_item_keeps_staging E name _ s1 _ s2 Ht1 Hitem).
  - intros x n Hx Hn.
    assert (Hne : x <> name) by (intros ->; contradiction).
    change (install_entry (say (CopyFailed e) s2) x) with (install_entry s2 x).
    rewrite (@copy_item_other_entries E name x _ Hne s1 _ s2 eq_refl Hitem).
    exact (Hthese x n Hx Hn).
  - intros x Hne Hx.
    change (install_entry (say (CopyFailed e) s2) x) with (install_entry s2 x).
    rewrite (@copy_item_other_entries E name x _ Hne s1 _ s2 eq_refl Hitem).
    exact (Hother x Hx).
Qed.

Lemma failed_copy_is_not_rolled_back_witness :
  exists done name rest,
    ["main_app.py"; "ui"; "__pycache__"] = (done ++ name :: rest)%list /\
    fs_temp (snd (copy_files_to_install_dir copytree_refused bundle_staged))
    = fs_temp bundle_staged /\
    (forall x n,
        In x done ->
        assoc x [ ("main_app.py", File [x61] 7);
                  ("ui", Dir [("window.py", File [x62] 8)]);
                  ("__pycache__", Dir [("new.pyc", File [x6e] 9)]) ] = Some n ->
        installs x n (install_entry bundle_staged x)
          (install_entry
             (snd (copy_files_to_install_dir copytree_refused bundle_staged))
             x)) /\
    (forall x,
        x <> name -> ~ In x done ->
        install_entry
          (snd (copy_files_to_install_dir copytree_refused bundle_staged)) x
        = install_entry bundle_staged x).
Proof.
  apply (@failed_copy_is_not_rolled_back copytree_refused bundle_staged
           (snd (copy_files_to_install_dir copytree_refused bundle_staged))
           _ eq_refl eq_refl).
  vm_compute. reflexivity.
Defined.

(** X17.  A directory of the install directory is deleted before its
    replacement is copied, and a failing copy does not bring it back:
    when the staging entries before [name] copy, staging and the install
    directory both hold a directory [name] (not [__pycache__]),
    [shutil.rmtree] works and [shutil.copytree] raises,
    [copy_files_to_install_dir] returns [False] and nothing that only
    the old directory had is left: below [name] the install directory
    holds no path that the staging directory [name] does not hold. *)
Theorem refused_copytree_loses_the_old_directory :
  forall (E : env) (s s1 : state) (ts : list (string * node))
         (done rest : list string) (name e : string)
         (es old : list (string * node)),
    fs_temp s = Some (Dir ts) ->
    unique_names (Dir ts) = true ->
    map fst ts = (done ++ name :: rest)%list ->
    for_each done (copy_item E) (say Step7 s) = (Ok tt, s1) ->
    assoc name ts = Some (Dir es) ->
    name <> "__pycache__" ->
    install_entry s name = Some (Dir old) ->
    fs_fault E (OpRmtree (loc_child install_dir name)) = None ->
    fs_fault E (OpCopytree (loc_child temp_dir name)
                           (loc_child install_dir name))
    = Some (Exception e) ->
    exists s',
      copy_files_to_install_dir E s = (Ok false, s') /\
      forall p,
        lookup_opt (Some (Dir es)) p = None ->
        get s' (At InstallDir (name :: p)) = None.
Proof.
  intros E s s1 ts done rest name e es old Ht Hu Hnames Hdone Hn Hpy Hold
         Hrm Hcp.
  pose proof (unique_names_NoDup _ Hu) as Hnd. rewrite Hnames in Hnd.
  assert (Hnd_done : NoDup done) by (now apply NoDup_app_remove_r in Hnd).
  assert (Hfresh : ~ In name done).
  { apply NoDup_remove_2 in Hnd. intros Hin. apply Hnd.
    apply in_or_app. now left. }
  destruct (@copy_loop_spec E ts Hu done (say Step7 s) s1 Hnd_done)
    as (Ht1 & Hother & _); [| exact Ht | exact Hdone |].
  { intros x Hx. rewrite Hnames. apply in_or_app. now left. }
  pose proof (Hother name Hfresh) as Hentry.
  change (install_entry (say Step7 s) name) with (install_entry s name)
    in Hentry.
  rewrite Hold in Hentry.
  pose proof (temp_item _ _ Ht1 Hn) as Hitem.
  assert (Hi : exists entries,
             fs_install s1 = Some (Dir entries) /\
             assoc name entries = Some (Dir old)).
  { rewrite install_entry_eq in Hentry.
    destruct (fs_install s1) as [[d m|entries]|]; try discriminate.
    exists entries. split; [reflexivity|].
    now rewrite lookup_top_dir in Hentry. }
  destruct Hi as (entries & Hi & Hassoc).
  assert (Hturn :
            copy_item E name s1
            = (Raise (Exception e),
               with_install s1 (Some (Dir (del_entry name entries))))).
  { unfold copy_item. unfold bind at 1, is_file at 1. rewrite Hitem.
    unfold bind at 1, is_dir at 1. rewrite Hitem. cbn [andb].
    apply String.eqb_neq in Hpy. rewrite Hpy. cbn [negb].
    unfold bind at 1, exists_ at 1.
    change (get s1 (loc_child install_dir name)) with (install_entry s1 name).
    rewrite Hentry.
    unfold bind at 1. unfold rmtree at 1, fault. rewrite Hrm.
    unfold bind at 1, ret at 1. unfold bind at 1, get_state at 1.
    change (get s1 (loc_child install_dir name)) with (install_entry s1 name).
    rewrite Hentry.
    unfold del, loc_child at 1, install_dir at 1. cbn [app]. rewrite Hi.
    cbn [remove]. rewrite Hassoc. cbn [option_map]. unfold set_state.
    unfold copytree, fault. rewrite Hcp. reflexivity. }
  exists (say (CopyFailed e)
            (with_install s1 (Some (Dir (del_entry name entries))))).
  split.
  - unfold copy_files_to_install_dir, bind at 1, print at 1, try_except.
    assert (Hg : get (say Step7 s) temp_dir = Some (Dir ts))
      by (simpl; now rewrite Ht).
    unfold bind at 1, iterdir at 1. rewrite Hg.
    unfold bind at 1.
    assert (Hloop :
              for_each (map fst ts) (copy_item E) (say Step7 s)
              = (Raise (Exception e),
                 with_install s1 (Some (Dir (del_entry name entries))))).
    { rewrite Hnames. clear - Hdone Hturn. revert Hdone.
      generalize (say Step7 s). induction done as [|y done IH]; intros s0 H.
      - inversion H; subst. cbn [app for_each]. unfold bind.
        now rewrite Hturn.
      - cbn [app for_each] in *. unfold bind in *.
        destruct (copy_item E y s0) as [[[]|e0] s2]; [|discriminate].
        now apply IH. }
    rewrite Hloop. reflexivity.
  - intros p _.
    unfold get. cbn [fs_install with_install say with_console lookup_opt lookup].
    now rewrite assoc_del_entry_same.
Qed.

Lemma refused_copytree_loses_the_old_directory_witness :
  exists s',
    copy_files_to_install_dir copytree_refused bundle_staged = (Ok false, s') /\
    get bundle_staged (At InstallDir ["ui"; "stale.py"]) = Some (File [x73] 1) /\
    get s' (At InstallDir ["ui"; "stale.py"]) = None.
Proof.
  destruct (@refused_copytree_loses_the_old_directory copytree_refused
              bundle_staged
              (snd (for_each ["main_app.py"] (copy_item copytree_refused)
                      (say Step7 bundle_staged)))
              _ ["main_app.py"] ["__pycache__"] "ui"
              "PermissionError" [("window.py", File [x62] 8)]
              [("stale.py", File [x73] 1)]
              eq_refl eq_refl eq_refl)
    as (s' & Hrun & Hgone).
  - vm_compute. reflexivity.
  - reflexivity.
  - discriminate.
  - reflexivity.
  - reflexivity.
  - reflexivity.
  - exists s'. split; [exact Hrun|]. split; [reflexivity|].
    apply Hgone. reflexivity.
Defined.

(** ** Where the fallback path writes *)

Lemma preserves_get_state P (A : Type) (k : state -> M A) :
  (forall s0, P s0 -> preserves P (k s0)) ->
  preserves P (s <- get_state ;; k s).
Proof.
  intros Hk s r s' HP H. unfold bind, get_state in H.
  exact (Hk s HP s r s' HP H).
Qed.

Lemma preserves_bind_lift P (A B : Type) (x : result A) (k : A -> M B) :
  (forall a, x = Ok a -> preserves P (k a)) ->
  preserves P (a <- lift x ;; k a).
Proof.
  intros Hk s r s' HP H. unfold bind, lift in H.
  destruct x as [a|e].
  - exact (Hk a eq_refl s r s' HP H).
  - now inversion H; subst.
Qed.

Lemma put_in_staging parents s p v s' :
  put parents s (At TempDir p) v = Some s' ->
  outside_staging s' = outside_staging s.
Proof.
  unfold put, option_map.
  destruct (store parents (fs_temp s) p v); [|discriminate].
  intros H. now inversion H.
Qed.

Lemma confined_temp_child filename :
  confined filename = true ->
  temp_child filename
  = At TempDir (filter plain_component (split_slash filename)).
Proof.
  unfold confined, temp_child.
  destruct (is_absolute filename); [discriminate|].
  destruct (existsb _ _); [discriminate|reflexivity].
Qed.

Section Staging.

Variable E : env.
Variable o : option node * list (string * node) * json.

Let P : state -> Prop := fun s => outside_staging s = o.

Lemma staging_print m : preserves P (print m).
Proof. intros s r s' Hs H. unfold print in H. now inversion H; subst. Qed.

Lemma staging_open_wb p : preserves P (open_wb E (At TempDir p)).
Proof.
  unfold open_wb.
  apply preserves_bind; [apply preserves_fault|]. intros _.
  intros s r s' Hs H. unfold_monad.
  destruct (get s (At TempDir p)) as [[d m|es]|];
    try (destruct (put false s (At TempDir p) (File [] (now E)))
           as [s1|] eqn:Hp);
    inversion H; subst; try exact Hs;
    unfold P; now rewrite (put_in_staging _ _ _ _ Hp).
Qed.

Lemma staging_file_write p chunk :
  preserves P (file_write E (At TempDir p) chunk).
Proof.
  unfold file_write.
  apply preserves_bind; [apply preserves_fault|]. intros _.
  intros s r s' Hs H. unfold_monad.
  destruct (get s (At TempDir p)) as [[d m|es]|];
    try (destruct (put false s (At TempDir p) (File (d ++ chunk)%list (now E)))
           as [s1|] eqn:Hp);
    inversion H; subst; try exact Hs;
    unfold P; now rewrite (put_in_staging _ _ _ _ Hp).
Qed.

Lemma staging_download_file url p filename :
  preserves P (download_file E url (At TempDir p) filename).
Proof.
  unfold download_file, download_file_try, requests_get, raise_for_status,
    int_content_length, write_chunks.
  repeat (intros;
          match goal with
          | |- preserves _ (bind _ _) => apply preserves_bind
          | |- preserves _ (ret _) => apply preserves_ret
          | |- preserves _ (raise _) => apply preserves_raise
          | |- preserves _ (lift _) => apply preserves_lift
          | |- preserves _ (print _) => apply staging_print
          | |- preserves _ (try_except _ _) => apply preserves_try_except
          | |- preserves _ (for_each _ _) => apply preserves_for_each
          | |- preserves _ (open_wb _ _) => apply staging_open_wb
          | |- preserves _ (file_write _ _ _) => apply staging_file_write
          | |- preserves _ (if ?b then _ else _) => destruct b
          | |- preserves _ (match ?x with _ => _ end) => destruct x
          end).
Qed.

End Staging.

(** X18.  On a system with POSIX paths ([platform.system()] is not
    [Windows]), when every file name the manifest lists is relative and
    has no [..] component, [download_app_files] writes into the staging
    directory only: however it ends, the install directory, every file
    outside the two directories and [self.manifest] are as they
    were. *)
Theorem fallback_writes_only_into_staging :
  forall (E : env) (s s' : state) (r : result bool),
    platform_system E <> "Windows" ->
    lists_confined_names (manifest s) ->
    download_app_files E s = (r, s') ->
    fs_install s' = fs_install s /\
    fs_elsewhere s' = fs_elsewhere s /\
    manifest s' = manifest s.
Proof.
  intros E s s' r _ Hnames Hrun.
  set (P := fun s0 : state => outside_staging s0 = outside_staging s).
  assert (Hm : forall s0, P s0 -> manifest s0 = manifest s).
  { intros s0 H0. unfold P, outside_staging in H0. congruence. }
  assert (Hp : preserves P (download_app_files E)).
  { unfold download_app_files.
    apply preserves_bind; [apply staging_print|]. intros _.
    apply preserves_get_state. intros s0 H0. rewrite (Hm s0 H0).
    apply preserves_bind; [apply preserves_lift|]. intros files.
    apply preserves_bind; [apply preserves_lift|]. intros total_files.
    destruct (total_files =? 0)%nat.
    { apply preserves_bind; [apply staging_print|]. intros _.
      apply preserves_ret. }
    apply preserves_bind; [apply staging_print|]. intros _.
    apply preserves_get_state. intros s1 H1. rewrite (Hm s1 H1).
    apply preserves_bind_lift. intros files' Hfiles.
    apply preserves_bind_lift. intros items Hitems.
    pose proof (Hnames files' items Hfiles Hitems) as Hall.
    rewrite Forall_forall in Hall.
    apply preserves_bind.
    - apply preserves_for_fold. intros [filename file_info] acc Hin.
      specialize (Hall _ Hin). cbn [fst] in Hall.
      unfold download_app_file. rewrite (confined_temp_child _ Hall).
      apply preserves_bind; [apply staging_download_file|]. intros ok.
      destruct ok; [|apply preserves_ret].
      apply preserves_bind; [apply preserves_getsize|]. intros size.
      apply preserves_bind; [apply preserves_lift|]. intros declared.
      destruct (py_eq_int size declared); [apply preserves_ret|].
      apply preserves_bind; [apply staging_print|]. intros _.
      apply preserves_ret.
    - intros successful.
      apply preserves_bind; [apply staging_print|]. intros _.
      apply preserves_ret. }
  pose proof (Hp s r s' eq_refl Hrun) as H.
  unfold P, outside_staging in H. inversion H. auto.
Qed.

Lemma fallback_writes_only_into_staging_witness :
  fs_install (snd (download_app_files one_longer_file prepared))
  = fs_install prepared /\
  fs_elsewhere (snd (download_app_files one_longer_file prepared))
  = fs_elsewhere prepared /\
  manifest (snd (download_app_files one_longer_file prepared))
  = manifest prepared.
Proof.
  apply (@fallback_writes_only_into_staging one_longer_file prepared _
           (fst (download_app_files one_longer_file prepared))).
  - discriminate.
  - intros files items Hfiles Hitems.
    vm_compute in Hfiles. inversion Hfiles; subst files.
    vm_compute in Hitems. inversion Hitems; subst items.
    repeat constructor.
  - apply surjective_pairing.
Defined.

(** ** What the fallback path counts *)

Lemma download_app_file_counts E filename file_info c s c1 s1 :
  download_app_file E (filename, file_info) c s = (Ok c1, s1) ->
  c1 = c \/
  (c1 = S c /\
   exists r declared,
     http_get E (raw_url filename) = Ok r /\
     py_get file_info "size" (JNum 0) = Ok declared /\
     py_eq_int (served_size r) declared = true).
Proof.
  unfold download_app_file. intros H.
  apply bind_ok_inv in H as (ok & s0 & Hd & H).
  destruct ok; [|unfold ret in H; inversion H; now left].
  destruct (download_file_leaves_file _ _ _ _ _ Hd) as (r & m & Hr & Hfile).
  apply bind_ok_inv in H as (size & s2 & Hsize & H).
  rewrite (getsize_of_file E _ _ Hfile) in Hsize.
  inversion Hsize; subst size s2. clear Hsize.
  apply bind_ok_inv in H as (declared & s3 & Hdecl & H).
  unfold lift in Hdecl. inversion Hdecl as [[Hdecl' Hs3]]. subst s3.
  destruct (py_eq_int _ declared) eqn:Heq.
  - unfold ret in H. inversion H. right. split; [reflexivity|].
    exists r, declared. destruct (py_get file_info "size" (JNum 0));
      [|discriminate].
    inversion Hdecl'; subst. now repeat split.
  - unfold bind, print, ret in H. inversion H. now left.
Qed.

Lemma fallback_loop_counts E items :
  forall c s c' s',
    for_fold items (download_app_file E) c s = (Ok c', s') ->
    (c < c')%nat ->
    exists filename file_info r declared,
      In (filename, file_info) items /\
      http_get E (raw_url filename) = Ok r /\
      py_get file_info "size" (JNum 0) = Ok declared /\
      py_eq_int (served_size r) declared = true.
Proof.
  induction items as [|[filename file_info] rest IH]; intros c s c' s' H Hlt.
  - cbn [for_fold] in H. unfold ret in H. inversion H. lia.
  - cbn [for_fold] in H. apply bind_ok_inv in H as (c1 & s1 & Hturn & Hrest).
    apply download_app_file_counts in Hturn
      as [->|(_ & r & declared & Hr & Hdecl & Heq)].
    + destruct (IH _ _ _ _ Hrest Hlt)
        as (f & i & r & declared & Hin & Hr & Hdecl & Heq).
      exists f, i, r, declared. split; [now right|]. now repeat split.
    + exists filename, file_info, r, declared.
      split; [now left|]. now repeat split.
Qed.

(** X19.  [download_app_files] returns [True] only when the answer for
    some listed file has a body of exactly as many bytes as the manifest
    declares for it.  On the built-in manifest, which declares size 0
    for its three files, the fallback path therefore returns [True] only
    when one of the three is served with an empty body. *)
Theorem fallback_true_needs_a_body_of_the_declared_size :
  forall (E : env) (s s' : state) (items : list (string * json)),
    py_get (manifest s) "files" (JObj []) = Ok (JObj items) ->
    download_app_files E s = (Ok true, s') ->
    (exists filename file_info r declared,
        In (filename, file_info) items /\
        http_get E (raw_url filename) = Ok r /\
        py_get file_info "size" (JNum 0) = Ok declared /\
        py_eq_int (served_size r) declared = true) /\
    (manifest s = default_manifest ->
     exists filename r,
       In filename ["main_app.py"; "requirements.txt"; "media_config.json"] /\
       http_get E (raw_url filename) = Ok r /\
       List.concat (body_chunks r) = []).
Proof.
  intros E s s' items Hfiles H.
  assert (Hsome : exists filename file_info r declared,
             In (filename, file_info) items /\
             http_get E (raw_url filename) = Ok r /\
             py_get file_info "size" (JNum 0) = Ok declared /\
             py_eq_int (served_size r) declared = true).
  { unfold download_app_files in H.
    unfold bind at 1, print at 1 in H.
    unfold bind at 1, get_state at 1 in H.
    change (manifest (say Step4Files s)) with (manifest s) in H.
    rewrite Hfiles in H. unfold bind at 1, lift at 1 in H.
    unfold bind at 1, lift at 1 in H. cbn [py_len] in H.
    destruct (List.length items =? 0)%nat;
      [unfold bind, print, ret in H; discriminate|].
    unfold bind at 1, print at 1 in H.
    unfold bind at 1, get_state at 1 in H.
    change (manifest (say (DownloadingFiles (List.length items))
                        (say Step4Files s)))
      with (manifest s) in H.
    rewrite Hfiles in H. unfold bind at 1, lift at 1 in H.
    unfold bind at 1, lift at 1 in H. cbn [py_items] in H.
    unfold bind at 1 in H.
    destruct (for_fold items (download_app_file E) 0%nat _)
      as [[c|e] s2] eqn:Hloop; [|discriminate].
    unfold bind, print, ret in H.
    assert (Hc : (0 <? c)%nat = true) by congruence.
    clear H. apply Nat.ltb_lt in Hc.
    exact (fallback_loop_counts _ _ _ Hloop Hc). }
  split; [exact Hsome|].
  intros Hm. rewrite Hm in Hfiles. cbn in Hfiles.
  inversion Hfiles; subst items. clear Hfiles.
  destruct Hsome as (filename & file_info & r & declared & Hin & Hr & Hdecl & Heq).
  exists filename, r.
  assert (Hzero : declared = JNum 0 /\
                  In filename
                     ["main_app.py"; "requirements.txt"; "media_config.json"]).
  { cbn [In] in Hin.
    destruct Hin as [Hi|[Hi|[Hi|[]]]]; inversion Hi; subst;
      cbn in Hdecl; inversion Hdecl; (split; [reflexivity|]);
      cbn [In]; auto. }
  destruct Hzero as [-> Hname].
  split; [exact Hname|]. split; [exact Hr|].
  unfold py_eq_int, served_size in Heq. apply Z.eqb_eq in Heq.
  destruct (List.concat (body_chunks r)); [reflexivity|].
  cbn [List.length] in Heq. lia.
Qed.

Lemma fallback_true_needs_a_body_of_the_declared_size_witness :
  exists filename r,
    In filename ["main_app.py"; "requirements.txt"; "media_config.json"] /\
    http_get one_empty_file (raw_url filename) = Ok r /\
    List.concat (body_chunks r) = [].
Proof.
  apply (proj2 (@fallback_true_needs_a_body_of_the_declared_size
                  one_empty_file prepared
                  (snd (download_app_files one_empty_file prepared))
                  default_files eq_refl eq_refl)).
  reflexivity.
Defined.
